(** * MCP Backup Server: a shallow embedding of the backup engine

    The development follows the server's source file (the tool dispatcher
    with its helpers) and [utils.ts].  Platform services the engine calls
    (the clock, Node's [path] and [fs] modules, [JSON], [minimatch],
    [crypto.randomUUID]) are modelled in the first modules; the engine's
    own functions keep their source names. *)

From stdpp Require Import gmap strings list.
From Stdlib Require Import ZArith Lia Ascii String Sorted.

Open Scope Z_scope.

(** ** JavaScript values used by the engine *)

Module JS.

(** A JavaScript number as the engine uses it: an integer or [NaN]. *)
Inductive number := NaN | Num (z : Z).

(** [a - b] on numbers. *)
Definition sub (a b : number) : number :=
  match a, b with
  | Num x, Num y => Num (x - y)
  | _, _ => NaN
  end.

(** Truthiness of a string: the empty string is falsy. *)
Definition truthy (s : string) : bool :=
  match s with EmptyString => false | _ => true end.

Definition digit_char (d : Z) : ascii := ascii_of_nat (48 + Z.to_nat d).

Fixpoint digits_of (fuel : nat) (n : Z) (acc : string) : string :=
  match fuel with
  | O => acc
  | S fuel' =>
      let acc' := String (digit_char (n mod 10)) acc in
      if n / 10 =? 0 then acc' else digits_of fuel' (n / 10) acc'
  end.

(** [String(n)] for an integer [n]: decimal digits, a minus sign when
    negative, no leading zero. *)
Definition String_of_number (n : Z) : string :=
  if n <? 0
  then String "-"%char (digits_of (S (Z.to_nat (Z.log2 (- n)))) (- n) EmptyString)
  else digits_of (S (Z.to_nat (Z.log2 n))) n EmptyString.

Fixpoint repeat_char (c : ascii) (n : nat) : string :=
  match n with
  | O => EmptyString
  | S n' => String c (repeat_char c n')
  end.

(** [s.padStart(len, c)] with a one-character pad string. *)
Definition padStart (s : string) (len : nat) (c : ascii) : string :=
  repeat_char c (len - String.length s) +:+ s.

(** [s.endsWith(suffix)]: some tail of [s] is [suffix]. *)
Fixpoint endsWith (s suffix : string) : bool :=
  String.eqb s suffix ||
  match s with
  | EmptyString => false
  | String _ s' => endsWith s' suffix
  end.

(** [Array.prototype.sort] with a comparison function: the sort is
    stable, and a comparison result of [NaN] counts as [+0]. *)
Definition sort_before {A} (cmp : A -> A -> number) (a b : A) : bool :=
  match cmp a b with
  | Num v => v <=? 0
  | NaN => true
  end.

Fixpoint sort_insert {A} (cmp : A -> A -> number) (x : A) (l : list A) : list A :=
  match l with
  | [] => [x]
  | y :: l' =>
      if sort_before cmp x y then x :: l else y :: sort_insert cmp x l'
  end.

Definition sort {A} (cmp : A -> A -> number) (l : list A) : list A :=
  fold_right (sort_insert cmp) [] l.

End JS.

(** ** The clock: ECMAScript time values and the local getters *)

Module Date.

(** A [Date] object: the time value (milliseconds since the epoch, UTC)
    and the local time zone adjustment the host applies at that instant. *)
Record t := mk { utc : Z; tza : Z }.

Definition msPerDay : Z := 86400000.
Definition LocalTime (d : t) : Z := utc d + tza d.
Definition Day (tv : Z) : Z := tv / msPerDay.

Definition DayFromYear (y : Z) : Z :=
  365 * (y - 1970) + (y - 1969) / 4 - (y - 1901) / 100 + (y - 1601) / 400.

(** The largest year whose first day is not after day [d]; the estimate
    from the mean year length is off by at most one. *)
Definition YearFromDay (d : Z) : Z :=
  let y := 1970 + (400 * d) / 146097 in
  if DayFromYear (y + 1) <=? d then y + 1
  else if DayFromYear y <=? d then y
  else y - 1.

Definition YearFromTime (tv : Z) : Z := YearFromDay (Day tv).

Definition InLeapYear (y : Z) : Z :=
  if DayFromYear (y + 1) - DayFromYear y =? 366 then 1 else 0.

Definition DayWithinYear (tv : Z) : Z :=
  Day tv - DayFromYear (YearFromTime tv).

Definition MonthFromDay (leap dwy : Z) : Z :=
  if dwy <? 31 then 0
  else if dwy <? 59 + leap then 1
  else if dwy <? 90 + leap then 2
  else if dwy <? 120 + leap then 3
  else if dwy <? 151 + leap then 4
  else if dwy <? 181 + leap then 5
  else if dwy <? 212 + leap then 6
  else if dwy <? 243 + leap then 7
  else if dwy <? 273 + leap then 8
  else if dwy <? 304 + leap then 9
  else if dwy <? 334 + leap then 10
  else 11.

Definition DateFromDay (leap dwy : Z) : Z :=
  match MonthFromDay leap dwy with
  | 0 => dwy + 1
  | 1 => dwy - 30
  | 2 => dwy - 58 - leap
  | 3 => dwy - 89 - leap
  | 4 => dwy - 119 - leap
  | 5 => dwy - 150 - leap
  | 6 => dwy - 180 - leap
  | 7 => dwy - 211 - leap
  | 8 => dwy - 242 - leap
  | 9 => dwy - 272 - leap
  | 10 => dwy - 303 - leap
  | _ => dwy - 333 - leap
  end.

Definition MonthFromTime (tv : Z) : Z :=
  MonthFromDay (InLeapYear (YearFromTime tv)) (DayWithinYear tv).
Definition DateFromTime (tv : Z) : Z :=
  DateFromDay (InLeapYear (YearFromTime tv)) (DayWithinYear tv).
Definition HourFromTime (tv : Z) : Z := (tv / 3600000) mod 24.
Definition MinFromTime (tv : Z) : Z := (tv / 60000) mod 60.
Definition SecFromTime (tv : Z) : Z := (tv / 1000) mod 60.
Definition msFromTime (tv : Z) : Z := tv mod 1000.

Definition getFullYear (d : t) : Z := YearFromTime (LocalTime d).
Definition getMonth (d : t) : Z := MonthFromTime (LocalTime d).
Definition getDate (d : t) : Z := DateFromTime (LocalTime d).
Definition getHours (d : t) : Z := HourFromTime (LocalTime d).
Definition getMinutes (d : t) : Z := MinFromTime (LocalTime d).
Definition getSeconds (d : t) : Z := SecFromTime (LocalTime d).
Definition getMilliseconds (d : t) : Z := msFromTime (LocalTime d).

End Date.

(** ** Timestamps *)

Definition generateTimestamp (now : Date.t) : string :=
  let year := Date.getFullYear now in
  let month := JS.padStart (JS.String_of_number (Date.getMonth now + 1)) 2 "0" in
  let day := JS.padStart (JS.String_of_number (Date.getDate now)) 2 "0" in
  let hours := JS.padStart (JS.String_of_number (Date.getHours now)) 2 "0" in
  let minutes := JS.padStart (JS.String_of_number (Date.getMinutes now)) 2 "0" in
  let seconds := JS.padStart (JS.String_of_number (Date.getSeconds now)) 2 "0" in
  let milliseconds := JS.padStart (JS.String_of_number (Date.getMilliseconds now)) 3 "0" in
  JS.String_of_number year +:+ month +:+ day +:+ "-" +:+
  hours +:+ minutes +:+ seconds +:+ "-" +:+ milliseconds.

(** ** Paths

    A path is the list of its segments below the root; the model covers
    absolute, normalised POSIX paths, on which [path.normalize] changes
    nothing and the drive-letter pattern of [getBackupDir] never matches. *)

Module Path.

Definition t := list string.

Definition normalize (p : t) : t := p.
Definition join (a b : t) : t := a ++ b.
Definition dirname (p : t) : t := List.removelast p.
Definition basename (p : t) : string := List.last p EmptyString.

(** Index of the last ['.'] of a file name, if any. *)
Fixpoint last_dot (s : string) : option nat :=
  match s with
  | EmptyString => None
  | String c s' =>
      match last_dot s' with
      | Some i => Some (S i)
      | None => if Ascii.eqb c "."%char then Some O else None
      end
  end.

(** [path.parse(p).name] and [.ext]: the extension starts at the last
    dot of the base name, unless that dot is its first character. *)
Definition name_ext (base : string) : string * string :=
  match last_dot base with
  | Some (S i) =>
      (String.substring 0 (S i) base,
       String.substring (S i) (String.length base - S i) base)
  | _ => (base, EmptyString)
  end.

Definition name (p : t) : string := fst (name_ext (basename p)).
Definition ext (p : t) : string := snd (name_ext (basename p)).

(** The template [`${p}${suffix}`]: the suffix lands on the last segment. *)
Fixpoint add_suffix (p : t) (suffix : string) : t :=
  match p with
  | [] => [suffix]
  | [b] => [b +:+ suffix]
  | a :: p' => a :: add_suffix p' suffix
  end.

Fixpoint is_prefix (a b : t) : bool :=
  match a, b with
  | [], _ => true
  | x :: a', y :: b' => String.eqb x y && is_prefix a' b'
  | _ :: _, [] => false
  end.

Fixpoint strip_common (a b : t) : t * t :=
  match a, b with
  | x :: a', y :: b' => if String.eqb x y then strip_common a' b' else (a, b)
  | _, _ => (a, b)
  end.

(** [path.relative(from, to)]. *)
Definition relative (from to : t) : t :=
  let '(up, down) := strip_common from to in
  List.map (fun _ => ".."%string) up ++ down.

Definition lower_char (c : ascii) : ascii :=
  let n := nat_of_ascii c in
  if ((65 <=? n) && (n <=? 90))%nat then ascii_of_nat (n + 32) else c.

Fixpoint toLowerCase (s : string) : string :=
  match s with
  | EmptyString => EmptyString
  | String c s' => String (lower_char c) (toLowerCase s')
  end.

End Path.

(** ** The file system

    A tree of directories and regular files.  A directory keeps its
    entries in the order [readdir] reports them; an entry created in a
    directory is listed after the ones already there. *)

Module FS.

Definition bytes := list Byte.byte.

#[local] Unset Elimination Schemes.
Inductive node :=
| File (data : bytes)
| Dir (items : list (string * node)).
#[local] Set Elimination Schemes.

Definition items_t := list (string * node).

Fixpoint assoc (s : string) (items : items_t) : option node :=
  match items with
  | [] => None
  | (k, c) :: rest => if String.eqb s k then Some c else assoc s rest
  end.

Fixpoint replace (s : string) (c : node) (items : items_t) : items_t :=
  match items with
  | [] => []
  | (k, c0) :: rest =>
      if String.eqb s k then (k, c) :: rest else (k, c0) :: replace s c rest
  end.

Fixpoint remove (s : string) (items : items_t) : items_t :=
  match items with
  | [] => []
  | (k, c0) :: rest =>
      if String.eqb s k then rest else (k, c0) :: remove s rest
  end.

Fixpoint lookup (n : node) (p : Path.t) : option node :=
  match p with
  | [] => Some n
  | s :: p' =>
      match n with
      | Dir items =>
          match assoc s items with
          | Some c => lookup c p'
          | None => None
          end
      | File _ => None
      end
  end.

(** What [stat] tells about a path. *)
Inductive kind := IsFile (data : bytes) | IsDir.

Definition kind_of (n : node) : kind :=
  match n with File d => IsFile d | Dir _ => IsDir end.

Definition stat (fs : node) (p : Path.t) : option kind :=
  option_map kind_of (lookup fs p).

Definition existsSync (fs : node) (p : Path.t) : bool :=
  match lookup fs p with Some _ => true | None => false end.

Definition isDirectory (fs : node) (p : Path.t) : bool :=
  match lookup fs p with Some (Dir _) => true | _ => false end.

Definition isFile (fs : node) (p : Path.t) : bool :=
  match lookup fs p with Some (File _) => true | _ => false end.

Definition readFile (fs : node) (p : Path.t) : option bytes :=
  match lookup fs p with Some (File d) => Some d | _ => None end.

Definition readdir (fs : node) (p : Path.t) : option (list string) :=
  match lookup fs p with Some (Dir items) => Some (List.map fst items) | _ => None end.

(** [writeFile]: create or overwrite a regular file; the parent must be
    a directory and the path itself must not be one. *)
Fixpoint writeFile (n : node) (p : Path.t) (data : bytes) : option node :=
  match n, p with
  | Dir items, [s] =>
      match assoc s items with
      | Some (Dir _) => None
      | Some (File _) => Some (Dir (replace s (File data) items))
      | None => Some (Dir (items ++ [(s, File data)]))
      end
  | Dir items, s :: p' =>
      match assoc s items with
      | Some c =>
          match writeFile c p' data with
          | Some c' => Some (Dir (replace s c' items))
          | None => None
          end
      | None => None
      end
  | _, _ => None
  end.

Fixpoint fresh_dirs (p : Path.t) : node :=
  match p with
  | [] => Dir []
  | s :: p' => Dir [(s, fresh_dirs p')]
  end.

(** [mkdir] with [recursive: true]: missing directories along the path
    are created; a regular file on the way is an error. *)
Fixpoint mkdir_p (n : node) (p : Path.t) : option node :=
  match n with
  | File _ => None
  | Dir items =>
      match p with
      | [] => Some n
      | s :: p' =>
          match assoc s items with
          | Some c =>
              match mkdir_p c p' with
              | Some c' => Some (Dir (replace s c' items))
              | None => None
              end
          | None => Some (Dir (items ++ [(s, fresh_dirs p')]))
          end
      end
  end.

(** [unlink]: remove a regular file. *)
Fixpoint unlink (n : node) (p : Path.t) : option node :=
  match n, p with
  | Dir items, [s] =>
      match assoc s items with
      | Some (File _) => Some (Dir (remove s items))
      | _ => None
      end
  | Dir items, s :: p' =>
      match assoc s items with
      | Some c =>
          match unlink c p' with
          | Some c' => Some (Dir (replace s c' items))
          | None => None
          end
      | None => None
      end
  | _, _ => None
  end.

(** [rmdir] with [recursive: true]: remove a whole subtree. *)
Fixpoint rmdir_r (n : node) (p : Path.t) : option node :=
  match n, p with
  | Dir items, [s] =>
      match assoc s items with
      | Some _ => Some (Dir (remove s items))
      | None => None
      end
  | Dir items, s :: p' =>
      match assoc s items with
      | Some c =>
          match rmdir_r c p' with
          | Some c' => Some (Dir (replace s c' items))
          | None => None
          end
      | None => None
      end
  | _, _ => None
  end.

(** The tree with the node at [p] set to [sub]: the parent of [p] must
    be a directory; a new entry goes to the end of its listing. *)
Fixpoint graft (n : node) (p : Path.t) (sub : node) : option node :=
  match p with
  | [] => Some sub
  | s :: p' =>
      match n with
      | File _ => None
      | Dir items =>
          match assoc s items with
          | Some c =>
              match graft c p' sub with
              | Some c' => Some (Dir (replace s c' items))
              | None => None
              end
          | None =>
              match p' with
              | [] => Some (Dir (items ++ [(s, sub)]))
              | _ :: _ => None
              end
          end
      end
  end.

Definition distinct_among (check : node -> bool) : items_t -> bool :=
  fix each (items : items_t) : bool :=
    match items with
    | [] => true
    | (k, c) :: rest =>
        match assoc k rest with Some _ => false | None => true end
        && check c && each rest
    end.

(** No directory of the tree lists a name twice. *)
Fixpoint distinct_names (n : node) : bool :=
  match n with
  | File _ => true
  | Dir items => distinct_among distinct_names items
  end.

(** [copyFile]: the source must be a regular file. *)
Definition copyFile (fs : node) (src dst : Path.t) : option node :=
  match readFile fs src with
  | Some d => writeFile fs dst d
  | None => None
  end.

End FS.

(** ** Descriptor text

    A descriptor is stored as text and read back with [JSON.parse]; the
    engine relies on nothing but [parse] inverting [stringify] and failing
    on text that is no descriptor.  The model writes the bits of a
    countable encoding of the record, one per byte, in place of JSON
    syntax. *)

Record BackupMetadata := {
  original_path : Path.t;
  original_filename : string;
  timestamp : string;
  created_at : Z;            (* the time value [toISOString] renders *)
  backup_path : Path.t;
  relative_path : Path.t;
  agent_context : option string
}.

Module JSON.

Definition to_tuple (m : BackupMetadata) :=
  (original_path m, original_filename m, timestamp m, created_at m,
   backup_path m, relative_path m, agent_context m).

Definition of_tuple
    (x : Path.t * string * string * Z * Path.t * Path.t * option string)
    : BackupMetadata :=
  let '(a, b, c, d, e, f, g) := x in
  {| original_path := a; original_filename := b; timestamp := c;
     created_at := d; backup_path := e; relative_path := f;
     agent_context := g |}.

Fixpoint bits (p : positive) : FS.bytes :=
  match p with
  | xH => []
  | xO q => Byte.x30 :: bits q
  | xI q => Byte.x31 :: bits q
  end.

Fixpoint unbits (bs : FS.bytes) : option positive :=
  match bs with
  | [] => Some xH
  | b :: rest =>
      if Byte.eqb b Byte.x30 then option_map xO (unbits rest)
      else if Byte.eqb b Byte.x31 then option_map xI (unbits rest)
      else None
  end.

Definition stringify (m : BackupMetadata) : FS.bytes :=
  bits (encode (to_tuple m)).

Definition parse (text : FS.bytes) : option BackupMetadata :=
  match unbits text with
  | Some p => option_map of_tuple (decode p)
  | None => None
  end.

End JSON.

(** ** Strings handed to [Date] and to [localeCompare] *)

Module Text.

Definition is_digit (c : ascii) : bool :=
  let n := nat_of_ascii c in ((48 <=? n) && (n <=? 57))%nat.

Fixpoint split_on (sep : ascii) (s : string) : list string :=
  match s with
  | EmptyString => [EmptyString]
  | String c s' =>
      if Ascii.eqb c sep then EmptyString :: split_on sep s'
      else match split_on sep s' with
           | g :: gs => String c g :: gs
           | [] => [String c EmptyString]
           end
  end.

(** The value of a non-empty run of decimal digits. *)
Fixpoint number_from (acc : Z) (s : string) : option Z :=
  match s with
  | EmptyString => Some acc
  | String c s' =>
      if is_digit c
      then number_from (10 * acc + Z.of_nat (nat_of_ascii c - 48)) s'
      else None
  end.

Definition number (s : string) : option Z :=
  match s with
  | EmptyString => None
  | _ => number_from 0 s
  end.

(** Three digit groups joined by dashes, the first worth more than
    1,000,000: the shape of every timestamp the engine generates for a
    year from 100 on. *)
Definition compact_stamp (s : string) : bool :=
  match List.map number (split_on "-" s) with
  | [Some y; Some _; Some _] => 1000000 <? y
  | _ => false
  end.

(** [new Date(s).getTime()].  A [compact_stamp] is no ECMAScript
    date-time string (that starts with a four-digit year and a dash), so
    V8's fallback parser reads its three numbers as year, month and day;
    it rejects a month beyond 12 or a day beyond 31, and a year beyond
    1,000,000 has no time value: the result is [NaN] either way.  Any
    other string is left to the host's parser. *)
Definition Date_getTime (host : string -> JS.number) (s : string) : JS.number :=
  if compact_stamp s then JS.NaN else host s.

(** [a.localeCompare(b)], by code units; on two equally long runs of
    digits and dashes every collation agrees with it. *)
Definition localeCompare (a b : string) : JS.number :=
  match String.compare a b with
  | Lt => JS.Num (-1)
  | Eq => JS.Num 0
  | Gt => JS.Num 1
  end.

End Text.

(** ** Operations, errors and responses *)

Record Operation := {
  id : string;
  type : string;
  progress : Z;
  cancelled : bool;
  status : string
}.

Inductive error :=
| InvalidParams (param : string)
| FileNotFound (p : Path.t)
| FolderNotFound (p : Path.t)
| BackupNotFound (ts : string) (p : Path.t)
| BackupFileNotFound (p : Path.t)
| BackupFolderNotFound (p : Path.t)
| OriginalFileNotFound (p : Path.t)
| PathsRequired
| SystemError (syscall : string) (p : Path.t).

Inductive payload :=
| Created (m : BackupMetadata) (versions_kept : Z)
| Listing (backups : list BackupMetadata)
| Restored (restored_path : Path.t) (ts : string)
| FolderRestored (restored_path : Path.t) (ts : string)
                 (emergency_backup_path : option Path.t)
| CancelFailed (operationId : string)
| CancelDone (operationId : string).

Inductive response :=
| JsonResponse (data : payload)
| ErrorResponse (e : error) (operationId : option string)
| CancelledResponse.

(** ** The process state and the engine's monad *)

Record World := {
  fs : FS.node;
  operations : gmap string Operation;
  clock : nat -> Date.t;      (* what successive [new Date()] calls read *)
  clock_reads : nat;
  uuids : nat -> string;      (* what successive [randomUUID()] calls draw *)
  uuid_draws : nat
}.

Definition with_fs (w : World) (f : FS.node) : World :=
  {| fs := f; operations := operations w; clock := clock w;
     clock_reads := clock_reads w; uuids := uuids w; uuid_draws := uuid_draws w |}.

Definition with_operations (w : World) (o : gmap string Operation) : World :=
  {| fs := fs w; operations := o; clock := clock w;
     clock_reads := clock_reads w; uuids := uuids w; uuid_draws := uuid_draws w |}.

Inductive outcome (A : Type) :=
| Return (a : A)
| Throw (e : error).
Arguments Return {A} a.
Arguments Throw {A} e.

Definition M (A : Type) : Type := World -> outcome A * World.

Definition ret {A} (a : A) : M A := fun w => (Return a, w).
Definition throw {A} (e : error) : M A := fun w => (Throw e, w).
Definition bind {A B} (m : M A) (k : A -> M B) : M B :=
  fun w => match m w with
           | (Return a, w') => k a w'
           | (Throw e, w') => (Throw e, w')
           end.
Definition try_catch {A} (m : M A) (h : error -> M A) : M A :=
  fun w => match m w with
           | (Return a, w') => (Return a, w')
           | (Throw e, w') => h e w'
           end.

Declare Scope engine_scope.
Delimit Scope engine_scope with engine.
Notation "x <- m ;; k" := (bind m (fun x => k))
  (at level 100, m at next level, right associativity) : engine_scope.
Notation "m ;;; k" := (bind m (fun _ => k))
  (at level 100, right associativity) : engine_scope.
Open Scope engine_scope.

Definition get_fs : M FS.node := fun w => (Return (fs w), w).

(** A call into [fs] that changes the tree or throws. *)
Definition fs_update (syscall : string) (p : Path.t)
    (f : FS.node -> option FS.node) : M unit :=
  fun w => match f (fs w) with
           | Some fs' => (Return tt, with_fs w fs')
           | None => (Throw (SystemError syscall p), w)
           end.

(** [new Date()]. *)
Definition new_Date : M Date.t :=
  fun w => (Return (clock w (clock_reads w)),
            {| fs := fs w; operations := operations w; clock := clock w;
               clock_reads := S (clock_reads w); uuids := uuids w;
               uuid_draws := uuid_draws w |}).

(** [crypto.randomUUID()]. *)
Definition randomUUID : M string :=
  fun w => (Return (uuids w (uuid_draws w)),
            {| fs := fs w; operations := operations w; clock := clock w;
               clock_reads := clock_reads w; uuids := uuids w;
               uuid_draws := S (uuid_draws w) |}).

(** ** utils.ts *)

Definition checkOperationCancelled (operationId : option string)
    (cleanupFn : M unit) : M (option response) :=
  fun w =>
    match operationId with
    | Some i =>
        if JS.truthy i &&
           match operations w !! i with Some op => cancelled op | None => false end
        then (cleanupFn ;;; ret (Some CancelledResponse)) w
        else (Return None, w)
    | None => (Return None, w)
    end.

Definition formatJsonResponse (data : payload) : response := JsonResponse data.

Definition formatErrorResponse (e : error) (operationId : option string) : response :=
  ErrorResponse e operationId.

(** [validateRequiredParams] for one parameter: [present] tells whether
    the argument is there and truthy. *)
Definition validateRequiredParam (param : string) (present : bool) : M unit :=
  if present then ret tt else throw (InvalidParams param).

Definition validateFileExists (filePath : Path.t) : M unit :=
  fun w => if FS.isFile (fs w) filePath then (Return tt, w)
           else (Throw (FileNotFound filePath), w).

Definition validateFolderExists (folderPath : Path.t) : M unit :=
  fun w => if FS.isDirectory (fs w) folderPath then (Return tt, w)
           else (Throw (FolderNotFound folderPath), w).

(** ** The engine *)

Inductive request :=
| backup_create (file_path : option Path.t) (agent_context : option string)
| backup_list (file_path : option Path.t)
| backup_restore (file_path : option Path.t) (timestamp : string)
                 (create_emergency_backup : bool)
| backup_folder_create (folder_path : option Path.t)
                       (include_pattern exclude_pattern : option string)
                       (agent_context : option string)
| backup_folder_list (folder_path : option Path.t)
| backup_folder_restore (folder_path : option Path.t) (timestamp : string)
                        (create_emergency_backup : option bool)
| mcp_cancel (operationId : string).

Definition tool_name (r : request) : string :=
  match r with
  | backup_create _ _ => "backup_create"
  | backup_list _ => "backup_list"
  | backup_restore _ _ _ => "backup_restore"
  | backup_folder_create _ _ _ _ => "backup_folder_create"
  | backup_folder_list _ => "backup_folder_list"
  | backup_folder_restore _ _ _ => "backup_folder_restore"
  | mcp_cancel _ => "mcp_cancel"
  end.

Definition is_some {A} (o : option A) : bool :=
  match o with Some _ => true | None => false end.

(** The value of an optional argument, or its default. *)
Definition or_else {A} (o : option A) (d : A) : A :=
  match o with Some a => a | None => d end.

Definition pattern_given (p : option string) : bool :=
  match p with Some s => JS.truthy s | None => false end.

Section Engine.

(** Configuration read from the environment at start-up, the glob
    matcher, and the host's parser for date strings. *)
Variable BACKUP_DIR_NORMALIZED : Path.t.
Variable EMERGENCY_BACKUP_DIR_NORMALIZED : Path.t.
Variable MAX_VERSIONS : Z.
Variable cwd : Path.t.
Variable minimatch : string -> string -> bool.
Variable host_Date_parse : string -> JS.number.

(** The module-level [currentOperationId] is never assigned: the
    request handler declares a local variable of the same name. *)
Definition currentOperationId : option string := None.

Definition updateOperationProgress (operationId : string) (progress : Z) : M unit :=
  fun w =>
    match operations w !! operationId with
    | Some op =>
        (Return tt,
         with_operations w
           (<[operationId := {| id := id op; type := type op; progress := progress;
                                cancelled := cancelled op; status := status op |}]>
              (operations w)))
    | None => (Return tt, w)
    end.

Definition logProgress (progress : Z) : M unit :=
  match currentOperationId with
  | Some i => updateOperationProgress i progress
  | None => ret tt
  end.

Definition getBackupFolderName (folderPath : Path.t) (timestamp : string) : string :=
  Path.basename folderPath +:+ "." +:+ timestamp.

Definition createOperation (type : string) : M Operation :=
  i <- randomUUID ;;
  let operation := {| id := i; type := type; progress := 0;
                      cancelled := false; status := "running" |} in
  fun w => (Return operation,
            with_operations w (<[i := operation]> (operations w))).

Definition cancelOperation (operationId : string) : M bool :=
  fun w =>
    match operations w !! operationId with
    | Some op =>
        (Return true,
         with_operations w
           (<[operationId := {| id := id op; type := type op; progress := progress op;
                                cancelled := true; status := status op |}]>
              (operations w)))
    | None => (Return false, w)
    end.

Definition ensureBackupDirectoryExists (dirPath : Path.t) : M unit :=
  fs_update "mkdir" dirPath (fun f => FS.mkdir_p f dirPath).

(** The directory part of a path, taken below the store root: the
    drive letter and the leading separators are gone in this model. *)
Definition relativeDir (filePath : Path.t) : Path.t :=
  Path.dirname (Path.normalize filePath).

Definition getBackupDir (filePath : Path.t) : Path.t :=
  Path.join BACKUP_DIR_NORMALIZED (relativeDir filePath).

Definition getBackupFilename (filePath : Path.t) (timestamp : string) : string :=
  Path.name filePath +:+ Path.ext filePath +:+ "." +:+ timestamp.

Definition getBackupMetadataFilename (backupFilePath : Path.t) : Path.t :=
  Path.add_suffix backupFilePath ".meta.json".

Definition createBackupMetadata (filePath : Path.t) (timestamp : string)
    (backupPath : Path.t) (agentContext : option string) : M BackupMetadata :=
  now <- new_Date ;;
  ret {| original_path := filePath;
         original_filename := Path.basename filePath;
         timestamp := timestamp;
         created_at := Date.utc now;
         backup_path := backupPath;
         relative_path := Path.relative cwd backupPath;
         agent_context := agentContext |}.

Definition saveBackupMetadata (metadataPath : Path.t) (metadata : BackupMetadata) : M unit :=
  fs_update "open" metadataPath
    (fun f => FS.writeFile f metadataPath (JSON.stringify metadata)).

Definition readBackupMetadata (f : FS.node) (metadataPath : Path.t) : option BackupMetadata :=
  match FS.readFile f metadataPath with
  | Some data => JSON.parse data
  | None => None
  end.

Definition isFolderMetadata (f : FS.node) (metadata : BackupMetadata) : bool :=
  negb (JS.endsWith (Path.basename (backup_path metadata)) ".meta.json") &&
  FS.existsSync f (backup_path metadata) &&
  FS.isDirectory f (backup_path metadata).

Fixpoint lower_path (p : Path.t) : Path.t :=
  match p with
  | [] => []
  | s :: p' => Path.toLowerCase s :: lower_path p'
  end.

Definition isParentPath (parentPath childPath : Path.t) : bool :=
  Path.is_prefix (lower_path (Path.normalize parentPath))
                 (lower_path (Path.normalize childPath)).

(** The loop of [findAllBackupMetadataFiles] over the items of one
    directory; [walk] is the recursive call on a subdirectory. *)
Definition metadataFilesAmong (walk : FS.node -> Path.t -> list Path.t)
    (directory : Path.t) : FS.items_t -> list Path.t :=
  fix each (items : FS.items_t) : list Path.t :=
    match items with
    | [] => []
    | (item, child) :: rest =>
        let itemPath := Path.join directory [item] in
        match child with
        | FS.Dir _ => walk child itemPath ++ each rest
        | FS.File _ =>
            if JS.endsWith item ".meta.json" then itemPath :: each rest
            else each rest
        end
    end.

(** The walk of [findAllBackupMetadataFiles] below a directory node. *)
Fixpoint metadataFilesIn (n : FS.node) (directory : Path.t) : list Path.t :=
  match n with
  | FS.File _ => []
  | FS.Dir items => metadataFilesAmong metadataFilesIn directory items
  end.

Definition findAllBackupMetadataFiles (f : FS.node) (directory : Path.t)
    : outcome (list Path.t) :=
  match FS.lookup f directory with
  | None => Return []
  | Some (FS.File _) => Throw (SystemError "scandir" directory)
  | Some n => Return (metadataFilesIn n directory)
  end.

Definition keep_some {A} (l : list (option A)) : list A :=
  flat_map (fun o => match o with Some a => [a] | None => [] end) l.

Definition timeOf (m : BackupMetadata) : JS.number :=
  Text.Date_getTime host_Date_parse (timestamp m).

Definition findBackupsByFilePath (f : FS.node) (filePath : Path.t)
    : outcome (list BackupMetadata) :=
  match findAllBackupMetadataFiles f BACKUP_DIR_NORMALIZED with
  | Throw e => Throw e
  | Return metadataFiles =>
      let backups :=
        List.filter
          (fun metadata =>
             bool_decide (original_path metadata = filePath) &&
             negb (isFolderMetadata f metadata))
          (keep_some (List.map (readBackupMetadata f) metadataFiles)) in
      Return (JS.sort (fun a b => JS.sub (timeOf b) (timeOf a)) backups)
  end.

Definition findBackupsByFolderPath (f : FS.node) (folderPath : Path.t)
    : outcome (list BackupMetadata) :=
  match findAllBackupMetadataFiles f BACKUP_DIR_NORMALIZED with
  | Throw e => Throw e
  | Return metadataFiles =>
      let backups :=
        List.filter
          (fun metadata =>
             isFolderMetadata f metadata &&
             (bool_decide (original_path metadata = folderPath) ||
              isParentPath (original_path metadata) folderPath ||
              isParentPath folderPath (original_path metadata)))
          (keep_some (List.map (readBackupMetadata f) metadataFiles)) in
      Return (JS.sort (fun a b => Text.localeCompare (timestamp b) (timestamp a)) backups)
  end.

Definition findBackupByTimestamp (f : FS.node) (filePath : Path.t) (timestamp : string)
    : option BackupMetadata :=
  let backupDir := getBackupDir filePath in
  let backupFilename := getBackupFilename filePath timestamp in
  let backupPath := Path.join backupDir [backupFilename] in
  let metadataPath := Path.add_suffix backupPath ".meta.json" in
  if FS.existsSync f metadataPath then
    match readBackupMetadata f metadataPath with
    | Some metadata => if isFolderMetadata f metadata then None else Some metadata
    | None => None
    end
  else None.

Definition lift {A} (o : FS.node -> outcome A) : M A :=
  fun w => (o (fs w), w).

(** One [unlinkSync] of the retention loop: a failure is logged and
    the loop goes on. *)
Definition removeOldBackup (backup : BackupMetadata) : M unit :=
  try_catch
    (fs_update "unlink" (backup_path backup)
       (fun f => FS.unlink f (backup_path backup)))
    (fun _ => ret tt).

Fixpoint forEach {A} (l : list A) (body : A -> M unit) : M unit :=
  match l with
  | [] => ret tt
  | x :: l' => body x ;;; forEach l' body
  end.

Definition cleanupOldBackups (filePath : Path.t) : M Z :=
  backups <- lift (fun f => findBackupsByFilePath f filePath) ;;
  if MAX_VERSIONS <? Z.of_nat (List.length backups) then
    let backups := JS.sort (fun a b => JS.sub (timeOf a) (timeOf b)) backups in
    let backupsToRemove :=
      firstn (Z.to_nat (Z.of_nat (List.length backups) - MAX_VERSIONS)) backups in
    forEach backupsToRemove removeOldBackup ;;;
    ret MAX_VERSIONS
  else ret (Z.of_nat (List.length backups)).

(** [generateTimestamp()] as the engine calls it: on a fresh [Date]. *)
Definition generateTimestamp_now : M string :=
  now <- new_Date ;; ret (generateTimestamp now).

Definition skipped (name : string) (includePattern excludePattern : option string) : bool :=
  match excludePattern with
  | Some pat => JS.truthy pat && minimatch name pat
  | None => false
  end
  ||
  match includePattern with
  | Some pat => JS.truthy pat && negb (minimatch name pat)
  | None => false
  end.

Definition ensureTarget (targetPath : Path.t) : M unit :=
  fun w =>
    if FS.existsSync (fs w) targetPath then (Return tt, w)
    else fs_update "mkdir" targetPath (fun f => FS.mkdir_p f targetPath) w.

(** The loop of [copyFolderRecursive] over the entries of one source
    directory; [copy] is the recursive call on a subdirectory. *)
Definition copyEntries (copy : FS.node -> Path.t -> Path.t -> M unit)
    (sourcePath targetPath : Path.t) (includePattern excludePattern : option string)
    : FS.items_t -> M unit :=
  fix each (entries : FS.items_t) : M unit :=
    match entries with
    | [] => ret tt
    | (name, entry) :: rest =>
        let srcPath := Path.join sourcePath [name] in
        let destPath := Path.join targetPath [name] in
        if skipped name includePattern excludePattern then each rest
        else
          match entry with
          | FS.Dir _ => copy entry srcPath destPath
          | FS.File data =>
              fs_update "copyfile" destPath (fun f => FS.writeFile f destPath data)
          end ;;; each rest
    end.

(** [copyFolderRecursive] on a source tree.  The tree is the one found
    at [sourcePath] when the copy starts, which is what the code reads
    while it copies whenever the target lies outside the source. *)
Fixpoint copyTree (source : FS.node) (sourcePath targetPath : Path.t)
    (includePattern excludePattern : option string) {struct source} : M unit :=
  ensureTarget targetPath ;;;
  match source with
  | FS.File _ => throw (SystemError "scandir" sourcePath)
  | FS.Dir entries =>
      copyEntries
        (fun entry srcPath destPath =>
           copyTree entry srcPath destPath includePattern excludePattern)
        sourcePath targetPath includePattern excludePattern entries
  end.

Definition copyFolderRecursive (sourcePath targetPath : Path.t)
    (includePattern excludePattern : option string) : M unit :=
  fun w =>
    match FS.lookup (fs w) sourcePath with
    | Some source =>
        copyTree source sourcePath targetPath includePattern excludePattern w
    | None =>
        (ensureTarget targetPath ;;; throw (SystemError "scandir" sourcePath)) w
    end.

Definition copyFolderContents (sourcePath targetPath : Path.t)
    (includePattern excludePattern : option string) : M unit :=
  fs_update "mkdir" targetPath (fun f => FS.mkdir_p f targetPath) ;;;
  copyFolderRecursive sourcePath targetPath includePattern excludePattern.

Definition ensureEmergencyBackupDir : M unit :=
  ensureTarget EMERGENCY_BACKUP_DIR_NORMALIZED.

Definition createEmergencyBackup (filePath : Path.t) : M (option Path.t) :=
  try_catch
    (fun w =>
       if negb (FS.existsSync (fs w) filePath) then (Return None, w)
       else
         (ensureEmergencyBackupDir ;;;
          timestamp <- generateTimestamp_now ;;
          let emergencyBackupDir :=
            Path.join EMERGENCY_BACKUP_DIR_NORMALIZED (relativeDir filePath) in
          fs_update "mkdir" emergencyBackupDir
            (fun f => FS.mkdir_p f emergencyBackupDir) ;;;
          let backupPath :=
            Path.join emergencyBackupDir
              [Path.name filePath +:+ Path.ext filePath +:+ ".emergency." +:+ timestamp] in
          fs_update "copyfile" backupPath
            (fun f => FS.copyFile f filePath backupPath) ;;;
          metadata <- createBackupMetadata filePath timestamp backupPath
                        (Some "Emergency backup created before restoration"%string) ;;
          let metadataPath :=
            Path.join EMERGENCY_BACKUP_DIR_NORMALIZED
              [Path.name filePath +:+ ".emergency." +:+ timestamp +:+ ".meta.json"] in
          fs_update "open" metadataPath
            (fun f => FS.writeFile f metadataPath (JSON.stringify metadata)) ;;;
          ret (Some backupPath)) w)
    (fun _ => ret None).

Definition createEmergencyFolderBackup (folderPath : Path.t) : M (option Path.t) :=
  try_catch
    (fun w =>
       if negb (FS.existsSync (fs w) folderPath) then (Return None, w)
       else
         (ensureEmergencyBackupDir ;;;
          timestamp <- generateTimestamp_now ;;
          let emergencyBackupDir :=
            Path.join EMERGENCY_BACKUP_DIR_NORMALIZED (relativeDir folderPath) in
          fs_update "mkdir" emergencyBackupDir
            (fun f => FS.mkdir_p f emergencyBackupDir) ;;;
          let backupPath :=
            Path.join emergencyBackupDir
              [Path.name folderPath +:+ ".emergency." +:+ timestamp] in
          copyFolderContents folderPath backupPath None None ;;;
          now <- new_Date ;;
          let metadata :=
            {| original_path := folderPath;
               original_filename := Path.basename folderPath;
               timestamp := timestamp;
               created_at := Date.utc now;
               backup_path := backupPath;
               relative_path := Path.relative cwd backupPath;
               agent_context := Some "Emergency backup created before restoration"%string |} in
          let metadataPath :=
            Path.join EMERGENCY_BACKUP_DIR_NORMALIZED
              [Path.name folderPath +:+ ".emergency." +:+ timestamp +:+ ".meta.json"] in
          fs_update "open" metadataPath
            (fun f => FS.writeFile f metadataPath (JSON.stringify metadata)) ;;;
          ret (Some backupPath)) w)
    (fun _ => ret None).

Definition hasTimestamp (ts : string) (b : BackupMetadata) : bool :=
  String.eqb (timestamp b) ts.

Definition restoreBackup (filePath : Path.t) (timestamp : string)
    (createEmergencyBackupFlag : bool) : M unit :=
  backups <- lift (fun f => findBackupsByFilePath f filePath) ;;
  match List.find (hasTimestamp timestamp) backups with
  | None => throw (BackupNotFound timestamp filePath)
  | Some backup =>
      (if createEmergencyBackupFlag
       then (_ <- createEmergencyBackup filePath ;; ret tt)
       else ret tt) ;;;
      let backupPath := backup_path backup in
      f <- get_fs ;;
      if negb (FS.existsSync f backupPath) then throw (BackupFileNotFound backupPath)
      else if negb (FS.existsSync f filePath) then throw (OriginalFileNotFound filePath)
      else fs_update "copyfile" filePath (fun f => FS.copyFile f backupPath filePath)
  end.

(** A cancellation checkpoint of a handler: [k] runs unless the
    operation was cancelled, in which case the handler returns the
    checkpoint's response. *)
Definition checkpoint (operationId : option string) (cleanupFn : M unit)
    (k : M response) : M response :=
  cancelCheck <- checkOperationCancelled operationId cleanupFn ;;
  match cancelCheck with
  | Some r => ret r
  | None => k
  end.

Definition setStatus (operationId : option string) (s : string) : M unit :=
  fun w =>
    match operationId with
    | Some i =>
        match operations w !! i with
        | Some op =>
            (Return tt,
             with_operations w
               (<[i := {| id := id op; type := type op; progress := progress op;
                          cancelled := cancelled op; status := s |}]> (operations w)))
        | None => (Return tt, w)
        end
    | None => (Return tt, w)
    end.

Definition handle_backup_create (currentOperationId : option string)
    (file_path : option Path.t) (agent_context : option string) : M response :=
  validateRequiredParam "file_path" (is_some file_path) ;;;
  let filePath := Path.normalize (or_else file_path []) in
  validateFileExists filePath ;;;
  timestamp <- generateTimestamp_now ;;
  let backupDir := getBackupDir filePath in
  ensureBackupDirectoryExists backupDir ;;;
  let backupFilename := getBackupFilename filePath timestamp in
  let backupPath := Path.join backupDir [backupFilename] in
  logProgress 10 ;;;
  checkpoint currentOperationId (ret tt) (
  fs_update "copyfile" backupPath (fun f => FS.copyFile f filePath backupPath) ;;;
  logProgress 70 ;;;
  checkpoint currentOperationId
    (fun w => if FS.existsSync (fs w) backupPath
              then fs_update "unlink" backupPath (fun f => FS.unlink f backupPath) w
              else (Return tt, w)) (
  metadata <- createBackupMetadata filePath timestamp backupPath agent_context ;;
  let metadataPath := getBackupMetadataFilename backupPath in
  saveBackupMetadata metadataPath metadata ;;;
  logProgress 90 ;;;
  versionsKept <- cleanupOldBackups filePath ;;
  logProgress 100 ;;;
  ret (formatJsonResponse (Created metadata versionsKept)))).

Definition handle_backup_list (file_path : option Path.t) : M response :=
  validateRequiredParam "file_path" (is_some file_path) ;;;
  let filePath := Path.normalize (or_else file_path []) in
  logProgress 0 ;;;
  validateFileExists filePath ;;;
  logProgress 30 ;;;
  backups <- lift (fun f => findBackupsByFilePath f filePath) ;;
  logProgress 70 ;;;
  let backups :=
    JS.sort (fun a b => Text.localeCompare (timestamp b) (timestamp a)) backups in
  logProgress 100 ;;;
  ret (formatJsonResponse (Listing backups)).

Definition handle_backup_restore (currentOperationId : option string)
    (file_path : option Path.t) (timestamp : string)
    (create_emergency_backup : bool) : M response :=
  validateRequiredParam "file_path" (is_some file_path) ;;;
  validateRequiredParam "timestamp" (JS.truthy timestamp) ;;;
  let filePath := Path.normalize (or_else file_path []) in
  backup <- lift (fun f => Return (findBackupByTimestamp f filePath timestamp)) ;;
  match backup with
  | None => throw (BackupNotFound timestamp filePath)
  | Some _ =>
      logProgress 20 ;;;
      checkpoint currentOperationId (ret tt) (
      let targetDir := Path.dirname filePath in
      ensureBackupDirectoryExists targetDir ;;;
      logProgress 50 ;;;
      checkpoint currentOperationId (ret tt) (
      (if create_emergency_backup
       then (_ <- createEmergencyBackup filePath ;; ret tt)
       else ret tt) ;;;
      restoreBackup filePath timestamp create_emergency_backup ;;;
      logProgress 100 ;;;
      ret (formatJsonResponse (Restored filePath timestamp))))
  end.

Definition handle_backup_folder_create (currentOperationId : option string)
    (folder_path : option Path.t) (include_pattern exclude_pattern : option string)
    (agent_context : option string) : M response :=
  validateRequiredParam "folder_path" (is_some folder_path) ;;;
  let folderPath := Path.normalize (or_else folder_path []) in
  validateFolderExists folderPath ;;;
  timestamp <- generateTimestamp_now ;;
  let backupDir := getBackupDir folderPath in
  ensureBackupDirectoryExists backupDir ;;;
  let backupFolderName := getBackupFolderName folderPath timestamp in
  let backupFolderPath := Path.join backupDir [backupFolderName] in
  logProgress 10 ;;;
  checkpoint currentOperationId (ret tt) (
  copyFolderContents folderPath backupFolderPath include_pattern exclude_pattern ;;;
  logProgress 70 ;;;
  checkpoint currentOperationId
    (fun w => if FS.existsSync (fs w) backupFolderPath
              then fs_update "rmdir" backupFolderPath
                     (fun f => FS.rmdir_r f backupFolderPath) w
              else (Return tt, w)) (
  metadata <- createBackupMetadata folderPath timestamp backupFolderPath agent_context ;;
  let metadataPath := Path.add_suffix backupFolderPath ".meta.json" in
  saveBackupMetadata metadataPath metadata ;;;
  logProgress 90 ;;;
  versionsKept <- cleanupOldBackups folderPath ;;
  logProgress 100 ;;;
  ret (formatJsonResponse (Created metadata versionsKept)))).

Definition handle_backup_folder_list (folder_path : option Path.t) : M response :=
  validateRequiredParam "folder_path" (is_some folder_path) ;;;
  let folderPath := Path.normalize (or_else folder_path []) in
  logProgress 0 ;;;
  validateFolderExists folderPath ;;;
  logProgress 30 ;;;
  backups <- lift (fun f => findBackupsByFolderPath f folderPath) ;;
  logProgress 70 ;;;
  let backups :=
    JS.sort (fun a b => Text.localeCompare (timestamp b) (timestamp a)) backups in
  logProgress 100 ;;;
  ret (formatJsonResponse (Listing backups)).

Definition handle_backup_folder_restore (currentOperationId : option string)
    (folder_path : option Path.t) (timestamp : string)
    (create_emergency_backup : option bool) : M response :=
  validateRequiredParam "folder_path" (is_some folder_path) ;;;
  validateRequiredParam "timestamp" (JS.truthy timestamp) ;;;
  let create_emergency_backup := or_else create_emergency_backup true in
  let folderPath := Path.normalize (or_else folder_path []) in
  validateFolderExists folderPath ;;;
  logProgress 0 ;;;
  try_catch
    (backups <- lift (fun f => findBackupsByFolderPath f folderPath) ;;
     match List.find (hasTimestamp timestamp) backups with
     | None => throw (BackupNotFound timestamp folderPath)
     | Some backup =>
         logProgress 10 ;;;
         emergencyBackupPath <-
           (if create_emergency_backup then createEmergencyFolderBackup folderPath
            else ret None) ;;
         f <- get_fs ;;
         if negb (FS.existsSync f (backup_path backup))
         then throw (BackupFolderNotFound (backup_path backup))
         else
           checkpoint currentOperationId (ret tt) (
           copyFolderContents (backup_path backup) folderPath None None ;;;
           logProgress 100 ;;;
           ret (formatJsonResponse
                  (FolderRestored folderPath timestamp emergencyBackupPath)))
     end)
    (fun e => setStatus currentOperationId "error" ;;; throw e).

Definition handle_mcp_cancel (operationId : string) : M response :=
  validateRequiredParam "operationId" (JS.truthy operationId) ;;;
  cancelled <- cancelOperation operationId ;;
  if negb cancelled then ret (formatJsonResponse (CancelFailed operationId))
  else ret (formatJsonResponse (CancelDone operationId)).

(** The [CallToolRequestSchema] handler: every call registers an
    operation, runs its tool, and turns a thrown error into an error
    response. *)
Definition CallTool (req : request) (w : World) : response * World :=
  let '(created, w1) := createOperation (tool_name req) w in
  let currentOperationId :=
    match created with Return op => Some (id op) | Throw _ => None end in
  let run :=
    match req with
    | backup_create file_path agent_context =>
        handle_backup_create currentOperationId file_path agent_context
    | backup_list file_path => handle_backup_list file_path
    | backup_restore file_path timestamp create_emergency_backup =>
        handle_backup_restore currentOperationId file_path timestamp
          create_emergency_backup
    | backup_folder_create folder_path include_pattern exclude_pattern agent_context =>
        handle_backup_folder_create currentOperationId folder_path
          include_pattern exclude_pattern agent_context
    | backup_folder_list folder_path => handle_backup_folder_list folder_path
    | backup_folder_restore folder_path timestamp create_emergency_backup =>
        handle_backup_folder_restore currentOperationId folder_path timestamp
          create_emergency_backup
    | mcp_cancel operationId => handle_mcp_cancel operationId
    end in
  match run w1 with
  | (Return r, w2) => (r, w2)
  | (Throw e, w2) => (formatErrorResponse e currentOperationId, w2)
  end.

End Engine.

(** ** A model of [minimatch] on file names

    Patterns made of literal characters, [?] and [*]; as in minimatch's
    default mode, a name that starts with a dot is matched only by a
    pattern that starts with one. *)

Module Glob.

Fixpoint glob (pattern : string) : string -> bool :=
  match pattern with
  | EmptyString => fun s => match s with EmptyString => true | _ => false end
  | String c pattern' =>
      if Ascii.eqb c "*"%char then
        fix star (s : string) : bool :=
          glob pattern' s ||
          match s with
          | EmptyString => false
          | String _ s' => star s'
          end
      else if Ascii.eqb c "?"%char then
        fun s => match s with
                 | String _ s' => glob pattern' s'
                 | EmptyString => false
                 end
      else
        fun s => match s with
                 | String d s' => Ascii.eqb c d && glob pattern' s'
                 | EmptyString => false
                 end
  end.

Definition starts_with_dot (s : string) : bool :=
  match s with
  | String c _ => Ascii.eqb c "."%char
  | EmptyString => false
  end.

Definition minimatch (name pattern : string) : bool :=
  if starts_with_dot name && negb (starts_with_dot pattern) then false
  else glob pattern name.

End Glob.

(** ** A small installation, used to run the engine on concrete inputs *)

Module Scenario.

Definition BACKUP_DIR : Path.t := ["home"; "u"; ".code_backups"]%string.
Definition EMERGENCY_BACKUP_DIR : Path.t := ["home"; "u"; ".code_emergency_backups"]%string.
Definition cwd : Path.t := ["home"; "u"; "proj"]%string.

(** 2024-01-01 12:00:00.000 UTC, then 5 ms per reading of the clock. *)
Definition ticks (n : nat) : Date.t := Date.mk (1704110400000 + 5 * Z.of_nat n) 0.
Definition ids (n : nat) : string := "op-" +:+ JS.String_of_number (Z.of_nat n).

Definition notes : Path.t := ["home"; "u"; "proj"; "notes.txt"]%string.
Definition proj : Path.t := ["home"; "u"; "proj"]%string.
Definition v1 : FS.bytes := [Byte.x76; Byte.x31].
Definition v2 : FS.bytes := [Byte.x76; Byte.x32].
Definition v3 : FS.bytes := [Byte.x76; Byte.x33].

Definition boot (f : FS.node) : World :=
  {| fs := f; operations := ∅; clock := ticks; clock_reads := 0;
     uuids := ids; uuid_draws := 0 |}.

Definition call (max_versions : Z) (host : string -> JS.number) (req : request)
    (w : World) : response * World :=
  CallTool BACKUP_DIR EMERGENCY_BACKUP_DIR max_versions cwd Glob.minimatch host req w.

(** The user's tree: one project with one file. *)
Definition disk0 : FS.node :=
  FS.Dir [("home", FS.Dir [("u", FS.Dir [("proj", FS.Dir [("notes.txt", FS.File v1)])])])]%string.

(** [notes.txt] is backed up, then edited. *)
Definition after_create (host : string -> JS.number) : World :=
  snd (call 10 host (backup_create (Some notes) None) (boot disk0)).

Definition edited (host : string -> JS.number) : World :=
  let w := after_create host in
  with_fs w (or_else (FS.writeFile (fs w) notes v2) (fs w)).

Definition stamp1 : string := "20240101-120000-000".

(** A host whose date parser rejects every string. *)
Definition no_host (s : string) : JS.number := JS.NaN.

(** The project directory is removed after the backup was taken. *)
Definition deleted : World :=
  let w := after_create no_host in
  with_fs w (or_else (FS.rmdir_r (fs w) proj) (fs w)).

(** A store that already holds two versions of [notes.txt], taken in
    2023, whose directory lists the newer one first. *)
Definition old_path (ts : string) : Path.t :=
  BACKUP_DIR ++ ["home"; "u"; "proj"; "notes.txt." +:+ ts]%string.

Definition old_meta (ts : string) : BackupMetadata :=
  {| original_path := notes; original_filename := "notes.txt"; timestamp := ts;
     created_at := 0; backup_path := old_path ts;
     relative_path := Path.relative cwd (old_path ts); agent_context := None |}.

(** The descriptor of the backup that [after_create] holds. *)
Definition created_entry : BackupMetadata :=
  {| original_path := notes; original_filename := "notes.txt"; timestamp := stamp1;
     created_at := 1704110400005; backup_path := old_path stamp1;
     relative_path := Path.relative cwd (old_path stamp1); agent_context := None |}.

Definition stampA : string := "20230101-090000-000".
Definition stampB : string := "20230601-090000-000".

Definition disk_two_versions : FS.node :=
  FS.Dir [("home", FS.Dir [("u", FS.Dir [
    ("proj", FS.Dir [("notes.txt", FS.File v3)]);
    (".code_backups", FS.Dir [("home", FS.Dir [("u", FS.Dir [("proj", FS.Dir [
       ("notes.txt." +:+ stampB, FS.File v2);
       ("notes.txt." +:+ stampB +:+ ".meta.json", FS.File (JSON.stringify (old_meta stampB)));
       ("notes.txt." +:+ stampA, FS.File v1);
       ("notes.txt." +:+ stampA +:+ ".meta.json", FS.File (JSON.stringify (old_meta stampA)))
    ])])])])
  ])])]%string.

(** A tree with a directory whose name matches [*.tmp]. *)
Definition tree_tmp : FS.node :=
  FS.Dir [("a.txt", FS.File v1);
          ("b.tmp", FS.File v2);
          ("cache.tmp", FS.Dir [("keep.txt", FS.File v3)])]%string.

End Scenario.

(** ** Definitions used to state the properties *)

(** A directory listing without the entries [copyFolderRecursive] skips,
    each remaining entry pruned by [keep]. *)
Definition pruneEntries (minimatch : string -> string -> bool)
    (includePattern excludePattern : option string) (keep : FS.node -> FS.node)
    : FS.items_t -> FS.items_t :=
  fix each (entries : FS.items_t) : FS.items_t :=
    match entries with
    | [] => []
    | (name, entry) :: rest =>
        if skipped minimatch name includePattern excludePattern then each rest
        else (name, keep entry) :: each rest
    end.

(** The source tree without every entry, file or directory, whose own
    name is excluded or not included, at every level. *)
Fixpoint prune (minimatch : string -> string -> bool)
    (includePattern excludePattern : option string) (n : FS.node) : FS.node :=
  match n with
  | FS.File data => FS.File data
  | FS.Dir entries =>
      FS.Dir (pruneEntries minimatch includePattern excludePattern
                (prune minimatch includePattern excludePattern) entries)
  end.

(** The [k] low decimal digits of [n], most significant first. *)
Fixpoint fixedw (k : nat) (n : Z) : string :=
  match k with
  | O => EmptyString
  | S k' => String (JS.digit_char (n / 10 ^ Z.of_nat k')) (fixedw k' (n mod 10 ^ Z.of_nat k'))
  end.

(** [P] holds of every number from 0 up to, not including, [n]. *)
Definition below (P : Z -> bool) (n : Z) : bool :=
  forallb P (List.map Z.of_nat (seq 0 (Z.to_nat n))).

(** Lexicographic comparison of two rows of numbers. *)
Fixpoint lex (a b : list Z) : comparison :=
  match a, b with
  | x :: a', y :: b' => match x ?= y with Eq => lex a' b' | c => c end
  | _, _ => Eq
  end.

(** What the local getters return at local time [tv], in the order the
    timestamp prints them. *)
Definition fields (tv : Z) : list Z :=
  [Date.YearFromTime tv; Date.MonthFromTime tv + 1; Date.DateFromTime tv;
   Date.HourFromTime tv; Date.MinFromTime tv; Date.SecFromTime tv; Date.msFromTime tv].

(** The operation a call registers and the world its tool starts in. *)
Definition new_operation (ty : string) (w : World) : Operation :=
  {| id := uuids w (uuid_draws w); type := ty; progress := 0;
     cancelled := false; status := "running" |}.

Definition registered (ty : string) (w : World) : World :=
  {| fs := fs w;
     operations := <[uuids w (uuid_draws w) := new_operation ty w]> (operations w);
     clock := clock w; clock_reads := clock_reads w;
     uuids := uuids w; uuid_draws := S (uuid_draws w) |}.

(** The operation [i] is in the table and has not been cancelled. *)
Definition live (i : string) (w : World) : Prop :=
  exists op, operations w !! i = Some op /\ cancelled op = false.

(** Copying [src] to a target that is absent or an empty directory sets
    the target to the pruned source and touches nothing else. *)
Definition copies_as_graft (minimatch : string -> string -> bool)
    (includePattern excludePattern : option string) (src : FS.node) : Prop :=
  forall sp tp w x,
    FS.lookup (fs w) tp = None \/ FS.lookup (fs w) tp = Some (FS.Dir []) ->
    FS.graft (fs w) tp (FS.Dir []) = Some x ->
    exists fs',
      copyTree minimatch src sp tp includePattern excludePattern w
      = (Return tt, with_fs w fs')
      /\ FS.graft (fs w) tp (prune minimatch includePattern excludePattern src) = Some fs'.

(** The last character of a string. *)
Fixpoint last_char (s : string) : option ascii :=
  match s with
  | EmptyString => None
  | String c EmptyString => Some c
  | String _ s' => last_char s'
  end.

(** The string ends with a decimal digit. *)
Definition is_digit_end (s : string) : bool :=
  match last_char s with Some c => Text.is_digit c | None => false end.

(** [f'] differs from [f] only at [root] and below it (and in the
    directories that lead to [root]). *)
Definition same_outside (root : Path.t) (f f' : FS.node) : Prop :=
  (forall p, Path.is_prefix root p = false -> FS.readFile f' p = FS.readFile f p)
  /\ (forall a, Path.is_prefix root a = false -> Path.is_prefix a root = false ->
              FS.lookup f' a = FS.lookup f a).

(** A run that leaves the operation table alone and the file system
    the same outside [root]. *)
Definition quiet (root : Path.t) (w w' : World) : Prop :=
  operations w' = operations w /\ same_outside root (fs w) (fs w').

(** Every run of [m] relates the world it starts in to the one it ends in. *)
Definition preserves {A} (R : World -> World -> Prop) (m : M A) : Prop :=
  forall w o w', m w = (o, w') -> R w w'.

(** The entry of [filePath] for [timestamp] is in the store: its
    descriptor holds [metadata], its payload holds [data], the walk of
    the store finds the descriptor, and no other descriptor of the store
    claims the same path and timestamp. *)
Definition entry_stored (BACKUP_DIR_NORMALIZED : Path.t) (filePath : Path.t)
    (timestamp : string) (data : FS.bytes) (metadata : BackupMetadata)
    (f : FS.node) : Prop :=
  let backupPath :=
    Path.join (getBackupDir BACKUP_DIR_NORMALIZED filePath)
              [getBackupFilename filePath timestamp] in
  let metadataPath := getBackupMetadataFilename backupPath in
  FS.readFile f metadataPath = Some (JSON.stringify metadata)
  /\ FS.readFile f backupPath = Some data
  /\ exists metadataFiles,
       findAllBackupMetadataFiles f BACKUP_DIR_NORMALIZED = Return metadataFiles
       /\ In metadataPath metadataFiles
       /\ forall p b,
            In p metadataFiles -> readBackupMetadata f p = Some b ->
            original_path b = filePath -> hasTimestamp timestamp b = true -> b = metadata.

(** Between two calls the file [F] was left alone or written over;
    nothing else changed. *)
Definition rewritten (F : Path.t) (f f' : FS.node) : Prop :=
  f' = f \/ exists data, FS.writeFile f F data = Some f'.

(** ** Further functions of the server *)

(** [mcp_backup_status]: the progress and the status the server would
    report for an operation, read off the operation table. *)
Definition mcp_backup_status (operationId : string)
    (operations : gmap string Operation) : Z * string :=
  if negb (JS.truthy operationId) then (0, "error"%string)
  else
    match operations !! operationId with
    | Some operation =>
        (progress operation,
         if cancelled operation then "cancelled"%string
         else if 100 <=? progress operation then "completed"%string
         else "in_progress"%string)
    | None => (0, "not_found"%string)
    end.

(** The test [/\.\d{8}-\d{6}-\d{3}$/] of [backup_list_all] on a file
    name: some tail of the name is a dot, eight digits, a dash, six
    digits, a dash and three digits. *)
Fixpoint digits_then (n : nat) (rest : string -> bool) (s : string) : bool :=
  match n with
  | O => rest s
  | S n' =>
      match s with
      | String c s' => Text.is_digit c && digits_then n' rest s'
      | EmptyString => false
      end
  end.

Definition char_then (c : ascii) (rest : string -> bool) (s : string) : bool :=
  match s with
  | String c' s' => Ascii.eqb c' c && rest s'
  | EmptyString => false
  end.

Definition at_end (s : string) : bool :=
  match s with EmptyString => true | String _ _ => false end.

Definition stamp_tail : string -> bool :=
  char_then "." (digits_then 8 (char_then "-" (digits_then 6
    (char_then "-" (digits_then 3 at_end))))).

Fixpoint isBackupFile (name : string) : bool :=
  stamp_tail name ||
  match name with
  | EmptyString => false
  | String _ name' => isBackupFile name'
  end.

Definition isMetadataFile (name : string) : bool := JS.endsWith name ".meta.json".

(** ** Definitions used to state further properties *)

(** The worlds a sequence of tool calls leads through. *)
Fixpoint CallTools (call : request -> World -> response * World)
    (reqs : list request) (w : World) : World :=
  match reqs with
  | [] => w
  | req :: rest => CallTools call rest (snd (call req w))
  end.

(** A relation between the worlds before and after a run, given by what
    may happen to the file system and to the operation table. *)
Definition both (Rf : FS.node -> FS.node -> Prop)
    (Ro : gmap string Operation -> gmap string Operation -> Prop)
    (w w' : World) : Prop :=
  Rf (fs w) (fs w') /\ Ro (operations w) (operations w').

(** Every path [touch] leaves out reads the same in [f'] as in [f]: no
    such file was written, created or removed. *)
Definition unchanged_but (touch : Path.t -> bool) (f f' : FS.node) : Prop :=
  forall p, touch p = false -> FS.readFile f' p = FS.readFile f p.

Definition any_files (f f' : FS.node) : Prop := True.
Definition same_files (f f' : FS.node) : Prop := f' = f.
Definition any_table (o o' : gmap string Operation) : Prop := True.
Definition same_table (o o' : gmap string Operation) : Prop := o' = o.

(** The operation with another status. *)
Definition with_status (op : Operation) (s : string) : Operation :=
  {| id := id op; type := type op; progress := progress op;
     cancelled := cancelled op; status := s |}.

(** The operation marked cancelled. *)
Definition marked_cancelled (op : Operation) : Operation :=
  {| id := id op; type := type op; progress := progress op;
     cancelled := true; status := status op |}.

(** The table [o'] is [o] except, at most, for the status of the
    operation [i]. *)
Definition only_status_at (i : option string)
    (o o' : gmap string Operation) : Prop :=
  forall j,
    o' !! j = o !! j
    \/ (i = Some j /\ exists op s, o !! j = Some op /\ o' !! j = Some (with_status op s)).

(** [a] is no older than [b], by timestamp. *)
Definition not_older (a b : BackupMetadata) : Prop :=
  String.compare (timestamp a) (timestamp b) <> Lt.

(** * Properties *)


(** ** Sanity checks of the platform models *)

Example ts1 : generateTimestamp (Date.mk 1704110400123 0) = "20240101-120000-123"%string.
Proof. vm_compute. reflexivity. Qed.
Example ts2 : generateTimestamp (Date.mk 1709251199999 0) = "20240229-235959-999"%string.
Proof. vm_compute. reflexivity. Qed.
Example ts3 : generateTimestamp (Date.mk 951868800000 3600000) = "20000301-010000-000"%string.
Proof. vm_compute. reflexivity. Qed.
Example ts4 : generateTimestamp (Date.mk (-1) 0) = "19691231-235959-999"%string.
Proof. vm_compute. reflexivity. Qed.
Example ts5 : generateTimestamp (Date.mk 253402300800000 0) = "100000101-000000-000"%string.
Proof. vm_compute. reflexivity. Qed.
Example stamp_ok : Text.compact_stamp "20240101-120000-123" = true.
Proof. reflexivity. Qed.
Example stamp_iso : Text.compact_stamp "2024-01-01" = false.
Proof. reflexivity. Qed.

(** ** The file system model *)

Section FSFacts.

Import FS.

Lemma node_induction (P : node -> Prop) :
  (forall d, P (File d)) ->
  (forall items, Forall (fun kc => P (snd kc)) items -> P (Dir items)) ->
  forall n, P n.
Proof.
  intros HF HD. fix IH 1. intros [d|items]; [apply HF|].
  apply HD. induction items as [|[k c] rest IHr]; constructor; [apply IH | apply IHr].
Qed.

Lemma assoc_replace_same s c items :
  assoc s (replace s c items) = match assoc s items with Some _ => Some c | None => None end.
Proof.
  induction items as [|[k c0] rest IH]; simpl; [reflexivity|].
  destruct (String.eqb s k) eqn:E; simpl; rewrite E; auto.
Qed.

Lemma assoc_replace_other s t c items :
  s <> t -> assoc t (replace s c items) = assoc t items.
Proof.
  intros N. induction items as [|[k c0] rest IH]; simpl; [reflexivity|].
  destruct (String.eqb s k) eqn:E; simpl.
  - apply String.eqb_eq in E. subst k.
    destruct (String.eqb t s) eqn:E'; [apply String.eqb_eq in E'; congruence | reflexivity].
  - destruct (String.eqb t k); auto.
Qed.

Lemma assoc_app t items more :
  assoc t (items ++ more)
  = match assoc t items with Some c => Some c | None => assoc t more end.
Proof.
  induction items as [|[k c0] rest IH]; simpl; [reflexivity|].
  destruct (String.eqb t k); auto.
Qed.

Lemma replace_id s c items : assoc s items = Some c -> replace s c items = items.
Proof.
  induction items as [|[k c0] rest IH]; simpl; [reflexivity|].
  destruct (String.eqb s k) eqn:E.
  - intros [= ->]. reflexivity.
  - intros H. rewrite IH; auto.
Qed.

Lemma assoc_remove_other s t items :
  s <> t -> assoc t (remove s items) = assoc t items.
Proof.
  intros N. induction items as [|[k c0] rest IH]; simpl; [reflexivity|].
  destruct (String.eqb s k) eqn:E; simpl.
  - apply String.eqb_eq in E. subst k.
    destruct (String.eqb t s) eqn:E'; [apply String.eqb_eq in E'; congruence | reflexivity].
  - destruct (String.eqb t k); auto.
Qed.

Lemma lookup_app fs a b :
  lookup fs (a ++ b) = match lookup fs a with Some n => lookup n b | None => None end.
Proof.
  revert fs. induction a as [|s a IH]; intros fs; simpl; [reflexivity|].
  destruct fs as [d|items]; [reflexivity|].
  destruct (assoc s items); auto.
Qed.

(** *** [writeFile] *)

Lemma readFile_writeFile_same fs p d fs' :
  writeFile fs p d = Some fs' -> readFile fs' p = Some d.
Proof.
  unfold readFile. revert fs fs'. induction p as [|s p IH]; intros fs fs' H.
  - destruct fs; discriminate.
  - destruct fs as [d0|items]; [discriminate|].
    destruct p as [|s' p'].
    + simpl in H. destruct (assoc s items) as [[?|?]|] eqn:E; inversion H; subst; simpl.
      * rewrite assoc_replace_same, E. reflexivity.
      * rewrite assoc_app, E. simpl. rewrite String.eqb_refl. reflexivity.
    + change (writeFile (Dir items) (s :: s' :: p') d)
        with (match assoc s items with
              | Some c => match writeFile c (s' :: p') d with
                          | Some c' => Some (Dir (replace s c' items))
                          | None => None end
              | None => None end) in H.
      destruct (assoc s items) as [c|] eqn:E; [|discriminate].
      destruct (writeFile c (s' :: p') d) as [c'|] eqn:W; [|discriminate].
      inversion H; subst. simpl lookup at 1.
      rewrite assoc_replace_same, E. apply (IH c c' W).
Qed.



Lemma writeFile_cons items s p d :
  writeFile (Dir items) (s :: p) d
  = match p with
    | [] =>
        match assoc s items with
        | Some (Dir _) => None
        | Some (File _) => Some (Dir (replace s (File d) items))
        | None => Some (Dir (items ++ [(s, File d)]))
        end
    | _ :: _ =>
        match assoc s items with
        | Some c =>
            match writeFile c p d with
            | Some c' => Some (Dir (replace s c' items))
            | None => None
            end
        | None => None
        end
    end.
Proof. destruct p; reflexivity. Qed.

Lemma writeFile_deeper items s p d :
  p <> [] ->
  writeFile (Dir items) (s :: p) d
  = match assoc s items with
    | Some c =>
        match writeFile c p d with
        | Some c' => Some (Dir (replace s c' items))
        | None => None
        end
    | None => None
    end.
Proof. destruct p; [congruence | reflexivity]. Qed.

Lemma writeFile_nil fs d : writeFile fs [] d = None.
Proof. destruct fs; reflexivity. Qed.

Lemma writeFile_File d0 p d : writeFile (File d0) p d = None.
Proof. destruct p as [|? [|? ?]]; reflexivity. Qed.

(** A write leaves every other regular file as it was. *)
Lemma readFile_writeFile_other fs p d fs' q :
  writeFile fs p d = Some fs' -> q <> p -> readFile fs' q = readFile fs q.
Proof.
  unfold readFile. revert fs fs' q. induction p as [|s p IH]; intros fs fs' q H N.
  - rewrite writeFile_nil in H. discriminate.
  - destruct fs as [d0|items]; [discriminate|].
    rewrite writeFile_cons in H.
    destruct q as [|t q]; [destruct p; destruct (assoc s items) as [[?|?]|]; try discriminate;
                            try (destruct (writeFile _ _ _); try discriminate);
                            inversion H; reflexivity|].
    destruct p as [|s' p'].
    + destruct (assoc s items) as [[?|?]|] eqn:E; inversion H; subst; simpl.
      * destruct (String.eqb_spec s t) as [->|Ne].
        -- rewrite assoc_replace_same, E. destruct q; [congruence|reflexivity].
        -- rewrite assoc_replace_other by assumption. reflexivity.
      * rewrite assoc_app. destruct (assoc t items) eqn:Et; [reflexivity|].
        simpl. destruct (String.eqb_spec t s) as [->|Ne]; [|reflexivity].
        destruct q; [congruence|reflexivity].
    + destruct (assoc s items) as [c|] eqn:E; [|discriminate].
      destruct (writeFile c (s' :: p') d) as [c'|] eqn:W; [|discriminate].
      inversion H; subst. simpl.
      destruct (String.eqb_spec s t) as [->|Ne].
      * rewrite assoc_replace_same, E. apply (IH c c' q W). congruence.
      * rewrite assoc_replace_other by assumption. reflexivity.
Qed.

(** A write changes nothing at a path that is neither above nor below
    the written one. *)
Lemma lookup_writeFile_apart fs p d fs' a :
  writeFile fs p d = Some fs' ->
  Path.is_prefix a p = false -> Path.is_prefix p a = false ->
  lookup fs' a = lookup fs a.
Proof.
  revert fs fs' a. induction p as [|s p IH]; intros fs fs' a H Na Np.
  - rewrite writeFile_nil in H. discriminate.
  - destruct fs as [d0|items]; [discriminate|].
    rewrite writeFile_cons in H.
    destruct a as [|t a]; [discriminate|].
    simpl in Na, Np.
    destruct (String.eqb_spec t s) as [->|Ne].
    + rewrite String.eqb_refl in Np. simpl in Na, Np.
      destruct p as [|s' p']; [destruct a; discriminate|].
      destruct (assoc s items) as [c|] eqn:E; [|discriminate].
      destruct (writeFile c (s' :: p') d) as [c'|] eqn:W; [|discriminate].
      inversion H; subst. simpl. rewrite assoc_replace_same, E.
      apply (IH c c' a W); assumption.
    + assert (Hs : s <> t) by congruence.
      destruct p as [|s' p'].
      * destruct (assoc s items) as [[?|?]|] eqn:E; inversion H; subst; simpl.
        -- rewrite assoc_replace_other by assumption. reflexivity.
        -- rewrite assoc_app. destruct (assoc t items); [reflexivity|].
           simpl. destruct (String.eqb_spec t s); [congruence|reflexivity].
      * destruct (assoc s items) as [c|] eqn:E; [|discriminate].
        destruct (writeFile c (s' :: p') d) as [c'|] eqn:W; [|discriminate].
        inversion H; subst. simpl. rewrite assoc_replace_other by assumption. reflexivity.
Qed.

(** A write below an existing directory is a write in that directory's
    subtree. *)
Lemma writeFile_under fs a r d fs' n :
  lookup fs a = Some n -> r <> [] ->
  writeFile fs (a ++ r) d = Some fs' ->
  exists n', writeFile n r d = Some n' /\ lookup fs' a = Some n'.
Proof.
  revert fs fs' n. induction a as [|s a IH]; intros fs fs' n L Nr H.
  - simpl in *. inversion L; subst. eauto.
  - destruct fs as [d0|items]; [discriminate|].
    simpl in L. destruct (assoc s items) as [c|] eqn:E; [|discriminate].
    change ((s :: a) ++ r) with (s :: (a ++ r)) in H.
    rewrite writeFile_deeper in H by (destruct a; [exact Nr | discriminate]).
    rewrite E in H.
    destruct (writeFile c (a ++ r) d) as [c'|] eqn:W; [|discriminate].
    inversion H; subst.
    destruct (IH c c' n L Nr W) as (n' & Wn & Ln).
    exists n'. split; [assumption|]. simpl. rewrite assoc_replace_same, E. assumption.
Qed.

(** Overwriting an existing regular file succeeds. *)
Lemma writeFile_existing fs p d0 d :
  p <> [] -> readFile fs p = Some d0 -> exists fs', writeFile fs p d = Some fs'.
Proof.
  unfold readFile. revert fs. induction p as [|s p IH]; intros fs Np H; [congruence|].
  destruct fs as [?|items]; [discriminate|].
  simpl in H. destruct (assoc s items) as [c|] eqn:E; [|discriminate].
  rewrite writeFile_cons, E. destruct p as [|s' p'].
  - simpl in H. destruct c; [eauto | discriminate].
  - destruct (IH c ltac:(discriminate) H) as [c' W]. rewrite W. eauto.
Qed.



(** *** [mkdir_p] *)

Lemma lookup_fresh_dirs d a n :
  lookup (fresh_dirs d) a = Some n -> Path.is_prefix a d = true.
Proof.
  revert a n. induction d as [|s d IH]; intros [|t a] n H; simpl in *; try reflexivity.
  - discriminate.
  - destruct (String.eqb t s); [|discriminate]. simpl. eapply IH; eassumption.
Qed.

Lemma readFile_fresh_dirs d a : readFile (fresh_dirs d) a = None.
Proof.
  unfold readFile. revert a. induction d as [|s d IH]; intros [|t a]; simpl; try reflexivity.
  destruct (String.eqb t s); [apply IH | reflexivity].
Qed.

Lemma mkdir_p_Dir fs d fs' : mkdir_p fs d = Some fs' -> exists items, fs = Dir items.
Proof. destruct fs; simpl; [destruct d; discriminate | eauto]. Qed.

(** Creating directories changes no regular file. *)
Lemma readFile_mkdir_p fs d fs' q :
  mkdir_p fs d = Some fs' -> readFile fs' q = readFile fs q.
Proof.
  revert fs fs' q. induction d as [|s d IH]; intros fs fs' q H.
  - destruct fs; simpl in H; [discriminate|]. inversion H; reflexivity.
  - destruct fs as [?|items]; [discriminate|]. simpl in H.
    destruct (assoc s items) as [c|] eqn:E.
    + destruct (mkdir_p c d) as [c'|] eqn:M; [|discriminate]. inversion H; subst.
      destruct q as [|t q]; [reflexivity|]. unfold readFile. simpl.
      destruct (String.eqb_spec s t) as [->|Ne].
      * rewrite assoc_replace_same, E. apply (IH c c' q M).
      * rewrite assoc_replace_other by assumption. reflexivity.
    + inversion H; subst. destruct q as [|t q]; [reflexivity|]. unfold readFile. simpl.
      rewrite assoc_app. destruct (assoc t items); [reflexivity|]. simpl.
      destruct (String.eqb t s); [apply readFile_fresh_dirs | reflexivity].
Qed.

(** Creating directories changes nothing at a path that is not on the
    way to the created one. *)
Lemma lookup_mkdir_p_off fs d fs' a :
  mkdir_p fs d = Some fs' -> Path.is_prefix a d = false -> lookup fs' a = lookup fs a.
Proof.
  revert fs fs' a. induction d as [|s d IH]; intros fs fs' a H N.
  - destruct fs; simpl in H; [discriminate|]. inversion H; reflexivity.
  - destruct fs as [?|items]; [discriminate|]. simpl in H.
    destruct a as [|t a]; [discriminate|]. simpl in N.
    destruct (assoc s items) as [c|] eqn:E.
    + destruct (mkdir_p c d) as [c'|] eqn:M; [|discriminate]. inversion H; subst. simpl.
      destruct (String.eqb_spec t s) as [->|Ne].
      * rewrite assoc_replace_same, E. apply (IH c c' a M). exact N.
      * rewrite assoc_replace_other by congruence. reflexivity.
    + inversion H; subst. simpl. rewrite assoc_app.
      destruct (assoc t items) eqn:Et; [reflexivity|]. simpl.
      destruct (String.eqb_spec t s) as [->|Ne]; [|reflexivity].
      simpl in N. destruct (lookup (fresh_dirs d) a) eqn:L; [|reflexivity].
      apply lookup_fresh_dirs in L. congruence.
Qed.

(** Creating a directory that is already there changes nothing. *)
Lemma mkdir_p_noop fs d items :
  lookup fs d = Some (Dir items) -> mkdir_p fs d = Some fs.
Proof.
  revert fs. induction d as [|s d IH]; intros fs H.
  - simpl in H. inversion H; subst. reflexivity.
  - destruct fs as [?|its]; [discriminate|]. simpl in *.
    destruct (assoc s its) as [c|] eqn:E; [|discriminate].
    rewrite (IH c H), (replace_id _ _ _ E). reflexivity.
Qed.

Lemma lookup_fresh_dirs_self d : exists items, lookup (fresh_dirs d) d = Some (Dir items).
Proof.
  induction d as [|s d IH]; simpl; [eauto|]. rewrite String.eqb_refl. exact IH.
Qed.

Lemma mkdir_p_isDir fs d fs' :
  mkdir_p fs d = Some fs' -> exists items, lookup fs' d = Some (Dir items).
Proof.
  revert fs fs'. induction d as [|s d IH]; intros fs fs' H.
  - destruct fs; simpl in H; [discriminate|]. inversion H; subst. simpl. eauto.
  - destruct fs as [?|items]; [discriminate|]. simpl in H.
    destruct (assoc s items) as [c|] eqn:E.
    + destruct (mkdir_p c d) as [c'|] eqn:M; [|discriminate]. inversion H; subst. simpl.
      rewrite assoc_replace_same, E. eapply IH; eassumption.
    + inversion H; subst. simpl. rewrite assoc_app, E. simpl. rewrite String.eqb_refl.
      apply lookup_fresh_dirs_self.
Qed.

(** *** Paths *)

Lemma is_prefix_app a b : Path.is_prefix a (a ++ b) = true.
Proof. induction a; simpl; [reflexivity|]. rewrite String.eqb_refl. assumption. Qed.

Lemma is_prefix_spec a b : Path.is_prefix a b = true -> exists r, b = a ++ r.
Proof.
  revert b. induction a as [|x a IH]; intros b H; [eauto|].
  destruct b as [|y b]; [discriminate|]. simpl in H.
  apply andb_true_iff in H as [E H]. apply String.eqb_eq in E. subst y.
  destruct (IH b H) as [r ->]. eauto.
Qed.

Lemma is_prefix_trans a b c :
  Path.is_prefix a b = true -> Path.is_prefix b c = true -> Path.is_prefix a c = true.
Proof.
  intros H1 H2. apply is_prefix_spec in H1 as [r ->]. apply is_prefix_spec in H2 as [r' ->].
  rewrite <- app_assoc. apply is_prefix_app.
Qed.

(** Two paths with a common extension are comparable. *)
Lemma is_prefix_common a b c :
  Path.is_prefix a c = true -> Path.is_prefix b c = true ->
  Path.is_prefix a b = true \/ Path.is_prefix b a = true.
Proof.
  revert b c. induction a as [|x a IH]; intros b c Ha Hb; [left; reflexivity|].
  destruct b as [|y b]; [right; reflexivity|].
  destruct c as [|z c]; [discriminate|]. simpl in *.
  apply andb_true_iff in Ha as [E1 Ha]. apply andb_true_iff in Hb as [E2 Hb].
  apply String.eqb_eq in E1, E2. subst.
  rewrite String.eqb_refl. simpl. eapply IH; eassumption.
Qed.

Lemma is_prefix_length a b : Path.is_prefix a b = true -> (List.length a <= List.length b)%nat.
Proof. intros H. apply is_prefix_spec in H as [r ->]. rewrite length_app. lia. Qed.

End FSFacts.

(** *** Grafting a subtree *)

Section Graft.
Import FS.

Lemma replace_replace s c c' items :
  replace s c' (replace s c items) = replace s c' items.
Proof.
  induction items as [|[k c0] rest IH]; simpl; [reflexivity|].
  destruct (String.eqb s k) eqn:E; simpl; rewrite E; [reflexivity|]. rewrite IH. reflexivity.
Qed.

Lemma replace_app_new s c c' items :
  assoc s items = None ->
  replace s c' (items ++ [(s, c)]) = items ++ [(s, c')].
Proof.
  induction items as [|[k c0] rest IH]; simpl; intros H.
  - rewrite String.eqb_refl. reflexivity.
  - destruct (String.eqb s k) eqn:E; [discriminate|]. rewrite IH by assumption. reflexivity.
Qed.

Lemma lookup_graft fs p n fs' : graft fs p n = Some fs' -> lookup fs' p = Some n.
Proof.
  revert fs fs'. induction p as [|s p IH]; intros fs fs' H.
  - simpl in H. inversion H; reflexivity.
  - destruct fs as [?|items]; [discriminate|]. simpl in H.
    destruct (assoc s items) as [c|] eqn:E.
    + destruct (graft c p n) as [c'|] eqn:G; [|discriminate]. inversion H; subst. simpl.
      rewrite assoc_replace_same, E. eapply IH; eassumption.
    + destruct p; [|discriminate]. inversion H; subst. simpl.
      rewrite assoc_app, E. simpl. rewrite String.eqb_refl. reflexivity.
Qed.

Lemma graft_same fs p n : lookup fs p = Some n -> graft fs p n = Some fs.
Proof.
  revert fs. induction p as [|s p IH]; intros fs H.
  - simpl in *. congruence.
  - destruct fs as [?|items]; [discriminate|]. simpl in *.
    destruct (assoc s items) as [c|] eqn:E; [|discriminate].
    rewrite (IH c H), (replace_id _ _ _ E). reflexivity.
Qed.

(** Grafting below a directory that was itself grafted. *)
Lemma graft_extend base tp acc st name sub :
  graft base tp (Dir acc) = Some st -> assoc name acc = None ->
  graft st (tp ++ [name]) sub = graft base tp (Dir (acc ++ [(name, sub)])).
Proof.
  revert base st. induction tp as [|s tp IH]; intros base st H Hn.
  - simpl in H. inversion H; subst. simpl. rewrite Hn. reflexivity.
  - destruct base as [?|items]; [discriminate|]. simpl in H.
    destruct (assoc s items) as [c|] eqn:E.
    + destruct (graft c tp (Dir acc)) as [c'|] eqn:G; [|discriminate]. inversion H; subst.
      simpl. rewrite assoc_replace_same, !E.
      rewrite (IH c c' G Hn).
      destruct (graft c tp (Dir (acc ++ [(name, sub)]))); [|reflexivity].
      rewrite replace_replace. reflexivity.
    + destruct tp; [|discriminate]. inversion H; subst. simpl.
      rewrite assoc_app, !E. simpl. rewrite String.eqb_refl, Hn.
      rewrite replace_app_new by assumption. reflexivity.
Qed.

Lemma graft_any fs p a b x : graft fs p a = Some x -> exists y, graft fs p b = Some y.
Proof.
  revert fs x. induction p as [|s p IH]; intros fs x H.
  - simpl. eauto.
  - destruct fs as [?|items]; [discriminate|]. simpl in *.
    destruct (assoc s items) as [c|] eqn:E.
    + destruct (graft c p a) as [c'|] eqn:G; [|discriminate].
      destruct (IH c c' G) as [y ->]. eauto.
    + destruct p; [eauto | discriminate].
Qed.

Lemma mkdir_p_graft fs tp fs0 :
  lookup fs tp = None -> graft fs tp (Dir []) = Some fs0 -> mkdir_p fs tp = Some fs0.
Proof.
  revert fs fs0. induction tp as [|s tp IH]; intros fs fs0 L G.
  - discriminate.
  - destruct fs as [?|items]; [discriminate|]. simpl in *.
    destruct (assoc s items) as [c|] eqn:E.
    + destruct (graft c tp (Dir [])) as [c'|] eqn:G'; [|discriminate].
      rewrite (IH c c' L G'). assumption.
    + destruct tp; [|discriminate]. exact G.
Qed.

Lemma writeFile_graft st p d st1 :
  lookup st p = None -> graft st p (File d) = Some st1 -> writeFile st p d = Some st1.
Proof.
  revert st st1. induction p as [|s p IH]; intros st st1 L G.
  - discriminate.
  - destruct st as [?|items]; [discriminate|]. simpl in L, G. rewrite writeFile_cons.
    destruct (assoc s items) as [c|] eqn:E.
    + destruct (graft c p (File d)) as [c'|] eqn:G'; [|discriminate].
      destruct p as [|s' p'].
      * simpl in L. discriminate.
      * rewrite (IH c c' L G'). assumption.
    + destruct p; [exact G | discriminate].
Qed.

End Graft.

(** *** More about directories *)

Section More.
Import FS.

Lemma lookup_File_below d x : x <> [] -> lookup (File d) x = None.
Proof. destruct x; [congruence | reflexivity]. Qed.

Lemma lookup_fresh_dirs_app a r : lookup (fresh_dirs (a ++ r)) a = Some (fresh_dirs r).
Proof. induction a as [|s a IH]; simpl; [reflexivity|]. rewrite String.eqb_refl. exact IH. Qed.

Lemma mkdir_p_under fs a r fs' n :
  lookup fs a = Some n -> mkdir_p fs (a ++ r) = Some fs' ->
  exists n', mkdir_p n r = Some n' /\ lookup fs' a = Some n'.
Proof.
  revert fs fs' n. induction a as [|s a IH]; intros fs fs' n L M.
  - simpl in *. inversion L; subst. eauto.
  - destruct fs as [?|items]; [discriminate|]. simpl in L, M.
    destruct (assoc s items) as [c|] eqn:E; [|discriminate].
    destruct (mkdir_p c (a ++ r)) as [c'|] eqn:Mc; [|discriminate]. inversion M; subst.
    destruct (IH c c' n L Mc) as (n' & Mn & Ln).
    exists n'. split; [exact Mn|]. simpl. rewrite assoc_replace_same, E. exact Ln.
Qed.

Lemma mkdir_p_created fs a r fs' :
  lookup fs a = None -> mkdir_p fs (a ++ r) = Some fs' -> lookup fs' a = Some (fresh_dirs r).
Proof.
  revert fs fs'. induction a as [|s a IH]; intros fs fs' L M; [discriminate|].
  destruct fs as [?|items]; [discriminate|]. simpl in L, M.
  destruct (assoc s items) as [c|] eqn:E.
  - destruct (mkdir_p c (a ++ r)) as [c'|] eqn:Mc; [|discriminate]. inversion M; subst.
    simpl. rewrite assoc_replace_same, E. exact (IH c c' L Mc).
  - inversion M; subst. simpl. rewrite assoc_app, E. simpl. rewrite String.eqb_refl.
    apply lookup_fresh_dirs_app.
Qed.

Lemma parent_of_existing fs F n :
  lookup fs F = Some n -> F <> [] ->
  exists items, lookup fs (Path.dirname F) = Some (Dir items).
Proof.
  intros L N. destruct (exists_last N) as (l & x & ->).
  unfold Path.dirname. rewrite removelast_last. rewrite lookup_app in L.
  destruct (lookup fs l) as [[?|items]|]; [discriminate | eauto | discriminate].
Qed.

Lemma writeFile_is_Dir n r d n' : writeFile n r d = Some n' -> exists items, n' = Dir items.
Proof.
  destruct n as [?|items]; [rewrite writeFile_File; discriminate|].
  destruct r as [|s r]; [discriminate|]. rewrite writeFile_cons.
  destruct r; destruct (assoc s items) as [[?|?]|]; try discriminate;
    try (destruct (writeFile _ _ _); try discriminate); intros H; inversion H; eauto.
Qed.

End More.

(** *** The walk for descriptors *)

Section Scan.
Import FS.

Abbreviation among := (metadataFilesAmong metadataFilesIn).

Lemma among_app dir (a b : items_t) : among dir (a ++ b) = among dir a ++ among dir b.
Proof.
  induction a as [|[k c] rest IH]; [reflexivity|]. simpl.
  destruct c; [destruct (JS.endsWith k ".meta.json")|]; rewrite IH; simpl;
    rewrite ?app_assoc; reflexivity.
Qed.

Lemma metadataFilesIn_fresh r dir : metadataFilesIn (fresh_dirs r) dir = [].
Proof.
  revert dir. induction r as [|s r IH]; intros dir; [reflexivity|].
  simpl. pose proof (IH (Path.join dir [s])) as H.
  destruct (fresh_dirs r) eqn:F; [destruct r; discriminate|].
  rewrite H. reflexivity.
Qed.

Lemma mkdir_p_keeps_Dir c r c' items : mkdir_p c r = Some c' -> c = Dir items ->
  exists items', c' = Dir items'.
Proof.
  intros M ->. destruct r as [|s r]; simpl in M.
  - inversion M; eauto.
  - destruct (assoc s items); [destruct (mkdir_p _ _); [|discriminate]|]; inversion M; eauto.
Qed.

(** Replacing a subdirectory by one with the same descriptors leaves
    the walk as it was. *)
Lemma among_replace_same dir s c c' (items : items_t) ci ci' :
  c = Dir ci -> c' = Dir ci' ->
  assoc s items = Some c ->
  metadataFilesIn c' (dir ++ [s]) = metadataFilesIn c (dir ++ [s]) ->
  among dir (replace s c' items) = among dir items.
Proof.
  intros -> -> HA HW. induction items as [|[k c0] rest IH]; [reflexivity|].
  simpl in HA |- *. destruct (String.eqb_spec s k) as [->|Ne].
  - inversion HA; subst. simpl in HW |- *. unfold Path.join. rewrite HW. reflexivity.
  - simpl. rewrite (IH HA). reflexivity.
Qed.

Lemma mkdir_p_same_walk r : forall n n' dir,
  mkdir_p n r = Some n' -> metadataFilesIn n' dir = metadataFilesIn n dir.
Proof.
  induction r as [|s r IH]; intros n n' dir M.
  - destruct n; simpl in M; [discriminate|]. inversion M; reflexivity.
  - destruct n as [?|items]; [discriminate|]. simpl in M.
    destruct (assoc s items) as [c|] eqn:E.
    + destruct (mkdir_p c r) as [c'|] eqn:Mc; [|discriminate]. inversion M; subst.
      destruct (mkdir_p_Dir _ _ _ Mc) as [ci ->].
      destruct (mkdir_p_keeps_Dir _ _ _ _ Mc eq_refl) as [ci' ->].
      simpl. eapply among_replace_same; eauto.
    + inversion M; subst. simpl. rewrite among_app. simpl.
      destruct (fresh_dirs r) eqn:F; [destruct r; discriminate|].
      rewrite <- F, metadataFilesIn_fresh. simpl. apply app_nil_r.
Qed.

(** Every path the walk reports lies below the directory walked and is
    named [*.meta.json]. *)
Lemma walk_names n : forall dir p,
  In p (metadataFilesIn n dir) ->
  exists r, p = dir ++ r /\ r <> [] /\ JS.endsWith (List.last r EmptyString) ".meta.json" = true.
Proof.
  induction n as [d|items IH] using node_induction; intros dir p H; [destruct H|].
  simpl in H. induction items as [|[k c] rest IHr]; [destruct H|].
  inversion IH as [|? ? Hc Hrest]; subst. simpl in H.
  destruct c as [d|ci].
  - destruct (JS.endsWith k ".meta.json") eqn:E.
    + destruct H as [<-|H]; [|exact (IHr Hrest H)].
      exists [k]. repeat split; [discriminate | exact E].
    + exact (IHr Hrest H).
  - apply in_app_or in H as [H|H]; [|exact (IHr Hrest H)].
    destruct (Hc _ _ H) as (r & -> & Nr & Hr).
    exists (k :: r). unfold Path.join. rewrite <- app_assoc. repeat split; [discriminate|].
    destruct r; [congruence | exact Hr].
Qed.

Lemma among_contains dir s c ci (items : items_t) p :
  assoc s items = Some c -> c = Dir ci ->
  In p (metadataFilesIn c (dir ++ [s])) -> In p (among dir items).
Proof.
  intros HA -> H. induction items as [|[k c0] rest IH]; [discriminate|].
  simpl in HA |- *. destruct (String.eqb_spec s k) as [->|Ne].
  - inversion HA; subst. apply in_or_app. left. exact H.
  - destruct c0; [destruct (JS.endsWith k ".meta.json"); [right|] | apply in_or_app; right];
      exact (IH HA).
Qed.

Lemma among_file dir s d (items : items_t) :
  assoc s items = Some (File d) -> JS.endsWith s ".meta.json" = true ->
  In (dir ++ [s]) (among dir items).
Proof.
  intros HA E. induction items as [|[k c0] rest IH]; [discriminate|].
  simpl in HA |- *. destruct (String.eqb_spec s k) as [->|Ne].
  - inversion HA; subst. rewrite E. left. reflexivity.
  - destruct c0; [destruct (JS.endsWith k ".meta.json"); [right|] | apply in_or_app; right];
      exact (IH HA).
Qed.

(** The walk reports every regular file named [*.meta.json]. *)
Lemma walk_complete r : forall n dir d,
  lookup n r = Some (File d) -> r <> [] ->
  JS.endsWith (List.last r EmptyString) ".meta.json" = true ->
  In (dir ++ r) (metadataFilesIn n dir).
Proof.
  induction r as [|s r IH]; intros n dir d L N E; [congruence|].
  destruct n as [?|items]; [discriminate|]. simpl in L.
  destruct (assoc s items) as [c|] eqn:HA; [|discriminate].
  destruct r as [|s' r'].
  - simpl in L. inversion L; subst. simpl in E. simpl. eapply among_file; eauto.
  - destruct c as [?|ci]; [discriminate|].
    simpl. eapply among_contains; [exact HA | reflexivity |].
    replace (dir ++ s :: s' :: r') with ((dir ++ [s]) ++ s' :: r')
      by (rewrite <- app_assoc; reflexivity).
    eapply IH; [exact L | discriminate | exact E].
Qed.

Lemma among_cons dir x (rest : items_t) :
  among dir (x :: rest) = among dir [x] ++ among dir rest.
Proof. exact (among_app dir [x] rest). Qed.

Lemma among_replace_in dir s c' (items : items_t) p :
  In p (among dir (replace s c' items)) ->
  In p (among dir items) \/ In p (among dir [(s, c')]).
Proof.
  induction items as [|[k c0] rest IH]; [intros []|].
  cbn [replace]. destruct (String.eqb_spec s k) as [->|Ne].
  - rewrite among_cons, (among_cons dir (k, c0) rest). intros H.
    apply in_app_or in H as [H|H]; [right; exact H | left; apply in_or_app; right; exact H].
  - rewrite among_cons, (among_cons dir (k, c0) rest). intros H.
    apply in_app_or in H as [H|H]; [left; apply in_or_app; left; exact H|].
    destruct (IH H) as [A|B]; [left; apply in_or_app; right; exact A | right; exact B].
Qed.

(** A write adds at most the written path to what the walk reports. *)
Lemma writeFile_walk r : forall n n' d dir p,
  writeFile n r d = Some n' ->
  In p (metadataFilesIn n' dir) -> In p (metadataFilesIn n dir) \/ p = dir ++ r.
Proof.
  induction r as [|s r IH]; intros n n' d dir p W H.
  - rewrite writeFile_nil in W. discriminate.
  - destruct n as [?|items]; [rewrite writeFile_File in W; discriminate|].
    rewrite writeFile_cons in W. destruct r as [|s' r'].
    + destruct (assoc s items) as [[?|?]|] eqn:HA; inversion W; subst; simpl in H |- *.
      * apply among_replace_in in H as [H|H]; [left; exact H|].
        simpl in H. destruct (JS.endsWith s ".meta.json"); [|destruct H].
        destruct H as [<-|[]]. right. reflexivity.
      * rewrite among_app in H. apply in_app_or in H as [H|H]; [left; exact H|].
        simpl in H. destruct (JS.endsWith s ".meta.json"); [|destruct H].
        destruct H as [<-|[]]. right. reflexivity.
    + destruct (assoc s items) as [c|] eqn:HA; [|discriminate].
      destruct (writeFile c (s' :: r') d) as [c'|] eqn:Wc; [|discriminate].
      inversion W; subst. simpl in H |- *.
      destruct c as [?|ci]; [rewrite writeFile_File in Wc; discriminate|].
      destruct (writeFile_is_Dir _ _ _ _ Wc) as [ci' ->].
      apply among_replace_in in H as [H|H]; [left; exact H|].
      simpl in H. rewrite app_nil_r in H.
      destruct (IH _ _ _ _ _ Wc H) as [A|B].
      * left. eapply among_contains; eauto.
      * right. rewrite B. unfold Path.join. rewrite <- app_assoc. reflexivity.
Qed.

End Scan.

(** ** Listing and restoring paths that are not there *)

Section Handlers.

Variable BACKUP_DIR_NORMALIZED : Path.t.
Variable EMERGENCY_BACKUP_DIR_NORMALIZED : Path.t.
Variable MAX_VERSIONS : Z.
Variable cwd : Path.t.
Variable minimatch : string -> string -> bool.
Variable host_Date_parse : string -> JS.number.

Abbreviation Call :=
  (CallTool BACKUP_DIR_NORMALIZED EMERGENCY_BACKUP_DIR_NORMALIZED MAX_VERSIONS
            cwd minimatch host_Date_parse).
Abbreviation findBackupByTimestamp' := (findBackupByTimestamp BACKUP_DIR_NORMALIZED).
Abbreviation findBackupsByFilePath' :=
  (findBackupsByFilePath BACKUP_DIR_NORMALIZED host_Date_parse).
Abbreviation createEmergencyBackup' :=
  (createEmergencyBackup EMERGENCY_BACKUP_DIR_NORMALIZED cwd).
Abbreviation restoreBackup' :=
  (restoreBackup BACKUP_DIR_NORMALIZED EMERGENCY_BACKUP_DIR_NORMALIZED cwd host_Date_parse).


Lemma createOperation_eq ty w :
  createOperation ty w = (Return (new_operation ty w), registered ty w).
Proof. reflexivity. Qed.

Lemma checkpoint_fresh ty w clean (k : M response) :
  checkpoint (Some (uuids w (uuid_draws w))) clean k (registered ty w)
  = k (registered ty w).
Proof.
  unfold checkpoint, bind, checkOperationCancelled. simpl.
  rewrite lookup_insert_eq. simpl. rewrite andb_false_r. reflexivity.
Qed.

(** C10: a path that is no regular file (no directory) makes the file
    (folder) listing fail with "File not found" ("Folder not found"),
    whatever the store holds, and the file system is left as it was. *)
Theorem list_of_missing_path_fails (w : World) (P : Path.t) :
  (FS.isFile (fs w) P = false ->
   Call (backup_list (Some P)) w
   = (ErrorResponse (FileNotFound P) (Some (uuids w (uuid_draws w))),
      registered "backup_list" w))
  /\
  (FS.isDirectory (fs w) P = false ->
   Call (backup_folder_list (Some P)) w
   = (ErrorResponse (FolderNotFound P) (Some (uuids w (uuid_draws w))),
      registered "backup_folder_list" w)).
Proof.
  split; intros H; unfold CallTool; rewrite createOperation_eq; simpl.
  - unfold handle_backup_list, bind, validateRequiredParam, validateFileExists,
      logProgress; simpl.
    unfold Path.normalize. rewrite H. reflexivity.
  - unfold handle_backup_folder_list, bind, validateRequiredParam,
      validateFolderExists, logProgress; simpl.
    unfold Path.normalize. rewrite H. reflexivity.
Qed.


Lemma removelast_not_prefix (P : Path.t) :
  P <> [] -> Path.is_prefix P (Path.dirname P) = false.
Proof.
  intros N. destruct (Path.is_prefix P (Path.dirname P)) eqn:E; [|reflexivity].
  apply is_prefix_length in E. unfold Path.dirname in E.
  destruct (exists_last N) as (l & x & ->).
  rewrite removelast_last, length_app in E. simpl in E. lia.
Qed.

Lemma createEmergencyBackup_missing P w :
  FS.existsSync (fs w) P = false -> createEmergencyBackup' P w = (Return None, w).
Proof.
  intros H. unfold createEmergencyBackup, try_catch. rewrite H. reflexivity.
Qed.

Lemma restoreBackup_original_missing P T flag w L b :
  findBackupsByFilePath' (fs w) P = Return L ->
  List.find (hasTimestamp T) L = Some b ->
  FS.existsSync (fs w) (backup_path b) = true ->
  FS.existsSync (fs w) P = false ->
  restoreBackup' P T flag w = (Throw (OriginalFileNotFound P), w).
Proof.
  intros HL Hb He HP.
  unfold restoreBackup, bind, lift. rewrite HL, Hb.
  destruct flag.
  - rewrite (createEmergencyBackup_missing P w HP). simpl.
    unfold get_fs. rewrite He, HP. reflexivity.
  - simpl. unfold get_fs. rewrite He, HP. reflexivity.
Qed.

Lemma bind_return {A B} (m : M A) (k : A -> M B) w a w' :
  m w = (Return a, w') -> bind m k w = k a w'.
Proof. intros H. unfold bind. rewrite H. reflexivity. Qed.

Lemma bind_throw {A B} (m : M A) (k : A -> M B) w e w' :
  m w = (Throw e, w') -> bind m k w = (Throw e, w').
Proof. intros H. unfold bind. rewrite H. reflexivity. Qed.

Lemma logProgress_eq n w : logProgress n w = (Return tt, w).
Proof. reflexivity. Qed.

Lemma checkpoint_live i clean (k : M response) w :
  live i w -> JS.truthy i = true -> checkpoint (Some i) clean k w = k w.
Proof.
  intros (op & Hop & Hc) Hi. unfold checkpoint, bind, checkOperationCancelled.
  rewrite Hop, Hc, Hi. reflexivity.
Qed.

Lemma checkpoint_idle i clean (k : M response) w :
  JS.truthy i = false -> checkpoint (Some i) clean k w = k w.
Proof.
  intros Hi. unfold checkpoint, bind, checkOperationCancelled.
  rewrite Hi. reflexivity.
Qed.

Lemma checkpoint_pass i clean (k : M response) w :
  live i w -> checkpoint (Some i) clean k w = k w.
Proof.
  intros H. destruct (JS.truthy i) eqn:E;
    [apply checkpoint_live; assumption | apply checkpoint_idle; assumption].
Qed.

Lemma live_registered ty w : live (uuids w (uuid_draws w)) (registered ty w).
Proof. eexists. split; [apply lookup_insert_eq | reflexivity]. Qed.

Lemma live_with_fs i w f : live i w -> live i (with_fs w f).
Proof. exact (fun H => H). Qed.

(** C9: when the entry for (P, T) and its payload are there but P itself
    is not on disk, the restore creates P's parent directory and then
    fails with "Original file not found: P"; P is still absent. *)
Theorem restore_of_missing_original_fails (w : World) (P : Path.t) (T : string)
    (make_emergency : bool) (m0 : BackupMetadata) (fs1 : FS.node)
    (L : list BackupMetadata) (b : BackupMetadata) :
  JS.truthy T = true ->
  FS.existsSync (fs w) P = false ->
  findBackupByTimestamp' (fs w) P T = Some m0 ->
  FS.mkdir_p (fs w) (Path.dirname P) = Some fs1 ->
  findBackupsByFilePath' fs1 P = Return L ->
  List.find (hasTimestamp T) L = Some b ->
  FS.existsSync fs1 (backup_path b) = true ->
  Call (backup_restore (Some P) T make_emergency) w
  = (ErrorResponse (OriginalFileNotFound P) (Some (uuids w (uuid_draws w))),
     with_fs (registered "backup_restore" w) fs1)
  /\ FS.existsSync fs1 P = false.
Proof.
  intros HT HP H0 Hmk HL Hb He.
  assert (HP1 : FS.existsSync fs1 P = false).
  { unfold FS.existsSync in *.
    destruct P as [|x P']; [simpl in HP; discriminate|].
    rewrite (lookup_mkdir_p_off _ _ _ _ Hmk
               (removelast_not_prefix (x :: P') ltac:(discriminate))).
    exact HP. }
  split; [|exact HP1].
  pose proof (live_registered "backup_restore" w) as Hlive.
  unfold CallTool. rewrite createOperation_eq.
  cbn [tool_name id new_operation].
  set (w0 := registered "backup_restore" w) in *.
  set (w1 := with_fs w0 fs1).
  assert (E : handle_backup_restore BACKUP_DIR_NORMALIZED EMERGENCY_BACKUP_DIR_NORMALIZED
                cwd host_Date_parse (Some (uuids w (uuid_draws w))) (Some P) T make_emergency w0
              = (Throw (OriginalFileNotFound P), w1)).
  { unfold handle_backup_restore. cbn [is_some or_else]. unfold Path.normalize.
    rewrite (bind_return _ _ w0 tt w0) by reflexivity.
    rewrite (bind_return _ _ w0 tt w0) by (unfold validateRequiredParam; rewrite HT; reflexivity).
    rewrite (bind_return _ _ w0 (Some m0) w0) by (unfold lift; cbn [fs w0 registered]; rewrite H0; reflexivity).
    rewrite (bind_return _ _ w0 tt w0) by reflexivity.
    rewrite checkpoint_pass by assumption.
    rewrite (bind_return _ _ w0 tt w1)
      by (unfold ensureBackupDirectoryExists, fs_update; cbn [fs w0 registered];
          rewrite Hmk; reflexivity).
    rewrite (bind_return _ _ w1 tt w1) by reflexivity.
    rewrite checkpoint_pass by (apply live_with_fs; assumption).
    rewrite (bind_return _ _ w1 tt w1).
    2:{ destruct make_emergency; [|reflexivity].
        rewrite (bind_return _ _ w1 None w1); [reflexivity|].
        apply createEmergencyBackup_missing. exact HP1. }
    apply bind_throw.
    apply (restoreBackup_original_missing P T make_emergency w1 L b); assumption. }
  rewrite E. reflexivity.
Qed.

End Handlers.

(** ** The tree copier *)

Section Copy.
Import FS.
Variable minimatch : string -> string -> bool.
Variables includePattern excludePattern : option string.

Abbreviation copyTree' src sp tp := (copyTree minimatch src sp tp includePattern excludePattern).
Abbreviation prune' := (prune minimatch includePattern excludePattern).
Abbreviation skipped' name := (skipped minimatch name includePattern excludePattern).

Abbreviation copies_as_graft' := (copies_as_graft minimatch includePattern excludePattern).

Lemma with_fs_same w : with_fs w (fs w) = w.
Proof. destruct w; reflexivity. Qed.

Lemma assoc_In k c (items : items_t) : assoc k items = None -> In (k, c) items -> False.
Proof.
  induction items as [|[k' c'] rest IH]; simpl; [tauto|].
  destruct (String.eqb_spec k k') as [->|Ne]; [discriminate|].
  intros H [E|HIn]; [inversion E; congruence | auto].
Qed.

Lemma copyEntries_graft sp tp base
    (copy := fun entry srcPath destPath => copyTree' entry srcPath destPath) :
  forall todo acc w0,
    Forall (fun kc => forall items, snd kc = Dir items -> copies_as_graft' (snd kc)) todo ->
    graft base tp (Dir acc) = Some (fs w0) ->
    (forall k c, In (k, c) todo -> assoc k acc = None) ->
    distinct_among (fun _ => true) todo = true ->
    exists st',
      copyEntries minimatch copy sp tp includePattern excludePattern todo w0
      = (Return tt, with_fs w0 st')
      /\ graft base tp
           (Dir (acc ++ pruneEntries minimatch includePattern excludePattern prune' todo))
         = Some st'.
Proof.
  induction todo as [|[name entry] rest IH]; intros acc w0 HF HG Hfresh Hd.
  - exists (fs w0). simpl. rewrite app_nil_r, with_fs_same. split; [reflexivity | exact HG].
  - simpl in Hd. apply andb_true_iff in Hd as [Hd Hrest]. apply andb_true_iff in Hd as [Hk _].
    destruct (assoc name rest) eqn:Hname; [discriminate|]. clear Hk.
    inversion HF as [|? ? Hentry HFrest]; subst.
    assert (Hhere : assoc name acc = None) by (apply (Hfresh name entry); left; reflexivity).
    simpl. destruct (skipped' name) eqn:Hs.
    + apply IH; auto. intros k c HIn. apply (Hfresh k c). right; exact HIn.
    + assert (Hnext : forall sub k c, In (k, c) rest -> assoc k (acc ++ [(name, sub)]) = None).
      { intros sub k c HIn. rewrite assoc_app, (Hfresh k c (or_intror HIn)). simpl.
        destruct (String.eqb_spec k name) as [->|]; [|reflexivity].
        exfalso. exact (assoc_In _ _ _ Hname HIn). }
      assert (Hnew : lookup (fs w0) (tp ++ [name]) = None).
      { rewrite lookup_app, (lookup_graft _ _ _ _ HG). simpl. rewrite Hhere. reflexivity. }
      destruct entry as [data|items].
      * (* a regular file *)
        pose proof (graft_extend base tp acc (fs w0) name (File data) HG Hhere) as GE.
        destruct (graft_any base tp (Dir acc) (Dir (acc ++ [(name, File data)])) _ HG)
          as [st1 Hst1].
        rewrite Hst1 in GE.
        pose proof (writeFile_graft _ _ _ _ Hnew GE) as W.
        unfold bind at 1, fs_update at 1, Path.join. rewrite W.
        destruct (IH (acc ++ [(name, File data)]) (with_fs w0 st1) HFrest Hst1
                    (Hnext (File data)) Hrest) as (st' & Hrun & Hgraft).
        exists st'. split; [exact Hrun|].
        rewrite <- app_assoc in Hgraft. exact Hgraft.
      * (* a subdirectory *)
        pose proof (graft_extend base tp acc (fs w0) name (Dir []) HG Hhere) as GE0.
        destruct (graft_any base tp (Dir acc) (Dir (acc ++ [(name, Dir [])])) _ HG)
          as [x Hx].
        rewrite Hx in GE0.
        destruct (Hentry items eq_refl (sp ++ [name]) (tp ++ [name]) w0 x
                    (or_introl Hnew) GE0) as (st1 & Hcopy & Hsub).
        unfold bind at 1. unfold copy at 1. unfold Path.join. simpl snd in Hcopy.
        rewrite Hcopy.
        rewrite (graft_extend base tp acc (fs w0) name _ HG Hhere) in Hsub.
        destruct (IH (acc ++ [(name, prune' (Dir items))]) (with_fs w0 st1) HFrest Hsub
                    (Hnext _) Hrest) as (st' & Hrun & Hgraft).
        exists st'. split; [exact Hrun|].
        rewrite <- app_assoc in Hgraft. exact Hgraft.
Qed.


Lemma distinct_among_weaken check (items : items_t) :
  distinct_among check items = true ->
  distinct_among (fun _ => true) items = true
  /\ Forall (fun kc => check (snd kc) = true) items.
Proof.
  induction items as [|[k c] rest IH]; simpl; intros H; [split; [reflexivity | constructor]|].
  apply andb_true_iff in H as [H Hrest]. apply andb_true_iff in H as [Hk Hc].
  destruct (IH Hrest) as [A B]. rewrite Hk, A. split; [reflexivity|].
  constructor; assumption.
Qed.

Lemma copyTree_graft src :
  distinct_names src = true -> forall items, src = Dir items -> copies_as_graft' src.
Proof.
  induction src as [data|entries IH] using node_induction; intros Hd items E; [discriminate|].
  clear items E. simpl in Hd. apply distinct_among_weaken in Hd as [Hflat Hdeep].
  assert (HF : Forall (fun kc => forall items, snd kc = Dir items -> copies_as_graft' (snd kc))
                 entries).
  { rewrite Forall_forall in *. intros kc HIn items E.
    exact (IH kc HIn (Hdeep kc HIn) items E). }
  intros sp tp w x Hlk Hg.
  change (copyTree' (Dir entries) sp tp w)
    with (bind (ensureTarget tp)
            (fun _ => copyEntries minimatch
                        (fun entry srcPath destPath => copyTree' entry srcPath destPath)
                        sp tp includePattern excludePattern entries) w).
  destruct Hlk as [Hnone|Hempty].
  - rewrite (bind_return _ _ w tt (with_fs w x)).
    2:{ unfold ensureTarget, FS.existsSync, fs_update. rewrite Hnone.
        rewrite (mkdir_p_graft _ _ _ Hnone Hg). reflexivity. }
    destruct (copyEntries_graft sp tp (fs w) entries [] (with_fs w x) HF Hg
                ltac:(reflexivity) Hflat) as (st' & Hrun & Hgraft).
    exists st'. split; [exact Hrun | exact Hgraft].
  - rewrite (bind_return _ _ w tt w).
    2:{ unfold ensureTarget, FS.existsSync. rewrite Hempty. reflexivity. }
    pose proof (graft_same _ _ _ Hempty) as Hsame.
    destruct (copyEntries_graft sp tp (fs w) entries [] w HF Hsame
                ltac:(reflexivity) Hflat) as (st' & Hrun & Hgraft).
    exists st'. split; [exact Hrun | exact Hgraft].
Qed.

Lemma mkdir_p_fresh fs tp fs' :
  lookup fs tp = None -> mkdir_p fs tp = Some fs' -> lookup fs' tp = Some (Dir []).
Proof.
  revert fs fs'. induction tp as [|s tp IH]; intros fs fs' L M; [discriminate|].
  destruct fs as [?|items]; [discriminate|]. simpl in *.
  destruct (assoc s items) as [c|] eqn:E.
  - destruct (mkdir_p c tp) as [c'|] eqn:Mc; [|discriminate]. inversion M; subst. simpl.
    rewrite assoc_replace_same, E. eapply IH; eassumption.
  - inversion M; subst. simpl. rewrite assoc_app, E. simpl. rewrite String.eqb_refl.
    clear. induction tp as [|t tp IH]; simpl; [reflexivity|].
    rewrite String.eqb_refl. exact IH.
Qed.

Lemma skipped_eqb s name :
  String.eqb s name = true -> skipped' name = skipped' s.
Proof. intros E. apply String.eqb_eq in E. subst. reflexivity. Qed.

Lemma assoc_pruneEntries keep s (entries : items_t) :
  assoc s (pruneEntries minimatch includePattern excludePattern keep entries)
  = if skipped' s then None else option_map keep (assoc s entries).
Proof.
  induction entries as [|[name c] rest IH]; simpl.
  - destruct (skipped' s); reflexivity.
  - destruct (String.eqb s name) eqn:E.
    + rewrite (skipped_eqb _ _ E). destruct (skipped' s) eqn:Hs.
      * exact IH.
      * simpl. rewrite E. reflexivity.
    + destruct (skipped' name); [exact IH|]. simpl. rewrite E. exact IH.
Qed.

(** An entry of the source is in the pruned tree exactly when no name
    on its path is skipped. *)
Lemma lookup_prune r : forall src,
  lookup (prune' src) r
  = if forallb (fun name => negb (skipped' name)) r
    then option_map prune' (lookup src r) else None.
Proof.
  induction r as [|s r IH]; intros src; [reflexivity|].
  destruct src as [data|entries]; simpl.
  - destruct (negb (skipped' s) && forallb _ r); reflexivity.
  - rewrite assoc_pruneEntries. destruct (skipped' s); [reflexivity|]. simpl.
    destruct (assoc s entries) as [c|]; simpl.
    + apply IH.
    + destruct (forallb _ r); reflexivity.
Qed.

(** C4 (as amended): copying a folder to a fresh target filters every
    entry, directory or file, by its own name at each level: the target
    becomes the source tree without the skipped entries, so an entry is
    copied exactly when no name on its path is skipped; a directory whose
    name is skipped is left out with everything below it. *)
Theorem folder_copy_filters_every_name (w : World) (sp tp : Path.t) (src fs_a : node) :
  lookup (fs w) sp = Some src ->
  isDirectory (fs w) sp = true ->
  distinct_names src = true ->
  lookup (fs w) tp = None ->
  Path.is_prefix sp tp = false ->
  mkdir_p (fs w) tp = Some fs_a ->
  exists fs',
    copyFolderContents minimatch sp tp includePattern excludePattern w
    = (Return tt, with_fs w fs')
    /\ lookup fs' tp = Some (prune' src)
    /\ forall r,
         lookup fs' (tp ++ r)
         = if forallb (fun name => negb (skipped' name)) r
           then option_map prune' (lookup src r) else None.
Proof.
  intros Hsrc Hdir Hd Htp Hout Hmk.
  unfold isDirectory in Hdir. rewrite Hsrc in Hdir.
  destruct src as [?|entries]; [discriminate|].
  pose proof (mkdir_p_fresh _ _ _ Htp Hmk) as Hfresh.
  destruct (copyTree_graft (Dir entries) Hd entries eq_refl sp tp (with_fs w fs_a) fs_a
              (or_intror Hfresh) (graft_same _ _ _ Hfresh)) as (fs' & Hrun & Hgraft).
  exists fs'.
  assert (Hlk : lookup fs' tp = Some (prune' (Dir entries)))
    by (exact (lookup_graft _ _ _ _ Hgraft)).
  split; [|split; [exact Hlk|]].
  - unfold copyFolderContents.
    rewrite (bind_return _ _ w tt (with_fs w fs_a))
      by (unfold fs_update; rewrite Hmk; reflexivity).
    unfold copyFolderRecursive. cbn [fs with_fs].
    rewrite (lookup_mkdir_p_off _ _ _ _ Hmk Hout), Hsrc. exact Hrun.
  - intros r. rewrite lookup_app, Hlk. apply lookup_prune.
Qed.

End Copy.

(** ** The engine run on the small installation *)

Section Runs.

Variable host : string -> JS.number.

Import Scenario.

Abbreviation emergency_proj :=
  (EMERGENCY_BACKUP_DIR ++ ["home"; "u"; "proj"]%string).

(** C7: a cancel call that names an operation whose call has already
    returned finds it in the table, sets its [cancelled] flag and
    answers with success. *)
Theorem cancel_after_finish_succeeds :
  let '(r1, w1) := call 10 host (backup_list (Some notes)) (boot disk0) in
  let '(r2, w2) := call 10 host (mcp_cancel "op-0") w1 in
  r1 = JsonResponse (Listing [])
  /\ (cancelled <$> operations w1 !! "op-0"%string) = Some false
  /\ r2 = JsonResponse (CancelDone "op-0")
  /\ (cancelled <$> operations w2 !! "op-0"%string) = Some true.
Proof. vm_compute. repeat split; reflexivity. Qed.

(** C2: restoring an edited file with the emergency flag takes the
    snapshot twice, once in the handler and once in [restoreBackup]; with
    a clock that moves between the two, the emergency store gains two
    entries, both holding the content the file had before the restore. *)
Theorem restore_takes_two_snapshots :
  let w := edited host in
  let '(r, w') := call 10 host (backup_restore (Some notes) stamp1 true) w in
  FS.readFile (fs w) notes = Some v2
  /\ FS.existsSync (fs w) EMERGENCY_BACKUP_DIR = false
  /\ r = JsonResponse (Restored notes stamp1)
  /\ FS.readdir (fs w') emergency_proj
     = Some ["notes.txt.emergency.20240101-120000-010";
             "notes.txt.emergency.20240101-120000-020"]%string
  /\ FS.readFile (fs w')
       (emergency_proj ++ ["notes.txt.emergency.20240101-120000-010"]%string) = Some v2
  /\ FS.readFile (fs w')
       (emergency_proj ++ ["notes.txt.emergency.20240101-120000-020"]%string) = Some v2
  /\ FS.readFile (fs w') notes = Some v1.
Proof. vm_compute. repeat split; reflexivity. Qed.


(** C6: the emergency variants write the descriptor into the root of
    the emergency store under [<name>.emergency.<timestamp>.meta.json];
    nothing is written at [<backup_path>.meta.json]. *)
Theorem emergency_descriptor_is_misplaced :
  let file_run :=
    createEmergencyBackup EMERGENCY_BACKUP_DIR cwd notes (boot disk0) in
  let folder_run :=
    createEmergencyFolderBackup EMERGENCY_BACKUP_DIR cwd Glob.minimatch proj (boot disk0) in
  let file_entry := emergency_proj ++ ["notes.txt.emergency.20240101-120000-000"]%string in
  let folder_entry :=
    EMERGENCY_BACKUP_DIR ++ ["home"; "u"; "proj.emergency.20240101-120000-000"]%string in
  fst file_run = Return (Some file_entry)
  /\ FS.existsSync (fs (snd file_run)) (getBackupMetadataFilename file_entry) = false
  /\ (backup_path <$>
        readBackupMetadata (fs (snd file_run))
          (EMERGENCY_BACKUP_DIR ++ ["notes.emergency.20240101-120000-000.meta.json"]%string))
     = Some file_entry
  /\ fst folder_run = Return (Some folder_entry)
  /\ FS.existsSync (fs (snd folder_run)) (getBackupMetadataFilename folder_entry) = false
  /\ (backup_path <$>
        readBackupMetadata (fs (snd folder_run))
          (EMERGENCY_BACKUP_DIR ++ ["proj.emergency.20240101-120000-000.meta.json"]%string))
     = Some folder_entry.
Proof. vm_compute. repeat split; reflexivity. Qed.

End Runs.

(** ** Timestamps sort as the instants they were taken at *)

Lemma below_spec P n :
  below P n = true -> forall z, 0 <= z < n -> P z = true.
Proof.
  unfold below. rewrite forallb_forall. intros H z Hz.
  apply H. apply in_map_iff. exists (Z.to_nat z). split; [lia|].
  apply in_seq. lia.
Qed.

Lemma digit_compare a b :
  0 <= a < 10 -> 0 <= b < 10 ->
  Ascii.compare (JS.digit_char a) (JS.digit_char b) = (a ?= b).
Proof.
  intros Ha Hb.
  assert (H : below (fun a => below (fun b =>
     match Ascii.compare (JS.digit_char a) (JS.digit_char b), (a ?= b) with
     | Eq, Eq | Lt, Lt | Gt, Gt => true | _, _ => false end) 10) 10 = true)
    by (vm_compute; reflexivity).
  pose proof (below_spec _ _ (below_spec _ _ H a Ha) b Hb) as E. cbv beta in E.
  destruct (Ascii.compare _ _), (a ?= b); congruence.
Qed.

Lemma compare_cons a b s t :
  String.compare (String a s) (String b t)
  = match Ascii.compare a b with Eq => String.compare s t | Lt => Lt | Gt => Gt end.
Proof. reflexivity. Qed.

Lemma append_cons a s t : String a s +:+ t = String a (s +:+ t).
Proof. reflexivity. Qed.

Lemma fixedw_S k n :
  fixedw (S k) n
  = String (JS.digit_char (n / 10 ^ Z.of_nat k)) (fixedw k (n mod 10 ^ Z.of_nat k)).
Proof. reflexivity. Qed.

Lemma compare_fixed k : forall x y s t,
  0 <= x < 10 ^ Z.of_nat k -> 0 <= y < 10 ^ Z.of_nat k ->
  String.compare (fixedw k x +:+ s) (fixedw k y +:+ t)
  = match x ?= y with Eq => String.compare s t | c => c end.
Proof.
  induction k as [|k IH]; intros x y s t Hx Hy.
  - simpl in *. assert (x = 0) by lia. assert (y = 0) by lia. subst. reflexivity.
  - rewrite Nat2Z.inj_succ, Z.pow_succ_r in Hx, Hy by lia.
    set (p := 10 ^ Z.of_nat k) in *.
    assert (Hp : 0 < p) by (apply Z.pow_pos_nonneg; lia).
    rewrite !fixedw_S, !append_cons, compare_cons. fold p.
    pose proof (Z.div_mod x p ltac:(lia)) as Ex.
    pose proof (Z.div_mod y p ltac:(lia)) as Ey.
    pose proof (Z.mod_pos_bound x p Hp) as Bx.
    pose proof (Z.mod_pos_bound y p Hp) as By.
    assert (Dx : 0 <= x / p < 10) by (split; [apply Z.div_pos; lia | apply Z.div_lt_upper_bound; lia]).
    assert (Dy : 0 <= y / p < 10) by (split; [apply Z.div_pos; lia | apply Z.div_lt_upper_bound; lia]).
    rewrite digit_compare by assumption.
    rewrite IH by assumption.
    destruct (Z.compare_spec (x / p) (y / p)) as [E|L|G].
    + rewrite E in Ex.
      destruct (Z.compare_spec (x mod p) (y mod p)) as [E2|L2|G2].
      * assert (x = y) by lia. subst. rewrite Z.compare_refl. reflexivity.
      * assert (x < y) by lia. rewrite (proj2 (Z.compare_lt_iff x y)); auto.
      * assert (y < x) by lia. rewrite (proj2 (Z.compare_gt_iff x y)); auto.
    + assert (x < y) by nia. rewrite (proj2 (Z.compare_lt_iff x y)); auto.
    + assert (y < x) by nia. rewrite (proj2 (Z.compare_gt_iff x y)); auto.
Qed.

Lemma pad2_fixed n : 0 <= n < 100 ->
  JS.padStart (JS.String_of_number n) 2 "0" = fixedw 2 n.
Proof.
  intros H.
  assert (E : below (fun n => String.eqb (JS.padStart (JS.String_of_number n) 2 "0") (fixedw 2 n)) 100 = true)
    by (vm_compute; reflexivity).
  apply String.eqb_eq. exact (below_spec _ _ E n H).
Qed.

Lemma pad3_fixed n : 0 <= n < 1000 ->
  JS.padStart (JS.String_of_number n) 3 "0" = fixedw 3 n.
Proof.
  intros H.
  assert (E : below (fun n => String.eqb (JS.padStart (JS.String_of_number n) 3 "0") (fixedw 3 n)) 1000 = true)
    by (vm_compute; reflexivity).
  apply String.eqb_eq. exact (below_spec _ _ E n H).
Qed.

Lemma year_fixed n : 1000 <= n < 10000 ->
  JS.String_of_number n = fixedw 4 n.
Proof.
  intros H.
  assert (E : below (fun n => (n <? 1000) || String.eqb (JS.String_of_number n) (fixedw 4 n)) 10000 = true)
    by (vm_compute; reflexivity).
  pose proof (below_spec _ _ E n ltac:(lia)) as E'. cbv beta in E'.
  apply orb_true_iff in E'. destruct E' as [E'|E']; [apply Z.ltb_lt in E'; lia|].
  apply String.eqb_eq. exact E'.
Qed.

Lemma DayFromYear_step y :
  Date.DayFromYear (y + 1) - Date.DayFromYear y = 365 \/ Date.DayFromYear (y + 1) - Date.DayFromYear y = 366.
Proof. unfold Date.DayFromYear. Z.div_mod_to_equations. lia. Qed.

Lemma DayFromYear_lt y1 y2 : y1 < y2 -> Date.DayFromYear y1 < Date.DayFromYear y2.
Proof. unfold Date.DayFromYear. intros. Z.div_mod_to_equations. lia. Qed.

Lemma YearFromDay_spec d :
  Date.DayFromYear (Date.YearFromDay d) <= d < Date.DayFromYear (Date.YearFromDay d + 1).
Proof.
  unfold Date.YearFromDay.
  set (y := 1970 + 400 * d / 146097).
  assert (Hlo : Date.DayFromYear (y - 1) <= d).
  { unfold Date.DayFromYear, y. Z.div_mod_to_equations. lia. }
  assert (Hhi : d < Date.DayFromYear (y + 2)).
  { unfold Date.DayFromYear, y. Z.div_mod_to_equations. lia. }
  destruct (Z.leb_spec (Date.DayFromYear (y + 1)) d).
  - replace (y + 1 + 1) with (y + 2) by lia. lia.
  - destruct (Z.leb_spec (Date.DayFromYear y) d).
    + lia.
    + replace (y - 1 + 1) with y by lia. lia.
Qed.

Lemma YearFromDay_unique d y :
  Date.DayFromYear y <= d < Date.DayFromYear (y + 1) -> Date.YearFromDay d = y.
Proof.
  intros H. pose proof (YearFromDay_spec d) as S.
  destruct (Z.lt_trichotomy (Date.YearFromDay d) y) as [L|[E|G]]; [|exact E|].
  - assert (Date.YearFromDay d + 1 <= y) by lia.
    destruct (Z.eq_dec (Date.YearFromDay d + 1) y) as [E|].
    + rewrite E in S. lia.
    + pose proof (DayFromYear_lt (Date.YearFromDay d + 1) y ltac:(lia)). lia.
  - assert (y + 1 <= Date.YearFromDay d) by lia.
    destruct (Z.eq_dec (y + 1) (Date.YearFromDay d)) as [E|].
    + rewrite <- E in S. lia.
    + pose proof (DayFromYear_lt (y + 1) (Date.YearFromDay d) ltac:(lia)). lia.
Qed.

Lemma YearFromDay_mono d1 d2 : d1 <= d2 -> Date.YearFromDay d1 <= Date.YearFromDay d2.
Proof.
  intros H. pose proof (YearFromDay_spec d1). pose proof (YearFromDay_spec d2).
  destruct (Z.le_gt_cases (Date.YearFromDay d1) (Date.YearFromDay d2)) as [|G]; [assumption|].
  assert (Date.YearFromDay d2 + 1 <= Date.YearFromDay d1) by lia.
  destruct (Z.eq_dec (Date.YearFromDay d2 + 1) (Date.YearFromDay d1)) as [E|].
  - rewrite E in *. lia.
  - pose proof (DayFromYear_lt (Date.YearFromDay d2 + 1) (Date.YearFromDay d1) ltac:(lia)). lia.
Qed.

Lemma InLeapYear_range y : Date.InLeapYear y = 0 \/ Date.InLeapYear y = 1.
Proof. unfold Date.InLeapYear. destruct (_ =? _); auto. Qed.

Lemma day_in_year d :
  0 <= d - Date.DayFromYear (Date.YearFromDay d) < 365 + Date.InLeapYear (Date.YearFromDay d).
Proof.
  pose proof (YearFromDay_spec d) as S.
  unfold Date.InLeapYear.
  destruct (DayFromYear_step (Date.YearFromDay d)) as [E|E]; rewrite E; simpl; lia.
Qed.

Lemma month_date_mono leap d1 d2 :
  (leap = 0 \/ leap = 1) -> 0 <= d1 -> d1 < d2 -> d2 < 365 + leap ->
  lex [Date.MonthFromDay leap d1; Date.DateFromDay leap d1] [Date.MonthFromDay leap d2; Date.DateFromDay leap d2] = Lt.
Proof.
  intros Hl H0 H12 H2.
  unfold Date.DateFromDay, Date.MonthFromDay, lex.
  repeat match goal with
         | |- context [?a <? ?b] => destruct (Z.ltb_spec a b)
         end; try lia; cbn; try reflexivity;
  match goal with
  | |- context [?a ?= ?b] =>
      replace (a ?= b) with Lt by (symmetry; apply Z.compare_lt_iff; lia)
  end; reflexivity.
Qed.

Lemma month_date_range leap d :
  (leap = 0 \/ leap = 1) -> 0 <= d < 365 + leap ->
  0 <= Date.MonthFromDay leap d <= 11 /\ 1 <= Date.DateFromDay leap d <= 31.
Proof.
  intros Hl H.
  unfold Date.DateFromDay, Date.MonthFromDay.
  repeat match goal with
         | |- context [?a <? ?b] => destruct (Z.ltb_spec a b)
         end; cbn; lia.
Qed.

Lemma time_of_day t :
  let r := t mod 86400000 in
  Date.HourFromTime t = r / 3600000 /\
  Date.MinFromTime t = (r / 60000) mod 60 /\
  Date.SecFromTime t = (r / 1000) mod 60 /\
  Date.msFromTime t = r mod 1000.
Proof.
  unfold Date.HourFromTime, Date.MinFromTime, Date.SecFromTime, Date.msFromTime. cbv zeta.
  repeat split; Z.div_mod_to_equations; lia.
Qed.

Lemma time_fields_range t :
  0 <= Date.HourFromTime t < 24 /\ 0 <= Date.MinFromTime t < 60 /\
  0 <= Date.SecFromTime t < 60 /\ 0 <= Date.msFromTime t < 1000.
Proof.
  unfold Date.HourFromTime, Date.MinFromTime, Date.SecFromTime, Date.msFromTime.
  repeat split; Z.div_mod_to_equations; lia.
Qed.

Lemma time_fields_mono t1 t2 :
  t1 / 86400000 = t2 / 86400000 -> t1 < t2 ->
  lex [Date.HourFromTime t1; Date.MinFromTime t1; Date.SecFromTime t1; Date.msFromTime t1]
      [Date.HourFromTime t2; Date.MinFromTime t2; Date.SecFromTime t2; Date.msFromTime t2] = Lt.
Proof.
  intros Hd Hlt.
  assert (Hr : t1 mod 86400000 < t2 mod 86400000) by (Z.div_mod_to_equations; lia).
  pose proof (time_of_day t1) as (A1 & B1 & C1 & D1).
  pose proof (time_of_day t2) as (A2 & B2 & C2 & D2).
  rewrite A1, B1, C1, D1, A2, B2, C2, D2.
  assert (R1 : 0 <= t1 mod 86400000 < 86400000) by (apply Z.mod_pos_bound; lia).
  assert (R2 : 0 <= t2 mod 86400000 < 86400000) by (apply Z.mod_pos_bound; lia).
  clear A1 B1 C1 D1 A2 B2 C2 D2 Hd Hlt.
  set (r1 := t1 mod 86400000) in *. set (r2 := t2 mod 86400000) in *.
  clearbody r1 r2. clear t1 t2.
  unfold lex.
  destruct (Z.compare_spec (r1 / 3600000) (r2 / 3600000)) as [E1|L1|G1];
    [| reflexivity | exfalso; Z.div_mod_to_equations; lia].
  destruct (Z.compare_spec ((r1 / 60000) mod 60) ((r2 / 60000) mod 60)) as [E2|L2|G2];
    [| reflexivity | exfalso; Z.div_mod_to_equations; lia].
  destruct (Z.compare_spec ((r1 / 1000) mod 60) ((r2 / 1000) mod 60)) as [E3|L3|G3];
    [| reflexivity | exfalso; Z.div_mod_to_equations; lia].
  destruct (Z.compare_spec (r1 mod 1000) (r2 mod 1000)) as [E4|L4|G4];
    [exfalso; Z.div_mod_to_equations; lia | reflexivity | exfalso; Z.div_mod_to_equations; lia].
Qed.

Lemma lex_antisym a : forall b, List.length a = List.length b -> lex b a = CompOpp (lex a b).
Proof.
  induction a as [|x a IH]; intros [|y b] Hl; try discriminate; [reflexivity|].
  simpl. rewrite (Z.compare_antisym x y).
  destruct (x ?= y); simpl; auto.
Qed.

Lemma compare_add_r x y c : (x + c ?= y + c) = (x ?= y).
Proof. rewrite !(Z.add_comm _ c). apply Z.add_compare_mono_l. Qed.

Lemma fields_lt t1 t2 : t1 < t2 -> lex (fields t1) (fields t2) = Lt.
Proof.
  intros Hlt. unfold fields.
  assert (Hd : t1 / 86400000 <= t2 / 86400000) by (apply Z.div_le_mono; lia).
  unfold Date.MonthFromTime, Date.DateFromTime, Date.DayWithinYear, Date.YearFromTime, Date.Day, Date.msPerDay.
  set (d1 := t1 / 86400000) in *. set (d2 := t2 / 86400000) in *.
  destruct (Z.eq_dec d1 d2) as [E|N].
  - rewrite E. cbn [lex]. rewrite !Z.compare_refl.
    apply time_fields_mono; [exact E | exact Hlt].
  - assert (L : d1 < d2) by lia.
    pose proof (YearFromDay_mono d1 d2 Hd) as Hy.
    cbn [lex]. destruct (Z.compare_spec (Date.YearFromDay d1) (Date.YearFromDay d2)) as [Ey|Ly|Gy];
      [| reflexivity | lia].
    rewrite Ey.
    pose proof (day_in_year d1) as R1. pose proof (day_in_year d2) as R2.
    rewrite Ey in R1.
    pose proof (month_date_mono (Date.InLeapYear (Date.YearFromDay d2))
                  (d1 - Date.DayFromYear (Date.YearFromDay d2)) (d2 - Date.DayFromYear (Date.YearFromDay d2))
                  (InLeapYear_range _) ltac:(lia) ltac:(lia) ltac:(lia)) as M.
    cbn [lex] in M. rewrite compare_add_r.
    destruct (Date.MonthFromDay _ _ ?= Date.MonthFromDay _ _); try discriminate; [|reflexivity].
    destruct (Date.DateFromDay _ _ ?= Date.DateFromDay _ _); try discriminate. reflexivity.
Qed.

Lemma lex_fields t1 t2 : lex (fields t1) (fields t2) = (t1 ?= t2).
Proof.
  destruct (Z.compare_spec t1 t2) as [E|L|G].
  - subst. unfold fields. cbn [lex]. rewrite !Z.compare_refl. reflexivity.
  - apply fields_lt; assumption.
  - rewrite lex_antisym by reflexivity. rewrite (fields_lt t2 t1 G). reflexivity.
Qed.

Lemma fields_range tv :
  0 <= Date.MonthFromTime tv + 1 < 100 /\ 0 <= Date.DateFromTime tv < 100 /\
  0 <= Date.HourFromTime tv < 100 /\ 0 <= Date.MinFromTime tv < 100 /\
  0 <= Date.SecFromTime tv < 100 /\ 0 <= Date.msFromTime tv < 1000.
Proof.
  pose proof (time_fields_range tv) as (A & B & C & D).
  pose proof (month_date_range (Date.InLeapYear (Date.YearFromTime tv)) (Date.DayWithinYear tv)
                (InLeapYear_range _) (day_in_year (Date.Day tv))) as [M Dt].
  unfold Date.MonthFromTime, Date.DateFromTime. lia.
Qed.

Lemma append_nil s : s +:+ EmptyString = s.
Proof.
  induction s as [|c s IH]; [reflexivity|].
  rewrite append_cons, IH. reflexivity.
Qed.

Lemma generateTimestamp_fixed d :
  1000 <= Date.getFullYear d < 10000 ->
  generateTimestamp d
  = fixedw 4 (Date.getFullYear d) +:+ fixedw 2 (Date.getMonth d + 1) +:+ fixedw 2 (Date.getDate d) +:+
    String "-" (fixedw 2 (Date.getHours d) +:+ fixedw 2 (Date.getMinutes d) +:+ fixedw 2 (Date.getSeconds d) +:+
    String "-" (fixedw 3 (Date.getMilliseconds d) +:+ EmptyString)).
Proof.
  intros Hy. unfold generateTimestamp.
  pose proof (fields_range (Date.LocalTime d)) as (A & B & C & D & E & F).
  unfold Date.getMonth, Date.getDate, Date.getHours, Date.getMinutes, Date.getSeconds, Date.getMilliseconds in *.
  rewrite !pad2_fixed, pad3_fixed, year_fixed by assumption.
  rewrite append_nil. reflexivity.
Qed.

(** C5 (as amended): for two readings of the clock taken under the same
    local time zone adjustment, in local years of four digits, comparing
    the generated timestamps as strings gives the order of the two
    instants; the strings are equal exactly when the instants are. *)
Theorem timestamp_order (a b : Date.t) :
  Date.tza a = Date.tza b ->
  1000 <= Date.getFullYear a < 10000 ->
  1000 <= Date.getFullYear b < 10000 ->
  String.compare (generateTimestamp a) (generateTimestamp b) = (Date.utc a ?= Date.utc b).
Proof.
  intros Hz Ha Hb.
  rewrite (generateTimestamp_fixed a Ha), (generateTimestamp_fixed b Hb).
  pose proof (fields_range (Date.LocalTime a)) as (A1 & B1 & C1 & D1 & E1 & F1).
  pose proof (fields_range (Date.LocalTime b)) as (A2 & B2 & C2 & D2 & E2 & F2).
  unfold Date.getMonth, Date.getDate, Date.getHours, Date.getMinutes, Date.getSeconds, Date.getMilliseconds, Date.getFullYear in *.
  assert (P2 : 10 ^ Z.of_nat 2 = 100) by reflexivity.
  assert (P3 : 10 ^ Z.of_nat 3 = 1000) by reflexivity.
  assert (P4 : 10 ^ Z.of_nat 4 = 10000) by reflexivity.
  rewrite !compare_fixed by lia.
  rewrite compare_cons. change (Ascii.compare "-" "-") with Eq. cbv iota.
  rewrite !compare_fixed by lia.
  rewrite compare_cons. change (Ascii.compare "-" "-") with Eq. cbv iota.
  rewrite !compare_fixed by lia.
  change (String.compare EmptyString EmptyString) with Eq.
  pose proof (lex_fields (Date.LocalTime a) (Date.LocalTime b)) as L.
  unfold fields in L. cbn [lex] in L.
  replace (Date.utc a ?= Date.utc b) with (Date.LocalTime a ?= Date.LocalTime b)
    by (unfold Date.LocalTime; rewrite Hz; apply compare_add_r).
  rewrite <- L.
  repeat match goal with |- context [?x ?= ?y] => destruct (x ?= y) end; reflexivity.
Qed.

Lemma timestamp_order_witness :
  let a := Date.mk 1706745599999 3600000 in
  let b := Date.mk 1706745600000 3600000 in
  Date.tza a = Date.tza b
  /\ 1000 <= Date.getFullYear a < 10000
  /\ 1000 <= Date.getFullYear b < 10000
  /\ String.compare (generateTimestamp a) (generateTimestamp b) = (Date.utc a ?= Date.utc b).
Proof.
  cbv zeta.
  assert (Ha : 1000 <= Date.getFullYear (Date.mk 1706745599999 3600000) < 10000)
    by (vm_compute; split; [discriminate | reflexivity]).
  assert (Hb : 1000 <= Date.getFullYear (Date.mk 1706745600000 3600000) < 10000)
    by (vm_compute; split; [discriminate | reflexivity]).
  split; [reflexivity |]. split; [exact Ha |]. split; [exact Hb |].
  exact (timestamp_order (Date.mk 1706745599999 3600000) (Date.mk 1706745600000 3600000)
           eq_refl Ha Hb).
Defined.

(** C5 as first stated fails when the local time zone adjustment changes
    between two readings: on 27 October 2024 a reading at 00:30 UTC under
    +2 h prints 02:30, a later one at 01:10 UTC under +1 h prints 02:10. *)
Lemma timestamp_order_breaks_when_clocks_go_back :
  let a := Date.mk 1729989000000 7200000 in
  let b := Date.mk 1729991400000 3600000 in
  generateTimestamp a = "20241027-023000-000"%string
  /\ generateTimestamp b = "20241027-021000-000"%string
  /\ (Date.utc a ?= Date.utc b) = Lt
  /\ String.compare (generateTimestamp a) (generateTimestamp b) = Gt.
Proof. vm_compute. repeat split; reflexivity. Qed.

(** The year is printed without padding: the last millisecond of the
    year 9999 sorts after the first one of the year 10000. *)
Lemma timestamp_order_breaks_at_five_digit_years :
  let a := Date.mk 253402300799999 0 in
  let b := Date.mk 253402300800000 0 in
  generateTimestamp a = "99991231-235959-999"%string
  /\ generateTimestamp b = "100000101-000000-000"%string
  /\ (Date.utc a ?= Date.utc b) = Lt
  /\ String.compare (generateTimestamp a) (generateTimestamp b) = Gt.
Proof. vm_compute. repeat split; reflexivity. Qed.

(** ** Names and descriptor text *)

Section Strings.

Lemma endsWith_unfold s t :
  JS.endsWith s t
  = String.eqb s t || match s with EmptyString => false | String _ s' => JS.endsWith s' t end.
Proof. destruct s; reflexivity. Qed.

Lemma endsWith_refl s : JS.endsWith s s = true.
Proof. rewrite endsWith_unfold, String.eqb_refl. reflexivity. Qed.

Lemma endsWith_append a t : JS.endsWith (a +:+ t) t = true.
Proof.
  induction a as [|c a IH]; [apply endsWith_refl|].
  rewrite append_cons, endsWith_unfold, IH. apply orb_true_r.
Qed.

Lemma last_char_append a b : b <> EmptyString -> last_char (a +:+ b) = last_char b.
Proof.
  intros Hb. induction a as [|c a IH]; [reflexivity|].
  rewrite append_cons. simpl. destruct (a +:+ b) eqn:E.
  - destruct a; [exfalso; apply Hb; exact E | discriminate].
  - exact IH.
Qed.

Lemma last_char_endsWith s t :
  t <> EmptyString -> JS.endsWith s t = true -> last_char s = last_char t.
Proof.
  intros Ht. induction s as [|c s IH]; rewrite endsWith_unfold.
  - intros H. rewrite orb_false_r in H. apply String.eqb_eq in H. congruence.
  - intros H. apply orb_true_iff in H as [H|H].
    + apply String.eqb_eq in H. rewrite <- H. reflexivity.
    + rewrite <- (IH H). destruct s; [|reflexivity].
      rewrite endsWith_unfold, orb_false_r in H. apply String.eqb_eq in H. congruence.
Qed.

Lemma last_char_some_nonempty s c : last_char s = Some c -> s <> EmptyString.
Proof. destruct s; [discriminate | discriminate]. Qed.

Lemma pad3_digit_end n :
  0 <= n < 1000 -> is_digit_end (JS.padStart (JS.String_of_number n) 3 "0") = true.
Proof.
  intros H.
  assert (E : below (fun n => is_digit_end (JS.padStart (JS.String_of_number n) 3 "0")) 1000
              = true) by (vm_compute; reflexivity).
  exact (below_spec _ _ E n H).
Qed.

Lemma is_digit_end_append a b : is_digit_end b = true -> is_digit_end (a +:+ b) = true.
Proof.
  intros H. unfold is_digit_end in *. rewrite last_char_append; [exact H|].
  destruct b; [discriminate | discriminate].
Qed.

Lemma generateTimestamp_digit_end d : is_digit_end (generateTimestamp d) = true.
Proof.
  unfold generateTimestamp. cbv zeta. do 8 apply is_digit_end_append.
  apply pad3_digit_end. pose proof (time_fields_range (Date.LocalTime d)) as (_ & _ & _ & H).
  exact H.
Qed.

Lemma digit_end_truthy s : is_digit_end s = true -> JS.truthy s = true.
Proof. destruct s; [discriminate | reflexivity]. Qed.

Lemma digit_end_not_meta s : is_digit_end s = true -> JS.endsWith s ".meta.json" = false.
Proof.
  intros H. destruct (JS.endsWith s ".meta.json") eqn:E; [|reflexivity].
  apply last_char_endsWith in E; [|discriminate].
  unfold is_digit_end in H. rewrite E in H. discriminate.
Qed.

End Strings.

Section Codec.

Lemma unbits_bits p : JSON.unbits (JSON.bits p) = Some p.
Proof. induction p as [p IH|p IH|]; simpl; rewrite ?IH; reflexivity. Qed.

Lemma parse_stringify m : JSON.parse (JSON.stringify m) = Some m.
Proof.
  unfold JSON.parse, JSON.stringify. rewrite unbits_bits, decode_encode.
  destruct m; reflexivity.
Qed.

End Codec.

(** ** What an emergency snapshot can touch *)

Section Frames.

Variable root : Path.t.

Lemma same_outside_refl f : same_outside root f f.
Proof. split; intros; reflexivity. Qed.

Lemma same_outside_trans f g h :
  same_outside root f g -> same_outside root g h -> same_outside root f h.
Proof.
  intros [A1 B1] [A2 B2]. split; intros.
  - rewrite A2, A1 by assumption. reflexivity.
  - rewrite B2, B1 by assumption. reflexivity.
Qed.

Lemma quiet_refl w : quiet root w w.
Proof. split; [reflexivity | apply same_outside_refl]. Qed.

Lemma quiet_trans w1 w2 w3 : quiet root w1 w2 -> quiet root w2 w3 -> quiet root w1 w3.
Proof.
  intros [A1 B1] [A2 B2]. split; [congruence | eapply same_outside_trans; eassumption].
Qed.

Lemma below_root_not_above x a :
  Path.is_prefix root a = false -> Path.is_prefix a root = false ->
  Path.is_prefix a (root ++ x) = false /\ Path.is_prefix (root ++ x) a = false.
Proof.
  intros H1 H2. split.
  - destruct (Path.is_prefix a (root ++ x)) eqn:E; [|reflexivity].
    destruct (is_prefix_common a root (root ++ x) E (is_prefix_app root x)); congruence.
  - destruct (Path.is_prefix (root ++ x) a) eqn:E; [|reflexivity].
    rewrite (is_prefix_trans root (root ++ x) a (is_prefix_app root x) E) in H1. discriminate.
Qed.

Lemma mkdir_p_same_outside f x f' :
  FS.mkdir_p f (root ++ x) = Some f' -> same_outside root f f'.
Proof.
  intros M. split.
  - intros p _. eapply readFile_mkdir_p; eassumption.
  - intros a H1 H2. eapply lookup_mkdir_p_off; [eassumption|].
    apply (below_root_not_above x a H1 H2).
Qed.

Lemma writeFile_same_outside f x d f' :
  FS.writeFile f (root ++ x) d = Some f' -> same_outside root f f'.
Proof.
  intros W. split.
  - intros p Hp. eapply readFile_writeFile_other; [eassumption|].
    intros ->. rewrite is_prefix_app in Hp. discriminate.
  - intros a H1 H2. destruct (below_root_not_above x a H1 H2).
    eapply lookup_writeFile_apart; eassumption.
Qed.

(** *** Runs that stay inside [root] *)

Lemma preserves_ret {A} (a : A) : preserves (quiet root) (ret a).
Proof. intros w o w' H. inversion H; subst. apply quiet_refl. Qed.

Lemma preserves_throw {A} e : preserves (quiet root) (@throw A e).
Proof. intros w o w' H. inversion H; subst. apply quiet_refl. Qed.

Lemma preserves_bind {A B} (m : M A) (k : A -> M B) :
  preserves (quiet root) m -> (forall a, preserves (quiet root) (k a)) ->
  preserves (quiet root) (bind m k).
Proof.
  intros Hm Hk w o w' H. unfold bind in H.
  destruct (m w) as [[a|e] w1] eqn:E.
  - eapply quiet_trans; [exact (Hm _ _ _ E) | exact (Hk a _ _ _ H)].
  - inversion H; subst. exact (Hm _ _ _ E).
Qed.

Lemma preserves_try_catch {A} (m : M A) (h : error -> M A) :
  preserves (quiet root) m -> (forall e, preserves (quiet root) (h e)) ->
  preserves (quiet root) (try_catch m h).
Proof.
  intros Hm Hh w o w' H. unfold try_catch in H.
  destruct (m w) as [[a|e] w1] eqn:E.
  - inversion H; subst. exact (Hm _ _ _ E).
  - eapply quiet_trans; [exact (Hm _ _ _ E) | exact (Hh e _ _ _ H)].
Qed.

Lemma preserves_if {A} (c : World -> bool) (m1 m2 : M A) :
  preserves (quiet root) m1 -> preserves (quiet root) m2 ->
  preserves (quiet root) (fun w => if c w then m1 w else m2 w).
Proof. intros H1 H2 w o w' H. destruct (c w); [exact (H1 _ _ _ H) | exact (H2 _ _ _ H)]. Qed.

Lemma preserves_new_Date : preserves (quiet root) new_Date.
Proof. intros w o w' H. inversion H; subst. split; [reflexivity | apply same_outside_refl]. Qed.

Lemma preserves_fs_update syscall p (f : FS.node -> option FS.node) :
  (forall g g', f g = Some g' -> same_outside root g g') ->
  preserves (quiet root) (fs_update syscall p f).
Proof.
  intros Hf w o w' H. unfold fs_update in H.
  destruct (f (fs w)) as [g'|] eqn:E; inversion H; subst.
  - split; [reflexivity | exact (Hf _ _ E)].
  - apply quiet_refl.
Qed.

End Frames.

Section EmergencyFrame.
Variable EMERGENCY_BACKUP_DIR_NORMALIZED : Path.t.
Variable cwd : Path.t.

Lemma createEmergencyBackup_quiet F :
  preserves (quiet EMERGENCY_BACKUP_DIR_NORMALIZED)
    (createEmergencyBackup EMERGENCY_BACKUP_DIR_NORMALIZED cwd F).
Proof.
  unfold createEmergencyBackup.
  apply preserves_try_catch; [|intros; apply preserves_ret].
  apply (preserves_if _ (fun w => negb (FS.existsSync (fs w) F))); [apply preserves_ret|].
  apply preserves_bind.
  { unfold ensureEmergencyBackupDir, ensureTarget.
    apply (preserves_if _ (fun w => FS.existsSync (fs w) EMERGENCY_BACKUP_DIR_NORMALIZED));
      [apply preserves_ret|].
    apply preserves_fs_update. intros g g' H.
    apply (mkdir_p_same_outside _ g [] g'). rewrite app_nil_r. exact H. }
  intros _. apply preserves_bind.
  { unfold generateTimestamp_now. apply preserves_bind; [apply preserves_new_Date|].
    intros; apply preserves_ret. }
  intros ts. apply preserves_bind.
  { apply preserves_fs_update. intros g g' H. eapply mkdir_p_same_outside; exact H. }
  intros _. apply preserves_bind.
  { apply preserves_fs_update. intros g g' H. unfold FS.copyFile in H.
    destruct (FS.readFile g F); [|discriminate].
    unfold Path.join in H. rewrite <- app_assoc in H.
    eapply writeFile_same_outside; exact H. }
  intros _. apply preserves_bind.
  { unfold createBackupMetadata. apply preserves_bind; [apply preserves_new_Date|].
    intros; apply preserves_ret. }
  intros m. apply preserves_bind.
  { apply preserves_fs_update. intros g g' H. eapply writeFile_same_outside; exact H. }
  intros _. apply preserves_ret.
Qed.

Lemma createEmergencyBackup_returns F w :
  exists o w', createEmergencyBackup EMERGENCY_BACKUP_DIR_NORMALIZED cwd F w = (Return o, w').
Proof.
  unfold createEmergencyBackup, try_catch.
  match goal with |- context [match ?x with _ => _ end] => destruct x as [[a|e] w'] end;
    eauto.
Qed.

End EmergencyFrame.

(** ** Backing up and restoring a file *)

Section Lists.

Lemma In_sort_insert {A} (cmp : A -> A -> JS.number) x y l :
  In x (JS.sort_insert cmp y l) <-> x = y \/ In x l.
Proof.
  induction l as [|z l IH]; simpl; [intuition congruence|].
  destruct (JS.sort_before cmp y z); simpl; [intuition congruence|].
  rewrite IH. intuition congruence.
Qed.

Lemma In_sort {A} (cmp : A -> A -> JS.number) x l : In x (JS.sort cmp l) <-> In x l.
Proof.
  induction l as [|y l IH]; simpl; [tauto|].
  rewrite In_sort_insert, IH. intuition congruence.
Qed.

Lemma find_unique {A} (P : A -> bool) l m :
  In m l -> P m = true -> (forall x, In x l -> P x = true -> x = m) ->
  List.find P l = Some m.
Proof.
  induction l as [|y l IH]; intros HIn HP HU; [destruct HIn|].
  simpl. destruct (P y) eqn:E.
  - f_equal. apply HU; [left; reflexivity | exact E].
  - destruct HIn as [->|HIn]; [congruence|].
    apply IH; auto. intros x Hx. apply HU. right; exact Hx.
Qed.

Lemma In_keep_some {A} (x : A) l : In x (keep_some l) <-> In (Some x) l.
Proof.
  unfold keep_some. rewrite in_flat_map. split.
  - intros ([y|] & HIn & Hx); [|destruct Hx]. destruct Hx as [->|[]]. exact HIn.
  - intros H. exists (Some x). split; [exact H | left; reflexivity].
Qed.

End Lists.

Section Stored.

Variable BACKUP_DIR_NORMALIZED : Path.t.
Variable EMERGENCY_BACKUP_DIR_NORMALIZED : Path.t.
Variable MAX_VERSIONS : Z.
Variable cwd : Path.t.
Variable minimatch : string -> string -> bool.
Variable host_Date_parse : string -> JS.number.

Variable F : Path.t.
Variable T : string.
Variable c : FS.bytes.
Variable m : BackupMetadata.

Hypothesis roots_apart_l : Path.is_prefix BACKUP_DIR_NORMALIZED EMERGENCY_BACKUP_DIR_NORMALIZED = false.
Hypothesis roots_apart_r : Path.is_prefix EMERGENCY_BACKUP_DIR_NORMALIZED BACKUP_DIR_NORMALIZED = false.
Hypothesis F_outside_store : Path.is_prefix BACKUP_DIR_NORMALIZED F = false.
Hypothesis F_outside_emergency : Path.is_prefix EMERGENCY_BACKUP_DIR_NORMALIZED F = false.
Hypothesis m_path : original_path m = F.
Hypothesis m_stamp : timestamp m = T.
Hypothesis m_backup :
  backup_path m
  = Path.join (getBackupDir BACKUP_DIR_NORMALIZED F) [getBackupFilename F T].

Abbreviation backupPath := (Path.join (getBackupDir BACKUP_DIR_NORMALIZED F) [getBackupFilename F T]).
Abbreviation metadataPath := (getBackupMetadataFilename backupPath).
Abbreviation stored := (entry_stored BACKUP_DIR_NORMALIZED F T c m).
Abbreviation Call :=
  (CallTool BACKUP_DIR_NORMALIZED EMERGENCY_BACKUP_DIR_NORMALIZED MAX_VERSIONS
            cwd minimatch host_Date_parse).
Abbreviation createEmergencyBackup' :=
  (createEmergencyBackup EMERGENCY_BACKUP_DIR_NORMALIZED cwd).
Abbreviation restoreBackup' :=
  (restoreBackup BACKUP_DIR_NORMALIZED EMERGENCY_BACKUP_DIR_NORMALIZED cwd host_Date_parse).

Lemma add_suffix_snoc l x s : Path.add_suffix (l ++ [x]) s = l ++ [x +:+ s].
Proof.
  induction l as [|a l IH]; [reflexivity|].
  change ((a :: l) ++ [x]) with (a :: (l ++ [x])).
  change ((a :: l) ++ [x +:+ s]) with (a :: (l ++ [x +:+ s])).
  rewrite <- IH. destruct l; reflexivity.
Qed.

Lemma backupPath_in_store : Path.is_prefix BACKUP_DIR_NORMALIZED backupPath = true.
Proof. unfold getBackupDir, Path.join. rewrite <- app_assoc. apply is_prefix_app. Qed.

Lemma metadataPath_in_store : Path.is_prefix BACKUP_DIR_NORMALIZED metadataPath = true.
Proof.
  unfold getBackupMetadataFilename, getBackupDir, Path.join.
  rewrite add_suffix_snoc, <- app_assoc. apply is_prefix_app.
Qed.

Lemma store_not_emergency p :
  Path.is_prefix BACKUP_DIR_NORMALIZED p = true ->
  Path.is_prefix EMERGENCY_BACKUP_DIR_NORMALIZED p = false.
Proof.
  intros H. destruct (Path.is_prefix EMERGENCY_BACKUP_DIR_NORMALIZED p) eqn:E; [|reflexivity].
  destruct (is_prefix_common _ _ _ H E); congruence.
Qed.

Lemma isFolderMetadata_payload f :
  FS.readFile f backupPath = Some c -> isFolderMetadata f m = false.
Proof.
  intros H. unfold isFolderMetadata. rewrite m_backup.
  unfold FS.isDirectory, FS.readFile in *.
  destruct (FS.lookup f backupPath) as [[?|?]|]; try discriminate.
  apply andb_false_r.
Qed.

(** The version list of [F] yields the entry [m] for the timestamp [T]. *)
Lemma stored_find f :
  stored f ->
  exists L, findBackupsByFilePath BACKUP_DIR_NORMALIZED host_Date_parse f F = Return L
            /\ List.find (hasTimestamp T) L = Some m.
Proof.
  intros (HD & HB & l & Hl & HIn & Huniq).
  unfold findBackupsByFilePath. rewrite Hl. eexists. split; [reflexivity|].
  assert (Hread : readBackupMetadata f metadataPath = Some m).
  { unfold readBackupMetadata. rewrite HD. apply parse_stringify. }
  apply find_unique.
  - apply In_sort. apply filter_In. split.
    + apply In_keep_some. rewrite <- Hread. apply in_map. exact HIn.
    + rewrite (isFolderMetadata_payload f HB), m_path. simpl.
      rewrite bool_decide_eq_true_2 by reflexivity. reflexivity.
  - unfold hasTimestamp. rewrite m_stamp. apply String.eqb_refl.
  - intros x Hx HT. apply In_sort in Hx. apply filter_In in Hx as [Hx Hf].
    apply In_keep_some in Hx. apply in_map_iff in Hx as (p & Hp & HpIn).
    apply andb_true_iff in Hf as [Ho _]. apply bool_decide_eq_true_1 in Ho.
    exact (Huniq p x HpIn Hp Ho HT).
Qed.

(** Work below the emergency root leaves the entry as it is. *)
Lemma stored_frame f f' :
  same_outside EMERGENCY_BACKUP_DIR_NORMALIZED f f' -> stored f -> stored f'.
Proof.
  intros [Hfiles Hdirs] (HD & HB & l & Hl & HIn & Huniq).
  split; [|split].
  - rewrite Hfiles; [exact HD | apply store_not_emergency, metadataPath_in_store].
  - rewrite Hfiles; [exact HB | apply store_not_emergency, backupPath_in_store].
  - exists l. split; [|split; [exact HIn|]].
    + unfold findAllBackupMetadataFiles in *.
      rewrite Hdirs by assumption. exact Hl.
    + intros p b Hp Hb. apply (Huniq p b Hp).
      unfold readBackupMetadata in *. rewrite <- Hfiles; [exact Hb|].
      apply store_not_emergency.
      unfold findAllBackupMetadataFiles in Hl.
      destruct (FS.lookup f BACKUP_DIR_NORMALIZED) as [[?|?]|]; [discriminate| |];
        injection Hl as Hl; rewrite <- Hl in Hp; [|destruct Hp].
      destruct (walk_names (FS.Dir _) _ _ Hp) as (r & -> & _). apply is_prefix_app.
Qed.

Lemma snapshot_keeps (flag : bool) (w : World) c0 :
  stored (fs w) -> FS.readFile (fs w) F = Some c0 ->
  exists w',
    (if flag return M unit then (_ <- createEmergencyBackup' F ;; ret tt) else ret tt) w
    = (Return tt, w')
    /\ operations w' = operations w
    /\ stored (fs w') /\ FS.readFile (fs w') F = Some c0.
Proof.
  intros Hs HF. destruct flag.
  - destruct (createEmergencyBackup_returns EMERGENCY_BACKUP_DIR_NORMALIZED cwd F w)
      as (o & w' & E).
    destruct (createEmergencyBackup_quiet EMERGENCY_BACKUP_DIR_NORMALIZED cwd F _ _ _ E)
      as [Hops Hsame].
    exists w'. split; [rewrite (bind_return _ _ w o w' E); reflexivity|].
    split; [exact Hops|]. split; [exact (stored_frame _ _ Hsame Hs)|].
    destruct Hsame as [Hfiles _]. rewrite Hfiles; assumption.
  - exists w. split; [reflexivity|]. split; [reflexivity|]. split; assumption.
Qed.

Lemma restoreBackup_stored flag w c0 :
  F <> [] -> stored (fs w) -> FS.readFile (fs w) F = Some c0 ->
  exists w',
    restoreBackup' F T flag w = (Return tt, w') /\ FS.readFile (fs w') F = Some c.
Proof.
  intros HF0 Hs HF. destruct (stored_find _ Hs) as (L & HL & Hfind).
  unfold restoreBackup.
  rewrite (bind_return _ _ w L w) by (unfold lift; rewrite HL; reflexivity).
  rewrite Hfind.
  destruct (snapshot_keeps flag w c0 Hs HF) as (w1 & Hrun & _ & Hs1 & HF1).
  rewrite (bind_return _ _ w tt w1) by exact Hrun.
  rewrite (bind_return _ _ w1 (fs w1) w1) by reflexivity.
  destruct Hs1 as (HD & HB & _).
  rewrite m_backup. unfold FS.existsSync. 
  assert (EB : FS.lookup (fs w1) backupPath = Some (FS.File c)).
  { unfold FS.readFile in HB. destruct (FS.lookup (fs w1) backupPath) as [[?|?]|]; congruence. }
  assert (EF : FS.lookup (fs w1) F = Some (FS.File c0)).
  { unfold FS.readFile in HF1. destruct (FS.lookup (fs w1) F) as [[?|?]|]; congruence. }
  rewrite EB, EF. cbn [negb].
  destruct (writeFile_existing (fs w1) F c0 c HF0 HF1) as [f2 W].
  exists (with_fs w1 f2). split.
  - unfold fs_update, FS.copyFile. rewrite HB, W. reflexivity.
  - exact (readFile_writeFile_same _ _ _ _ W).
Qed.

Lemma backupPath_not_nil : backupPath <> [].
Proof. unfold Path.join. intros H. apply app_eq_nil in H as [_ H]. discriminate. Qed.

(** Nothing lies below a regular file. *)
Lemma file_blocks f q c0 n :
  FS.readFile f F = Some c0 -> FS.lookup f q = Some n ->
  Path.is_prefix F q = true -> q = F.
Proof.
  intros HF Hq Hpre. apply is_prefix_spec in Hpre as [r ->].
  rewrite lookup_app in Hq. unfold FS.readFile in HF.
  destruct (FS.lookup f F) as [[d|?]|]; try discriminate.
  destruct r as [|x r]; [apply app_nil_r|].
  rewrite lookup_File_below in Hq by discriminate. discriminate.
Qed.

Lemma stored_F_not_nil f c0 : stored f -> FS.readFile f F = Some c0 -> F <> [].
Proof.
  intros (_ & HB & _) HF HF0.
  unfold FS.readFile in HB.
  destruct (FS.lookup f backupPath) as [n|] eqn:E; [|discriminate].
  apply backupPath_not_nil. rewrite (file_blocks f backupPath c0 n HF E); [exact HF0|].
  rewrite HF0. reflexivity.
Qed.

Lemma store_not_F p : Path.is_prefix BACKUP_DIR_NORMALIZED p = true -> p <> F.
Proof. intros H ->. congruence. Qed.

Lemma walk_in_store f l p :
  findAllBackupMetadataFiles f BACKUP_DIR_NORMALIZED = Return l -> In p l ->
  Path.is_prefix BACKUP_DIR_NORMALIZED p = true.
Proof.
  unfold findAllBackupMetadataFiles. intros Hl Hp.
  destruct (FS.lookup f BACKUP_DIR_NORMALIZED) as [[?|?]|]; [discriminate| |];
    injection Hl as Hl; rewrite <- Hl in Hp; [|destruct Hp].
  destruct (walk_names (FS.Dir _) _ _ Hp) as (r & -> & _). apply is_prefix_app.
Qed.

(** So does writing [F] over. *)
Lemma stored_edit f f' c0 :
  stored f -> FS.readFile f F = Some c0 -> rewritten F f f' ->
  stored f' /\ exists c1, FS.readFile f' F = Some c1.
Proof.
  intros Hs HF [->|[c' W]]; [split; [exact Hs | eauto]|].
  split; [|exists c'; exact (readFile_writeFile_same _ _ _ _ W)].
  destruct Hs as (HD & HB & l & Hl & HIn & Huniq).
  assert (Hother : forall p, Path.is_prefix BACKUP_DIR_NORMALIZED p = true ->
                             FS.readFile f' p = FS.readFile f p).
  { intros p Hp. apply (readFile_writeFile_other _ _ _ _ _ W), store_not_F, Hp. }
  assert (Hroot : FS.lookup f' BACKUP_DIR_NORMALIZED = FS.lookup f BACKUP_DIR_NORMALIZED).
  { apply (lookup_writeFile_apart _ _ _ _ _ W); [exact F_outside_store|].
    destruct (Path.is_prefix F BACKUP_DIR_NORMALIZED) eqn:E; [|reflexivity].
    exfalso. apply backupPath_not_nil.
    unfold FS.readFile in HB.
    destruct (FS.lookup f backupPath) as [n|] eqn:EB; [|discriminate].
    pose proof (file_blocks f backupPath c0 n HF EB (is_prefix_trans _ _ _ E backupPath_in_store)) as HBF.
    pose proof backupPath_in_store as HBs. rewrite HBF in HBs. congruence. }
  split; [|split].
  - rewrite Hother; [exact HD | apply metadataPath_in_store].
  - rewrite Hother; [exact HB | apply backupPath_in_store].
  - exists l. split; [|split; [exact HIn|]].
    + unfold findAllBackupMetadataFiles in *. rewrite Hroot. exact Hl.
    + intros p b Hp Hb. apply (Huniq p b Hp).
      unfold readBackupMetadata in *. rewrite <- Hother; [exact Hb|].
      exact (walk_in_store f l p Hl Hp).
Qed.

Lemma findBackupByTimestamp_stored f :
  stored f -> findBackupByTimestamp BACKUP_DIR_NORMALIZED f F T = Some m.
Proof.
  intros (HD & HB & _). unfold findBackupByTimestamp.
  change (Path.add_suffix backupPath ".meta.json") with metadataPath.
  unfold FS.existsSync, readBackupMetadata.
  rewrite HD, parse_stringify.
  unfold FS.readFile in HD. destruct (FS.lookup f metadataPath) as [[?|?]|]; try discriminate.
  rewrite (isFolderMetadata_payload f HB). reflexivity.
Qed.

(** With the entry in the store and [F] on disk the restore goes
    through and [F] holds the payload. *)
Lemma restore_stored flag w c0 :
  JS.truthy T = true -> stored (fs w) -> FS.readFile (fs w) F = Some c0 ->
  exists w2,
    Call (backup_restore (Some F) T flag) w = (JsonResponse (Restored F T), w2)
    /\ FS.readFile (fs w2) F = Some c.
Proof.
  intros HT Hs HF.
  pose proof (stored_F_not_nil _ _ Hs HF) as HF0.
  pose proof (live_registered "backup_restore" w) as Hlive.
  unfold CallTool. rewrite createOperation_eq.
  cbn [tool_name id new_operation].
  set (w0 := registered "backup_restore" w) in *.
  assert (Hdir : FS.mkdir_p (fs w0) (Path.dirname F) = Some (fs w0)).
  { assert (HL : exists n, FS.lookup (fs w) F = Some n).
    { unfold FS.readFile in HF. destruct (FS.lookup (fs w) F); [eauto|discriminate]. }
    destruct HL as [n HL].
    destruct (parent_of_existing _ _ _ HL HF0) as [items Hp].
    exact (mkdir_p_noop _ _ _ Hp). }
  destruct (snapshot_keeps flag w0 c0 Hs HF) as (w1 & Hsnap & Hops & Hs1 & HF1).
  destruct (restoreBackup_stored flag w1 c0 HF0 Hs1 HF1) as (w2 & Hrun & Hout).
  exists w2. split; [|exact Hout].
  assert (E : handle_backup_restore BACKUP_DIR_NORMALIZED EMERGENCY_BACKUP_DIR_NORMALIZED
                cwd host_Date_parse (Some (uuids w (uuid_draws w))) (Some F) T flag w0
              = (Return (JsonResponse (Restored F T)), w2)).
  { unfold handle_backup_restore. cbn [is_some or_else]. unfold Path.normalize.
    rewrite (bind_return _ _ w0 tt w0) by reflexivity.
    rewrite (bind_return _ _ w0 tt w0) by (unfold validateRequiredParam; rewrite HT; reflexivity).
    rewrite (bind_return _ _ w0 (Some m) w0)
      by (unfold lift; rewrite (findBackupByTimestamp_stored (fs w0) Hs); reflexivity).
    rewrite (bind_return _ _ w0 tt w0) by reflexivity.
    rewrite checkpoint_pass by assumption.
    rewrite (bind_return _ _ w0 tt w0)
      by (unfold ensureBackupDirectoryExists, fs_update; rewrite Hdir; destruct w; reflexivity).
    rewrite (bind_return _ _ w0 tt w0) by reflexivity.
    rewrite checkpoint_pass by assumption.
    rewrite (bind_return _ _ w0 tt w1) by exact Hsnap.
    rewrite (bind_return _ _ w1 tt w2) by exact Hrun.
    rewrite (bind_return _ _ w2 tt w2) by reflexivity.
    reflexivity. }
  rewrite E. reflexivity.
Qed.

End Stored.

Section Created.

Variable BACKUP_DIR_NORMALIZED : Path.t.
Variable EMERGENCY_BACKUP_DIR_NORMALIZED : Path.t.
Variable MAX_VERSIONS : Z.
Variable cwd : Path.t.
Variable minimatch : string -> string -> bool.
Variable host_Date_parse : string -> JS.number.

Variable F : Path.t.
Variable T : string.
Hypothesis F_outside_store : Path.is_prefix BACKUP_DIR_NORMALIZED F = false.
Hypothesis T_digit_end : is_digit_end T = true.

Abbreviation backupPath := (Path.join (getBackupDir BACKUP_DIR_NORMALIZED F) [getBackupFilename F T]).
Abbreviation metadataPath := (getBackupMetadataFilename backupPath).
Abbreviation Call :=
  (CallTool BACKUP_DIR_NORMALIZED EMERGENCY_BACKUP_DIR_NORMALIZED MAX_VERSIONS
            cwd minimatch host_Date_parse).

Lemma snoc_not_nil (a : list string) x : a ++ [x] <> [].
Proof. intros E. apply app_eq_nil in E as [_ E]. discriminate. Qed.

Lemma last_app_ne (a r : list string) d : r <> [] -> List.last (a ++ r) d = List.last r d.
Proof.
  intros Hr. induction a as [|x a IH]; [reflexivity|].
  change ((x :: a) ++ r) with (x :: (a ++ r)).
  destruct (a ++ r) eqn:E; [apply app_eq_nil in E as [_ ?]; contradiction|].
  exact IH.
Qed.

Lemma walk_last n dir p :
  In p (metadataFilesIn n dir) -> JS.endsWith (List.last p EmptyString) ".meta.json" = true.
Proof.
  intros H. destruct (walk_names n dir p H) as (r & -> & Hr & He).
  rewrite last_app_ne by exact Hr. exact He.
Qed.

Lemma payload_name_not_meta : JS.endsWith (getBackupFilename F T) ".meta.json" = false.
Proof.
  apply digit_end_not_meta. unfold getBackupFilename.
  do 3 apply is_digit_end_append. exact T_digit_end.
Qed.

Lemma backupPath_last : List.last backupPath EmptyString = getBackupFilename F T.
Proof. unfold Path.join. rewrite last_app_ne by discriminate. reflexivity. Qed.

Lemma metadataPath_eq :
  metadataPath = getBackupDir BACKUP_DIR_NORMALIZED F ++ [getBackupFilename F T +:+ ".meta.json"].
Proof. unfold getBackupMetadataFilename, Path.join. apply add_suffix_snoc. Qed.

Lemma metadataPath_last : JS.endsWith (List.last metadataPath EmptyString) ".meta.json" = true.
Proof. rewrite metadataPath_eq, last_app_ne by discriminate. apply endsWith_append. Qed.

Lemma payload_is_not_descriptor : backupPath <> metadataPath.
Proof.
  intros H. pose proof metadataPath_last as HD. rewrite <- H, backupPath_last, payload_name_not_meta in HD.
  discriminate.
Qed.

(** The three writes of a create call put the entry in the store. *)
Lemma entry_stored_after f f1 f2 f3 m c :
  (forall l p b,
     findAllBackupMetadataFiles f BACKUP_DIR_NORMALIZED = Return l -> In p l ->
     readBackupMetadata f p = Some b -> original_path b = F ->
     hasTimestamp T b = false) ->
  FS.readFile f F = Some c ->
  FS.mkdir_p f (getBackupDir BACKUP_DIR_NORMALIZED F) = Some f1 ->
  FS.writeFile f1 backupPath c = Some f2 ->
  FS.writeFile f2 metadataPath (JSON.stringify m) = Some f3 ->
  entry_stored BACKUP_DIR_NORMALIZED F T c m f3 /\ FS.readFile f3 F = Some c.
Proof.
  intros Hfresh HF Hmk HwB HwD.
  pose proof (backupPath_in_store BACKUP_DIR_NORMALIZED F T) as HBs.
  pose proof (metadataPath_in_store BACKUP_DIR_NORMALIZED F T) as HDs.
  assert (HFB : F <> backupPath) by (intros E; rewrite <- E in HBs; congruence).
  assert (HFD : F <> metadataPath) by (intros E; rewrite <- E in HDs; congruence).
  assert (HrD : FS.readFile f3 metadataPath = Some (JSON.stringify m))
    by exact (readFile_writeFile_same _ _ _ _ HwD).
  assert (HrB : FS.readFile f3 backupPath = Some c).
  { rewrite (readFile_writeFile_other _ _ _ _ _ HwD payload_is_not_descriptor).
    exact (readFile_writeFile_same _ _ _ _ HwB). }
  split.
  2:{ rewrite (readFile_writeFile_other _ _ _ _ _ HwD HFD).
      rewrite (readFile_writeFile_other _ _ _ _ _ HwB HFB).
      rewrite (readFile_mkdir_p _ _ _ _ Hmk). exact HF. }
  split; [exact HrD|]. split; [exact HrB|].
  pose (rel := Path.dirname F).
  pose (nameB := getBackupFilename F T).
  assert (EB : backupPath = BACKUP_DIR_NORMALIZED ++ (rel ++ [nameB])).
  { unfold Path.join, getBackupDir, relativeDir, Path.join, Path.normalize.
    rewrite <- app_assoc. reflexivity. }
  assert (ED : metadataPath = BACKUP_DIR_NORMALIZED ++ (rel ++ [nameB +:+ ".meta.json"])).
  { rewrite metadataPath_eq. unfold getBackupDir, relativeDir, Path.join, Path.normalize.
    rewrite <- app_assoc. reflexivity. }
  assert (H1 : exists n1, FS.lookup f1 BACKUP_DIR_NORMALIZED = Some n1
                          /\ forall p, In p (metadataFilesIn n1 BACKUP_DIR_NORMALIZED) ->
                               exists l, findAllBackupMetadataFiles f BACKUP_DIR_NORMALIZED = Return l
                                         /\ In p l).
  { unfold getBackupDir, relativeDir, Path.join, Path.normalize in Hmk.
    destruct (FS.lookup f BACKUP_DIR_NORMALIZED) as [n0|] eqn:E0.
    - destruct (mkdir_p_under _ _ _ _ _ E0 Hmk) as (n1 & Hn1 & Hl1).
      exists n1. split; [exact Hl1|]. intros p Hp.
      rewrite (mkdir_p_same_walk _ _ _ BACKUP_DIR_NORMALIZED Hn1) in Hp.
      destruct (mkdir_p_Dir _ _ _ Hn1) as [items ->].
      exists (metadataFilesIn (FS.Dir items) BACKUP_DIR_NORMALIZED).
      unfold findAllBackupMetadataFiles. rewrite E0. split; [reflexivity | exact Hp].
    - exists (FS.fresh_dirs rel). split; [exact (mkdir_p_created _ _ _ _ E0 Hmk)|].
      intros p Hp. rewrite metadataFilesIn_fresh in Hp. destruct Hp. }
  destruct H1 as (n1 & L1 & Hold).
  rewrite EB in HwB.
  destruct (writeFile_under _ _ _ _ _ _ L1 (snoc_not_nil _ _) HwB)
    as (n2 & W2 & L2).
  rewrite ED in HwD.
  destruct (writeFile_under _ _ _ _ _ _ L2 (snoc_not_nil _ _) HwD)
    as (n3 & W3 & L3).
  destruct (writeFile_is_Dir _ _ _ _ W3) as [items3 E3].
  exists (metadataFilesIn n3 BACKUP_DIR_NORMALIZED). split; [|split].
  - unfold findAllBackupMetadataFiles. rewrite L3, E3. reflexivity.
  - rewrite ED. apply walk_complete with (d := JSON.stringify m).
    + unfold FS.readFile in HrD. rewrite ED, lookup_app, L3 in HrD.
      destruct (FS.lookup n3 _) as [[?|?]|]; congruence.
    + apply snoc_not_nil.
    + rewrite last_app_ne by discriminate. apply endsWith_append.
  - intros p b Hp Hb Ho Ht.
    destruct (decide (p = metadataPath)) as [->|HpD].
    { unfold readBackupMetadata in Hb. rewrite HrD, parse_stringify in Hb. congruence. }
    exfalso.
    destruct (writeFile_walk _ _ _ _ BACKUP_DIR_NORMALIZED p W3 Hp) as [Hp2|Hp2];
      [|rewrite <- ED in Hp2; contradiction].
    assert (HpB : p <> backupPath).
    { intros ->. pose proof (walk_last _ _ _ Hp2) as Hl.
      rewrite backupPath_last, payload_name_not_meta in Hl. discriminate. }
    destruct (writeFile_walk _ _ _ _ BACKUP_DIR_NORMALIZED p W2 Hp2) as [Hp1|Hp1];
      [|rewrite <- EB in Hp1; contradiction].
    destruct (Hold p Hp1) as (l & Hl & HIn).
    assert (Hb0 : readBackupMetadata f p = Some b).
    { unfold readBackupMetadata in *.
      rewrite <- ED in HwD. rewrite <- EB in HwB.
      rewrite <- (readFile_mkdir_p _ _ _ p Hmk).
      rewrite <- (readFile_writeFile_other _ _ _ _ p HwB HpB).
      rewrite <- (readFile_writeFile_other _ _ _ _ p HwD HpD). exact Hb. }
    rewrite (Hfresh l p b Hl HIn Hb0 Ho) in Ht. discriminate.
Qed.

Lemma bind_inv {A X} (m : M A) (k : A -> M X) w r w' :
  bind m k w = (Return r, w') ->
  exists a wm, m w = (Return a, wm) /\ k a wm = (Return r, w').
Proof.
  unfold bind. destruct (m w) as [[a|e] wm]; [eauto | discriminate].
Qed.

Lemma cleanupOldBackups_untrimmed w k w' :
  cleanupOldBackups BACKUP_DIR_NORMALIZED MAX_VERSIONS host_Date_parse F w = (Return k, w') ->
  k < MAX_VERSIONS -> w' = w.
Proof.
  unfold cleanupOldBackups. intros H Hk.
  apply bind_inv in H as (L & wm & HL & H).
  unfold lift in HL. injection HL as _ <-.
  destruct (MAX_VERSIONS <? _).
  - apply bind_inv in H as (? & ? & _ & H). injection H as <- _. lia.
  - injection H as _ <-. reflexivity.
Qed.

(** A create call that answers [Created m k] with [k] under the cap has
    made the directory, copied the payload and written the descriptor,
    and nothing else. *)
Lemma create_steps w ctx m k w1 c :
  FS.readFile (fs w) F = Some c ->
  T = generateTimestamp (clock w (clock_reads w)) ->
  Call (backup_create (Some F) ctx) w = (JsonResponse (Created m k), w1) ->
  k < MAX_VERSIONS ->
  original_path m = F /\ timestamp m = T /\ backup_path m = backupPath
  /\ exists f1 f2,
       FS.mkdir_p (fs w) (getBackupDir BACKUP_DIR_NORMALIZED F) = Some f1
       /\ FS.writeFile f1 backupPath c = Some f2
       /\ FS.writeFile f2 metadataPath (JSON.stringify m) = Some (fs w1).
Proof.
  intros HF HT H Hk.
  pose proof (live_registered "backup_create" w) as Hlive.
  unfold CallTool in H. rewrite createOperation_eq in H.
  cbn [tool_name id new_operation] in H.
  set (w0 := registered "backup_create" w) in *.
  match type of H with
  | match ?run with _ => _ end = _ =>
      assert (E : run = (Return (JsonResponse (Created m k)), w1))
        by (destruct run as [[r|e] w2]; [congruence | discriminate])
  end.
  clear H. unfold handle_backup_create in E. cbn [is_some or_else] in E.
  unfold Path.normalize in E.
  rewrite (bind_return _ _ w0 tt w0) in E by reflexivity.
  rewrite (bind_return _ _ w0 tt w0) in E.
  2:{ unfold validateFileExists, FS.isFile. unfold FS.readFile in HF.
      change (fs w0) with (fs w).
      destruct (FS.lookup (fs w) F) as [[?|?]|]; try discriminate. reflexivity. }
  apply bind_inv in E as (T' & wa & Hts & E).
  unfold generateTimestamp_now, bind, new_Date, ret in Hts.
  injection Hts as HT' Hwa. change (clock w0 (clock_reads w0)) with (clock w (clock_reads w)) in HT'.
  rewrite <- HT in HT'. subst T'.
  apply bind_inv in E as ([] & wb & Hmk & E).
  unfold ensureBackupDirectoryExists, fs_update in Hmk.
  destruct (FS.mkdir_p (fs wa) _) as [f1|] eqn:Emk; [|discriminate].
  injection Hmk as Hwb.
  rewrite (bind_return _ _ wb tt wb) in E by reflexivity.
  rewrite checkpoint_pass in E by (subst wb wa; exact Hlive).
  apply bind_inv in E as ([] & wc & Hcp & E).
  unfold fs_update, FS.copyFile in Hcp.
  assert (HFb : FS.readFile (fs wb) F = Some c).
  { subst wb. cbn [fs with_fs]. rewrite (readFile_mkdir_p _ _ _ _ Emk).
    subst wa. exact HF. }
  rewrite HFb in Hcp.
  destruct (FS.writeFile (fs wb) _ c) as [f2|] eqn:EwB; [|discriminate].
  injection Hcp as Hwc.
  rewrite (bind_return _ _ wc tt wc) in E by reflexivity.
  rewrite checkpoint_pass in E by (subst wc wb wa; exact Hlive).
  apply bind_inv in E as (m0 & wd & Hmeta & E).
  unfold createBackupMetadata, bind, new_Date, ret in Hmeta.
  injection Hmeta as Hm0 Hwd.
  apply bind_inv in E as ([] & we & Hsave & E).
  unfold saveBackupMetadata, fs_update in Hsave.
  destruct (FS.writeFile (fs wd) _ _) as [f3|] eqn:EwD; [|discriminate].
  injection Hsave as Hwe.
  rewrite (bind_return _ _ we tt we) in E by reflexivity.
  apply bind_inv in E as (k' & wf & Hcl & E).
  rewrite (bind_return _ _ wf tt wf) in E by reflexivity.
  unfold ret, formatJsonResponse in E. injection E as Em Ek Ew.
  subst k'. pose proof (cleanupOldBackups_untrimmed _ _ _ Hcl Hk) as Hwf.
  subst m0. rewrite <- Em. cbn [original_path timestamp backup_path].
  split; [reflexivity|]. split; [reflexivity|]. split; [reflexivity|].
  exists f1, f2. rewrite Em. rewrite Em in EwD.
  subst w1 wf we wd wc wb wa. cbn [fs with_fs] in *.
  split; [exact Emk|]. split; [exact EwB | exact EwD].
Qed.

(** What such a call leaves behind. *)
Lemma create_stores w ctx m k w1 c :
  FS.readFile (fs w) F = Some c ->
  T = generateTimestamp (clock w (clock_reads w)) ->
  (forall l p b,
     findAllBackupMetadataFiles (fs w) BACKUP_DIR_NORMALIZED = Return l -> In p l ->
     readBackupMetadata (fs w) p = Some b -> original_path b = F ->
     hasTimestamp T b = false) ->
  Call (backup_create (Some F) ctx) w = (JsonResponse (Created m k), w1) ->
  k < MAX_VERSIONS ->
  original_path m = F /\ timestamp m = T /\ backup_path m = backupPath
  /\ entry_stored BACKUP_DIR_NORMALIZED F T c m (fs w1)
  /\ FS.readFile (fs w1) F = Some c.
Proof.
  intros HF HT Hfresh H Hk.
  destruct (create_steps w ctx m k w1 c HF HT H Hk)
    as (Ho & Ht & Hb & f1 & f2 & Hmk & HwB & HwD).
  split; [exact Ho|]. split; [exact Ht|]. split; [exact Hb|].
  exact (entry_stored_after _ _ _ _ m c Hfresh HF Hmk HwB HwD).
Qed.

End Created.

Section RoundTrip.

Variable BACKUP_DIR_NORMALIZED : Path.t.
Variable EMERGENCY_BACKUP_DIR_NORMALIZED : Path.t.
Variable MAX_VERSIONS : Z.
Variable cwd : Path.t.
Variable minimatch : string -> string -> bool.
Variable host_Date_parse : string -> JS.number.

Abbreviation Call :=
  (CallTool BACKUP_DIR_NORMALIZED EMERGENCY_BACKUP_DIR_NORMALIZED MAX_VERSIONS
            cwd minimatch host_Date_parse).


End RoundTrip.

(** ** What a run of the engine can change

    A relation between the file systems and the operation tables before
    and after a run is kept by a handler when every step of the handler
    keeps it. *)

Section Keeps.

Variable Rf : FS.node -> FS.node -> Prop.
Variable Ro : gmap string Operation -> gmap string Operation -> Prop.
Hypothesis Rf_refl : forall f, Rf f f.
Hypothesis Rf_trans : forall f g h, Rf f g -> Rf g h -> Rf f h.
Hypothesis Ro_refl : forall o, Ro o o.
Hypothesis Ro_trans : forall o p q, Ro o p -> Ro p q -> Ro o q.

Abbreviation R := (both Rf Ro).

Lemma both_refl w : R w w.
Proof. split; [apply Rf_refl | apply Ro_refl]. Qed.

Lemma both_trans a b c : R a b -> R b c -> R a c.
Proof. intros [A1 B1] [A2 B2]. split; [eapply Rf_trans | eapply Ro_trans]; eassumption. Qed.

Lemma keeps_ret {A} (a : A) : preserves R (ret a).
Proof. intros w o w' H. inversion H; subst. apply both_refl. Qed.

Lemma keeps_throw {A} e : preserves R (@throw A e).
Proof. intros w o w' H. inversion H; subst. apply both_refl. Qed.

Lemma keeps_bind {A B} (m : M A) (k : A -> M B) :
  preserves R m -> (forall a, preserves R (k a)) -> preserves R (bind m k).
Proof.
  intros Hm Hk w o w' H. unfold bind in H.
  destruct (m w) as [[a|e] w1] eqn:E.
  - eapply both_trans; [exact (Hm _ _ _ E) | exact (Hk a _ _ _ H)].
  - inversion H; subst. exact (Hm _ _ _ E).
Qed.

Lemma keeps_try_catch {A} (m : M A) (h : error -> M A) :
  preserves R m -> (forall e, preserves R (h e)) -> preserves R (try_catch m h).
Proof.
  intros Hm Hh w o w' H. unfold try_catch in H.
  destruct (m w) as [[a|e] w1] eqn:E.
  - inversion H; subst. exact (Hm _ _ _ E).
  - eapply both_trans; [exact (Hm _ _ _ E) | exact (Hh e _ _ _ H)].
Qed.

Lemma keeps_cond {A} (c : World -> bool) (m1 m2 : M A) :
  preserves R m1 -> preserves R m2 ->
  preserves R (fun w => if c w then m1 w else m2 w).
Proof. intros H1 H2 w o w' H. destruct (c w); [exact (H1 _ _ _ H) | exact (H2 _ _ _ H)]. Qed.

Lemma keeps_new_Date : preserves R new_Date.
Proof. intros w o w' H. inversion H; subst. split; [apply Rf_refl | apply Ro_refl]. Qed.

Lemma keeps_lift {A} (q : FS.node -> outcome A) : preserves R (lift q).
Proof. intros w o w' H. inversion H; subst. apply both_refl. Qed.

Lemma keeps_get_fs : preserves R get_fs.
Proof. intros w o w' H. inversion H; subst. apply both_refl. Qed.

Lemma keeps_logProgress n : preserves R (logProgress n).
Proof. apply keeps_ret. Qed.

Lemma keeps_validateRequiredParam s b : preserves R (validateRequiredParam s b).
Proof. destruct b; [apply keeps_ret | apply keeps_throw]. Qed.

Lemma keeps_validateFileExists p : preserves R (validateFileExists p).
Proof.
  intros w o w' H. unfold validateFileExists in H.
  destruct (FS.isFile (fs w) p); inversion H; subst; apply both_refl.
Qed.

Lemma keeps_validateFolderExists p : preserves R (validateFolderExists p).
Proof.
  intros w o w' H. unfold validateFolderExists in H.
  destruct (FS.isDirectory (fs w) p); inversion H; subst; apply both_refl.
Qed.

Lemma keeps_fs_update syscall p (f : FS.node -> option FS.node) :
  (forall g g', f g = Some g' -> Rf g g') -> preserves R (fs_update syscall p f).
Proof.
  intros Hf w o w' H. unfold fs_update in H.
  destruct (f (fs w)) as [g'|] eqn:E; inversion H; subst.
  - split; [exact (Hf _ _ E) | apply Ro_refl].
  - apply both_refl.
Qed.

Lemma keeps_generateTimestamp_now : preserves R generateTimestamp_now.
Proof.
  unfold generateTimestamp_now. apply keeps_bind; [apply keeps_new_Date|].
  intros; apply keeps_ret.
Qed.

Lemma keeps_createBackupMetadata cwd p ts b ctx :
  preserves R (createBackupMetadata cwd p ts b ctx).
Proof.
  unfold createBackupMetadata. apply keeps_bind; [apply keeps_new_Date|].
  intros; apply keeps_ret.
Qed.

Lemma keeps_checkpoint i clean (k : M response) :
  preserves R clean -> preserves R k -> preserves R (checkpoint i clean k).
Proof.
  intros Hc Hk. unfold checkpoint. apply keeps_bind.
  - intros w o w' H. unfold checkOperationCancelled in H.
    destruct i as [i|]; [|inversion H; subst; apply both_refl].
    destruct (JS.truthy i && _); [|inversion H; subst; apply both_refl].
    revert H. apply keeps_bind; [exact Hc | intros; apply keeps_ret].
  - intros [r|]; [apply keeps_ret | exact Hk].
Qed.

Lemma keeps_forEach {A} (l : list A) (body : A -> M unit) :
  (forall x, In x l -> preserves R (body x)) -> preserves R (forEach l body).
Proof.
  induction l as [|x l IH]; intros H; [apply keeps_ret|].
  simpl. apply keeps_bind; [apply H; left; reflexivity|].
  intros _. apply IH. intros y Hy. apply H. right; exact Hy.
Qed.

Lemma keeps_ensureTarget p :
  (forall g g', FS.mkdir_p g p = Some g' -> Rf g g') -> preserves R (ensureTarget p).
Proof.
  intros H. unfold ensureTarget.
  apply (keeps_cond (fun w => FS.existsSync (fs w) p)); [apply keeps_ret|].
  apply keeps_fs_update. exact H.
Qed.

Lemma keeps_copyEntries mm inc exc
    (copy : FS.node -> Path.t -> Path.t -> M unit) sp tp (entries : FS.items_t) :
  (forall name entry, In (name, entry) entries ->
     preserves R (copy entry (Path.join sp [name]) (Path.join tp [name]))) ->
  (forall name d g g', FS.writeFile g (Path.join tp [name]) d = Some g' -> Rf g g') ->
  preserves R (copyEntries mm copy sp tp inc exc entries).
Proof.
  intros Hcopy Hw. induction entries as [|[name entry] rest IH]; [apply keeps_ret|].
  simpl. destruct (skipped mm name inc exc).
  - apply IH. intros n e Hin. apply Hcopy. right; exact Hin.
  - apply keeps_bind.
    + destruct entry as [d|items].
      * apply keeps_fs_update. intros g g'. apply Hw.
      * apply Hcopy. left; reflexivity.
    + intros _. apply IH. intros n e Hin. apply Hcopy. right; exact Hin.
Qed.

Lemma keeps_copyTree mm inc exc (src : FS.node) : forall sp tp,
  (forall x g g', FS.mkdir_p g (tp ++ x) = Some g' -> Rf g g') ->
  (forall x d g g', FS.writeFile g (tp ++ x) d = Some g' -> Rf g g') ->
  preserves R (copyTree mm src sp tp inc exc).
Proof.
  induction src as [d|items IH] using node_induction; intros sp tp Hm Hw.
  - simpl. apply keeps_bind; [|intros; apply keeps_throw].
    apply keeps_ensureTarget. intros g g' H. apply (Hm [] g g'). rewrite app_nil_r. exact H.
  - simpl. apply keeps_bind.
    { apply keeps_ensureTarget. intros g g' H. apply (Hm [] g g'). rewrite app_nil_r. exact H. }
    intros _. apply keeps_copyEntries.
    + intros name entry Hin. rewrite List.Forall_forall in IH.
      apply (IH (name, entry) Hin); unfold Path.join.
      * intros x g g' H. rewrite <- app_assoc in H. exact (Hm _ _ _ H).
      * intros x d g g' H. rewrite <- app_assoc in H. exact (Hw _ _ _ _ H).
    + intros name d g g' H. exact (Hw _ _ _ _ H).
Qed.

Lemma keeps_copyFolderContents mm inc exc sp tp :
  (forall x g g', FS.mkdir_p g (tp ++ x) = Some g' -> Rf g g') ->
  (forall x d g g', FS.writeFile g (tp ++ x) d = Some g' -> Rf g g') ->
  preserves R (copyFolderContents mm sp tp inc exc).
Proof.
  intros Hm Hw. unfold copyFolderContents. apply keeps_bind.
  { apply keeps_fs_update. intros g g' H. apply (Hm [] g g'). rewrite app_nil_r. exact H. }
  intros _. unfold copyFolderRecursive. intros w o w' H.
  destruct (FS.lookup (fs w) sp) as [src|].
  - exact (keeps_copyTree mm inc exc src sp tp Hm Hw _ _ _ H).
  - revert H. apply keeps_bind; [|intros; apply keeps_throw].
    apply keeps_ensureTarget. intros g g' H. apply (Hm [] g g'). rewrite app_nil_r. exact H.
Qed.

End Keeps.

(** One step through a handler, side conditions solved by [pre]. *)
Ltac keeps_step pre :=
  first
    [ apply keeps_ret | apply keeps_throw | apply keeps_logProgress
    | apply keeps_lift | apply keeps_get_fs | apply keeps_new_Date
    | apply keeps_validateRequiredParam | apply keeps_validateFileExists
    | apply keeps_validateFolderExists | apply keeps_generateTimestamp_now
    | apply keeps_createBackupMetadata
    | apply keeps_checkpoint | apply keeps_fs_update | apply keeps_ensureTarget
    | apply keeps_copyFolderContents | apply keeps_forEach
    | apply keeps_try_catch | apply keeps_bind
    | match goal with
      | |- preserves _ (match ?x with _ => _ end) => destruct x
      end ];
  try pre.

(** All the way through, [known] tried first at every step. *)
Ltac keeps_go pre known :=
  repeat first
    [ known
    | match goal with |- preserves _ _ => keeps_step pre end
    | match goal with
      | |- preserves _ _ => fail 1
      | |- _ => first [exact I | intro]
      end ].

(** ** The files a call can touch *)

Section Footprints.

Variable BACKUP_DIR_NORMALIZED : Path.t.
Variable EMERGENCY_BACKUP_DIR_NORMALIZED : Path.t.
Variable MAX_VERSIONS : Z.
Variable cwd : Path.t.
Variable minimatch : string -> string -> bool.
Variable host_Date_parse : string -> JS.number.

Abbreviation Call :=
  (CallTool BACKUP_DIR_NORMALIZED EMERGENCY_BACKUP_DIR_NORMALIZED MAX_VERSIONS
            cwd minimatch host_Date_parse).

Lemma unchanged_but_refl touch f : unchanged_but touch f f.
Proof. intros p _. reflexivity. Qed.

Lemma unchanged_but_trans touch f g h :
  unchanged_but touch f g -> unchanged_but touch g h -> unchanged_but touch f h.
Proof. intros A B p Hp. rewrite (B p Hp). exact (A p Hp). Qed.

Lemma any_table_refl o : any_table o o.
Proof. exact I. Qed.

Lemma any_table_trans o p q : any_table o p -> any_table p q -> any_table o q.
Proof. intros _ _. exact I. Qed.

Lemma unchanged_mkdir_p touch g d g' : FS.mkdir_p g d = Some g' -> unchanged_but touch g g'.
Proof. intros H p _. exact (readFile_mkdir_p _ _ _ p H). Qed.

Lemma unchanged_writeFile (touch : Path.t -> bool) g q d g' :
  touch q = true -> FS.writeFile g q d = Some g' -> unchanged_but touch g g'.
Proof.
  intros Hq H p Hp. apply (readFile_writeFile_other _ _ _ _ _ H).
  intros ->. congruence.
Qed.

Lemma unchanged_copyFile (touch : Path.t -> bool) g s q g' :
  touch q = true -> FS.copyFile g s q = Some g' -> unchanged_but touch g g'.
Proof.
  unfold FS.copyFile. intros Hq H. destruct (FS.readFile g s); [|discriminate].
  exact (unchanged_writeFile touch _ _ _ _ Hq H).
Qed.

(** A run that stays inside [root] changes no file [touch] leaves out,
    when [touch] covers [root]. *)
Lemma quiet_unchanged {A} root (touch : Path.t -> bool) (m : M A) :
  (forall p, touch p = false -> Path.is_prefix root p = false) ->
  preserves (quiet root) m -> preserves (both (unchanged_but touch) any_table) m.
Proof.
  intros Ht Hm w o w' H. destruct (Hm _ _ _ H) as [_ [Hfiles _]].
  split; [|exact I]. intros p Hp. apply Hfiles, Ht, Hp.
Qed.

Abbreviation frame touch := (preserves (both (unchanged_but touch) any_table)).

Ltac frame_pre :=
  first [ exact (unchanged_but_refl _) | exact (unchanged_but_trans _)
        | exact any_table_refl | exact any_table_trans ].
Ltac frame_bind := apply keeps_bind; try frame_pre.
Ltac frame_ret :=
  first [ apply keeps_ret | apply keeps_throw | apply keeps_logProgress
        | apply keeps_lift | apply keeps_get_fs | apply keeps_new_Date
        | apply keeps_validateRequiredParam | apply keeps_validateFileExists
        | apply keeps_validateFolderExists | apply keeps_generateTimestamp_now
        | apply keeps_createBackupMetadata ]; try frame_pre.
Ltac frame_checkpoint := apply keeps_checkpoint; try frame_pre.
Ltac frame_update := apply keeps_fs_update; try frame_pre.

Lemma frame_createOperation touch ty : frame touch (createOperation ty).
Proof.
  intros w o w' H. unfold createOperation, bind, randomUUID in H.
  inversion H; subst. split; [apply unchanged_but_refl | exact I].
Qed.

Lemma frame_setStatus touch i s : frame touch (setStatus i s).
Proof.
  intros w o w' H. unfold setStatus in H.
  destruct i as [i|]; [destruct (operations w !! i)|]; inversion H; subst;
    (split; [apply unchanged_but_refl | exact I]).
Qed.

Lemma frame_cancelOperation touch i : frame touch (cancelOperation i).
Proof.
  intros w o w' H. unfold cancelOperation in H.
  destruct (operations w !! i); inversion H; subst;
    (split; [apply unchanged_but_refl | exact I]).
Qed.

(** What [CallTool] adds around a handler. *)
Lemma frame_CallTool touch req :
  (forall i,
     frame touch
       match req with
       | backup_create file_path agent_context =>
           handle_backup_create BACKUP_DIR_NORMALIZED MAX_VERSIONS cwd host_Date_parse
             i file_path agent_context
       | backup_list file_path =>
           handle_backup_list BACKUP_DIR_NORMALIZED host_Date_parse file_path
       | backup_restore file_path timestamp create_emergency_backup =>
           handle_backup_restore BACKUP_DIR_NORMALIZED EMERGENCY_BACKUP_DIR_NORMALIZED
             cwd host_Date_parse i file_path timestamp create_emergency_backup
       | backup_folder_create folder_path include_pattern exclude_pattern agent_context =>
           handle_backup_folder_create BACKUP_DIR_NORMALIZED MAX_VERSIONS cwd minimatch
             host_Date_parse i folder_path include_pattern exclude_pattern agent_context
       | backup_folder_list folder_path =>
           handle_backup_folder_list BACKUP_DIR_NORMALIZED folder_path
       | backup_folder_restore folder_path timestamp create_emergency_backup =>
           handle_backup_folder_restore BACKUP_DIR_NORMALIZED
             EMERGENCY_BACKUP_DIR_NORMALIZED cwd minimatch i folder_path timestamp
             create_emergency_backup
       | mcp_cancel operationId => handle_mcp_cancel operationId
       end) ->
  forall w p, touch p = false ->
    FS.readFile (fs (snd (Call req w))) p = FS.readFile (fs w) p.
Proof.
  intros Hrun w p Hp. unfold CallTool.
  destruct (createOperation (tool_name req) w) as [created w1] eqn:E1.
  destruct (frame_createOperation touch _ _ _ _ E1) as [F1 _].
  match goal with
  | |- context [match ?run w1 with _ => _ end] => destruct (run w1) as [[r|e] w2] eqn:E2
  end; destruct (Hrun _ _ _ _ E2) as [F2 _]; simpl;
    rewrite (F2 p Hp); exact (F1 p Hp).
Qed.

Lemma frame_emergency touch F :
  (forall p, touch p = false -> Path.is_prefix EMERGENCY_BACKUP_DIR_NORMALIZED p = false) ->
  frame touch (createEmergencyBackup EMERGENCY_BACKUP_DIR_NORMALIZED cwd F).
Proof.
  intros Ht. apply (quiet_unchanged EMERGENCY_BACKUP_DIR_NORMALIZED touch _ Ht).
  apply createEmergencyBackup_quiet.
Qed.

Lemma frame_snapshot_if touch (flag : bool) F :
  (flag = true ->
   forall p, touch p = false -> Path.is_prefix EMERGENCY_BACKUP_DIR_NORMALIZED p = false) ->
  frame touch
    (if flag
     then (_ <- createEmergencyBackup EMERGENCY_BACKUP_DIR_NORMALIZED cwd F ;; ret tt)
     else ret tt).
Proof.
  intros Ht. destruct flag; [|frame_ret].
  frame_bind; [apply frame_emergency, Ht; reflexivity | intros; frame_ret].
Qed.

Lemma frame_restoreBackup touch F T flag :
  touch F = true ->
  (flag = true ->
   forall p, touch p = false -> Path.is_prefix EMERGENCY_BACKUP_DIR_NORMALIZED p = false) ->
  frame touch
    (restoreBackup BACKUP_DIR_NORMALIZED EMERGENCY_BACKUP_DIR_NORMALIZED cwd
       host_Date_parse F T flag).
Proof.
  intros HF Ht. unfold restoreBackup. frame_bind; [frame_ret|]. intros backups.
  destruct (List.find _ backups) as [b|]; [|frame_ret].
  frame_bind; [apply frame_snapshot_if; exact Ht|]. intros _.
  frame_bind; [frame_ret|]. intros f.
  destruct (negb (FS.existsSync f (backup_path b))); [frame_ret|].
  destruct (negb (FS.existsSync f F)); [frame_ret|].
  frame_update. intros g g'. apply unchanged_copyFile. exact HF.
Qed.

Lemma frame_handle_backup_restore touch i F T flag :
  touch F = true ->
  (flag = true ->
   forall p, touch p = false -> Path.is_prefix EMERGENCY_BACKUP_DIR_NORMALIZED p = false) ->
  frame touch
    (handle_backup_restore BACKUP_DIR_NORMALIZED EMERGENCY_BACKUP_DIR_NORMALIZED
       cwd host_Date_parse i (Some F) T flag).
Proof.
  intros HF Ht. unfold handle_backup_restore. cbn [is_some or_else]. unfold Path.normalize.
  frame_bind; [frame_ret|]. intros _.
  frame_bind; [frame_ret|]. intros _.
  frame_bind; [frame_ret|]. intros [b|]; [|frame_ret].
  frame_bind; [frame_ret|]. intros _.
  frame_checkpoint; [frame_ret|].
  frame_bind.
  { unfold ensureBackupDirectoryExists. frame_update. intros g g'. apply unchanged_mkdir_p. }
  intros _. frame_bind; [frame_ret|]. intros _.
  frame_checkpoint; [frame_ret|].
  frame_bind; [apply frame_snapshot_if; exact Ht|]. intros _.
  frame_bind; [apply frame_restoreBackup; assumption|]. intros _.
  frame_bind; [frame_ret | intros; frame_ret].
Qed.

(** X1: [backup_restore] changes the content of no file but the one it
    restores and, when it takes an emergency snapshot, files of the
    emergency store: every other path reads after the call as it read
    before, whatever the call answers. *)
Theorem restore_touches_only_its_target (w : World) (F : Path.t) (T : string)
    (make_emergency : bool) (p : Path.t) :
  p <> F ->
  (make_emergency = true -> Path.is_prefix EMERGENCY_BACKUP_DIR_NORMALIZED p = false) ->
  FS.readFile (fs (snd (Call (backup_restore (Some F) T make_emergency) w))) p
  = FS.readFile (fs w) p.
Proof.
  intros HpF Hp.
  apply (frame_CallTool
           (fun q => bool_decide (q = F)
                     || (make_emergency && Path.is_prefix EMERGENCY_BACKUP_DIR_NORMALIZED q))).
  - intros i. apply frame_handle_backup_restore.
    + rewrite bool_decide_eq_true_2 by reflexivity. reflexivity.
    + intros -> q Hq. apply orb_false_iff in Hq as [_ Hq]. exact Hq.
  - rewrite bool_decide_eq_false_2 by exact HpF.
    destruct make_emergency; [rewrite Hp; reflexivity | reflexivity].
Qed.

Lemma same_table_refl o : same_table o o.
Proof. reflexivity. Qed.

Lemma same_table_trans o p q : same_table o p -> same_table p q -> same_table o q.
Proof. unfold same_table. congruence. Qed.

Ltac quiet_pre root :=
  first [ exact (same_outside_refl root) | exact (same_outside_trans root)
        | exact same_table_refl | exact same_table_trans ].

Lemma createEmergencyFolderBackup_confined P :
  preserves (both (same_outside EMERGENCY_BACKUP_DIR_NORMALIZED) same_table)
    (createEmergencyFolderBackup EMERGENCY_BACKUP_DIR_NORMALIZED cwd minimatch P).
Proof.
  set (root := EMERGENCY_BACKUP_DIR_NORMALIZED).
  assert (Hm : forall x g g', FS.mkdir_p g (root ++ x) = Some g' -> same_outside root g g')
    by (intros x g g'; apply mkdir_p_same_outside).
  assert (Hw : forall x d g g', FS.writeFile g (root ++ x) d = Some g' -> same_outside root g g')
    by (intros x d g g'; apply writeFile_same_outside).
  unfold createEmergencyFolderBackup.
  apply keeps_try_catch; try quiet_pre root;
    [|intros; apply keeps_ret; quiet_pre root].
  apply (keeps_cond _ _ (fun w => negb (FS.existsSync (fs w) P)));
    [apply keeps_ret; quiet_pre root|].
  apply keeps_bind; try quiet_pre root.
  { unfold ensureEmergencyBackupDir. apply keeps_ensureTarget; try quiet_pre root.
    intros g g' H. apply (Hm [] g g'). rewrite app_nil_r. exact H. }
  intros _. apply keeps_bind; try quiet_pre root.
  { apply keeps_generateTimestamp_now; quiet_pre root. }
  intros ts. apply keeps_bind; try quiet_pre root.
  { apply keeps_fs_update; try quiet_pre root. intros g g'. apply Hm. }
  intros _. apply keeps_bind; try quiet_pre root.
  { apply keeps_copyFolderContents; try quiet_pre root; unfold Path.join.
    - intros x g g' H. rewrite <- !app_assoc in H. exact (Hm _ _ _ H).
    - intros x d g g' H. rewrite <- !app_assoc in H. exact (Hw _ _ _ _ H). }
  intros _. apply keeps_bind; try quiet_pre root;
    [apply keeps_new_Date; quiet_pre root|].
  intros now. apply keeps_bind; try quiet_pre root;
    [|intros; apply keeps_ret; quiet_pre root].
  apply keeps_fs_update; try quiet_pre root. intros g g'. apply Hw.
Qed.

Lemma createEmergencyFolderBackup_returns P w :
  exists o w',
    createEmergencyFolderBackup EMERGENCY_BACKUP_DIR_NORMALIZED cwd minimatch P w
    = (Return o, w').
Proof.
  unfold createEmergencyFolderBackup, try_catch.
  match goal with |- context [match ?x with _ => _ end] => destruct x as [[a|e] w'] end;
    eauto.
Qed.

Lemma confined_unchanged {A} (touch : Path.t -> bool) (m : M A) :
  (forall p, touch p = false -> Path.is_prefix EMERGENCY_BACKUP_DIR_NORMALIZED p = false) ->
  preserves (both (same_outside EMERGENCY_BACKUP_DIR_NORMALIZED) same_table) m ->
  frame touch m.
Proof.
  intros Ht Hm w o w' H. destruct (Hm _ _ _ H) as [[Hfiles _] _].
  split; [|exact I]. intros p Hp. apply Hfiles, Ht, Hp.
Qed.

Lemma frame_copyFolderContents (touch : Path.t -> bool) inc exc sp tp :
  (forall x, touch (tp ++ x) = true) ->
  frame touch (copyFolderContents minimatch sp tp inc exc).
Proof.
  intros Ht. apply keeps_copyFolderContents; try frame_pre.
  - intros x g g'. apply unchanged_mkdir_p.
  - intros x d g g'. apply unchanged_writeFile, Ht.
Qed.

Lemma frame_handle_backup_folder_restore touch i P T flag :
  (forall x, touch (P ++ x) = true) ->
  (or_else flag true = true ->
   forall p, touch p = false -> Path.is_prefix EMERGENCY_BACKUP_DIR_NORMALIZED p = false) ->
  frame touch
    (handle_backup_folder_restore BACKUP_DIR_NORMALIZED EMERGENCY_BACKUP_DIR_NORMALIZED
       cwd minimatch i (Some P) T flag).
Proof.
  intros HP Ht. unfold handle_backup_folder_restore. cbn [is_some]. unfold Path.normalize.
  change (or_else (Some P) []) with P.
  frame_bind; [frame_ret|]. intros _.
  frame_bind; [frame_ret|]. intros _.
  frame_bind; [frame_ret|]. intros _.
  frame_bind; [frame_ret|]. intros _.
  apply keeps_try_catch; try frame_pre.
  2:{ intros e. frame_bind; [apply frame_setStatus | intros; frame_ret]. }
  frame_bind; [frame_ret|]. intros backups.
  destruct (List.find _ backups) as [b|]; [|frame_ret].
  frame_bind; [frame_ret|]. intros _.
  frame_bind.
  { destruct (or_else flag true); [|frame_ret].
    apply confined_unchanged; [apply Ht; reflexivity|].
    apply createEmergencyFolderBackup_confined. }
  intros e. frame_bind; [frame_ret|]. intros f.
  destruct (negb (FS.existsSync f (backup_path b))); [frame_ret|].
  frame_checkpoint; [frame_ret|].
  frame_bind; [apply frame_copyFolderContents; exact HP|]. intros _.
  frame_bind; [frame_ret | intros; frame_ret].
Qed.

(** X2: [backup_folder_restore] changes the content of no file outside the
    folder it restores and, when it takes an emergency snapshot (the
    default), outside the emergency store. *)
Theorem folder_restore_stays_in_its_folder (w : World) (P : Path.t) (T : string)
    (make_emergency : option bool) (p : Path.t) :
  Path.is_prefix P p = false ->
  (or_else make_emergency true = true ->
   Path.is_prefix EMERGENCY_BACKUP_DIR_NORMALIZED p = false) ->
  FS.readFile (fs (snd (Call (backup_folder_restore (Some P) T make_emergency) w))) p
  = FS.readFile (fs w) p.
Proof.
  intros HpP Hp.
  apply (frame_CallTool
           (fun q => Path.is_prefix P q
                     || (or_else make_emergency true
                         && Path.is_prefix EMERGENCY_BACKUP_DIR_NORMALIZED q))).
  - intros i. apply frame_handle_backup_folder_restore.
    + intros x. rewrite is_prefix_app. reflexivity.
    + intros E q Hq. apply orb_false_iff in Hq as [_ Hq]. rewrite E in Hq. exact Hq.
  - rewrite HpP. destruct (or_else make_emergency true); [rewrite Hp; reflexivity | reflexivity].
Qed.

(** X4: The two emergency snapshots never throw, leave the operation table
    alone and change nothing outside the emergency store; of a path that
    does not exist no snapshot is taken. *)
Theorem emergency_snapshots_are_confined (w : World) (P : Path.t) :
  (exists o w',
     createEmergencyBackup EMERGENCY_BACKUP_DIR_NORMALIZED cwd P w = (Return o, w')
     /\ quiet EMERGENCY_BACKUP_DIR_NORMALIZED w w'
     /\ (FS.existsSync (fs w) P = false -> o = None /\ w' = w))
  /\
  (exists o w',
     createEmergencyFolderBackup EMERGENCY_BACKUP_DIR_NORMALIZED cwd minimatch P w
     = (Return o, w')
     /\ quiet EMERGENCY_BACKUP_DIR_NORMALIZED w w'
     /\ (FS.existsSync (fs w) P = false -> o = None /\ w' = w)).
Proof.
  split.
  - destruct (createEmergencyBackup_returns EMERGENCY_BACKUP_DIR_NORMALIZED cwd P w)
      as (o & w' & E).
    exists o, w'. split; [exact E|]. split.
    + exact (createEmergencyBackup_quiet _ _ _ _ _ _ E).
    + intros Hmiss. unfold createEmergencyBackup, try_catch in E.
      rewrite Hmiss in E. simpl in E. inversion E. split; reflexivity.
  - destruct (createEmergencyFolderBackup_returns P w) as (o & w' & E).
    exists o, w'. split; [exact E|]. split.
    + destruct (createEmergencyFolderBackup_confined P _ _ _ E) as [Hf Ho].
      split; [exact Ho | exact Hf].
    + intros Hmiss. unfold createEmergencyFolderBackup, try_catch in E.
      rewrite Hmiss in E. simpl in E. inversion E. split; reflexivity.
Qed.

End Footprints.

(** ** The operation table *)

Section Table.

Variable BACKUP_DIR_NORMALIZED : Path.t.
Variable EMERGENCY_BACKUP_DIR_NORMALIZED : Path.t.
Variable MAX_VERSIONS : Z.
Variable cwd : Path.t.
Variable minimatch : string -> string -> bool.
Variable host_Date_parse : string -> JS.number.

Abbreviation Call :=
  (CallTool BACKUP_DIR_NORMALIZED EMERGENCY_BACKUP_DIR_NORMALIZED MAX_VERSIONS
            cwd minimatch host_Date_parse).

Lemma any_files_refl f : any_files f f.
Proof. exact I. Qed.

Lemma any_files_trans f g h : any_files f g -> any_files g h -> any_files f h.
Proof. intros _ _. exact I. Qed.

Lemma only_status_at_refl i o : only_status_at i o o.
Proof. intros j. left; reflexivity. Qed.

Lemma only_status_at_trans i o p q :
  only_status_at i o p -> only_status_at i p q -> only_status_at i o q.
Proof.
  intros A B j. destruct (A j) as [Ea|(Hi & op & s & Ho & Hp)];
    destruct (B j) as [Eb|(Hi' & op' & s' & Hp' & Hq)].
  - left. congruence.
  - right. split; [exact Hi'|]. exists op', s'. split; congruence.
  - right. split; [exact Hi|]. exists op, s. split; congruence.
  - right. split; [exact Hi|]. exists op, s'. split; [exact Ho|].
    rewrite Hq. rewrite Hp in Hp'. injection Hp' as <-. reflexivity.
Qed.

Ltac table_pre :=
  first [ exact any_files_refl | exact any_files_trans
        | exact (only_status_at_refl _) | exact (only_status_at_trans _) ].

Ltac table_go := keeps_go table_pre fail.

Abbreviation table i := (preserves (both any_files (only_status_at i))).

Lemma table_quiet {A} i root (m : M A) : preserves (quiet root) m -> table i m.
Proof.
  intros Hm w o w' H. destruct (Hm _ _ _ H) as [Ho _].
  split; [exact I|]. rewrite Ho. apply only_status_at_refl.
Qed.

Lemma table_confined {A} i root (m : M A) :
  preserves (both (same_outside root) same_table) m -> table i m.
Proof.
  intros Hm w o w' H. destruct (Hm _ _ _ H) as [_ Ho].
  split; [exact I|]. rewrite Ho. apply only_status_at_refl.
Qed.

Lemma table_setStatus i s : table i (setStatus i s).
Proof.
  intros w o w' H. unfold setStatus in H. split; [exact I|].
  destruct i as [i|]; [destruct (operations w !! i) as [op|] eqn:E|];
    inversion H; subst; try apply only_status_at_refl.
  cbn [operations with_operations]. intros j. destruct (decide (j = i)) as [->|Hj].
  - right. split; [reflexivity|]. exists op, s. split; [exact E|].
    rewrite lookup_insert_eq. reflexivity.
  - left. rewrite lookup_insert_ne by congruence. reflexivity.
Qed.

Lemma table_cleanupOldBackups i F :
  table i (cleanupOldBackups BACKUP_DIR_NORMALIZED MAX_VERSIONS host_Date_parse F).
Proof. unfold cleanupOldBackups, removeOldBackup. table_go. Qed.

Lemma table_handle_backup_create i fp ctx :
  table i (handle_backup_create BACKUP_DIR_NORMALIZED MAX_VERSIONS cwd host_Date_parse
             i fp ctx).
Proof.
  unfold handle_backup_create, ensureBackupDirectoryExists, saveBackupMetadata.
  table_go.
  apply (keeps_cond _ _ (fun w => FS.existsSync (fs w) _)); table_go.
Qed.

Lemma table_handle_backup_list i fp :
  table i (handle_backup_list BACKUP_DIR_NORMALIZED host_Date_parse fp).
Proof. unfold handle_backup_list. table_go. Qed.

Lemma table_handle_backup_folder_list i fp :
  table i (handle_backup_folder_list BACKUP_DIR_NORMALIZED fp).
Proof. unfold handle_backup_folder_list. table_go. Qed.

Lemma table_createEmergencyBackup i F :
  table i (createEmergencyBackup EMERGENCY_BACKUP_DIR_NORMALIZED cwd F).
Proof. apply (table_quiet i _ _ (createEmergencyBackup_quiet _ _ _)). Qed.

Lemma table_restoreBackup i F T flag :
  table i (restoreBackup BACKUP_DIR_NORMALIZED EMERGENCY_BACKUP_DIR_NORMALIZED cwd
             host_Date_parse F T flag).
Proof.
  unfold restoreBackup.
  keeps_go table_pre ltac:(apply table_createEmergencyBackup).
Qed.

Lemma table_handle_backup_restore i fp T flag :
  table i (handle_backup_restore BACKUP_DIR_NORMALIZED EMERGENCY_BACKUP_DIR_NORMALIZED
             cwd host_Date_parse i fp T flag).
Proof.
  unfold handle_backup_restore, ensureBackupDirectoryExists.
  keeps_go table_pre
    ltac:(first [apply table_createEmergencyBackup | apply table_restoreBackup]).
Qed.

Lemma table_handle_backup_folder_create i fp inc exc ctx :
  table i (handle_backup_folder_create BACKUP_DIR_NORMALIZED MAX_VERSIONS cwd minimatch
             host_Date_parse i fp inc exc ctx).
Proof.
  unfold handle_backup_folder_create, ensureBackupDirectoryExists, saveBackupMetadata.
  table_go.
  apply (keeps_cond _ _ (fun w => FS.existsSync (fs w) _)); table_go.
Qed.

Lemma table_handle_backup_folder_restore i fp T flag :
  table i (handle_backup_folder_restore BACKUP_DIR_NORMALIZED
             EMERGENCY_BACKUP_DIR_NORMALIZED cwd minimatch i fp T flag).
Proof.
  unfold handle_backup_folder_restore.
  keeps_go table_pre
    ltac:(first [ apply table_setStatus
                | apply (table_confined i _ _
                           (createEmergencyFolderBackup_confined _ _ _ _)) ]).
Qed.

(** What a call does to an entry of the table it starts with, the entry
    it has just registered included: nothing, a new status for its own
    entry, or the cancellation flag when the call is a cancel that names
    the entry. *)
Lemma CallTool_entries req w j :
  let w1 := registered (tool_name req) w in
  let w' := snd (Call req w) in
  operations w' !! j = operations w1 !! j
  \/ (exists op s, j = uuids w (uuid_draws w) /\ operations w1 !! j = Some op
                   /\ operations w' !! j = Some (with_status op s))
  \/ (exists op, req = mcp_cancel j /\ operations w1 !! j = Some op
                 /\ operations w' !! j = Some (marked_cancelled op)).
Proof.
  cbv zeta. unfold CallTool. rewrite createOperation_eq.
  cbn [id new_operation]. set (w1 := registered (tool_name req) w).
  set (i := uuids w (uuid_draws w)).
  assert (Hgen : forall run : M response,
            table (Some i) run ->
            operations (snd (match run w1 with
                             | (Return r, w2) => (r, w2)
                             | (Throw e, w2) => (formatErrorResponse e (Some i), w2)
                             end)) !! j = operations w1 !! j
            \/ exists op s, j = i /\ operations w1 !! j = Some op
                 /\ operations (snd (match run w1 with
                                     | (Return r, w2) => (r, w2)
                                     | (Throw e, w2) =>
                                         (formatErrorResponse e (Some i), w2)
                                     end)) !! j = Some (with_status op s)).
  { intros run Hrun. destruct (run w1) as [[r|e] w2] eqn:E;
      destruct (Hrun _ _ _ E) as [_ Ho]; simpl;
      (destruct (Ho j) as [Hj|(Hi & op & s & H1 & H2)];
       [left; exact Hj | right; exists op, s; split; [congruence | auto]]). }
  destruct req as [fp ctx|fp|fp T flag|fp inc exc ctx|fp|fp T flag|k].
  - destruct (Hgen _ (table_handle_backup_create (Some i) fp ctx)); [left | right; left]; assumption.
  - destruct (Hgen _ (table_handle_backup_list (Some i) fp)); [left | right; left]; assumption.
  - destruct (Hgen _ (table_handle_backup_restore (Some i) fp T flag)); [left | right; left]; assumption.
  - destruct (Hgen _ (table_handle_backup_folder_create (Some i) fp inc exc ctx)); [left | right; left]; assumption.
  - destruct (Hgen _ (table_handle_backup_folder_list (Some i) fp)); [left | right; left]; assumption.
  - destruct (Hgen _ (table_handle_backup_folder_restore (Some i) fp T flag)); [left | right; left]; assumption.
  - clear Hgen. unfold handle_mcp_cancel, bind, validateRequiredParam, cancelOperation.
    destruct (JS.truthy k); [|left; reflexivity]. cbn [ret].
    destruct (operations w1 !! k) as [op|] eqn:E; [|left; reflexivity].
    cbn [negb ret snd operations with_operations].
    destruct (decide (j = k)) as [->|Hj].
    + right; right. exists op. rewrite lookup_insert_eq. auto.
    + left. rewrite lookup_insert_ne by congruence. reflexivity.
Qed.

Lemma registered_other ty w j :
  j <> uuids w (uuid_draws w) -> operations (registered ty w) !! j = operations w !! j.
Proof.
  intros Hj. unfold registered. cbn [operations].
  rewrite lookup_insert_ne by congruence. reflexivity.
Qed.

Lemma registered_own ty w :
  operations (registered ty w) !! uuids w (uuid_draws w) = Some (new_operation ty w).
Proof. unfold registered. cbn [operations]. apply lookup_insert_eq. Qed.

(** No call moves the progress of an operation. *)
Lemma CallTool_progress req w j op' :
  operations (snd (Call req w)) !! j = Some op' ->
  progress op' = 0 \/ exists op, operations w !! j = Some op /\ progress op' = progress op.
Proof.
  intros H.
  assert (Hreg : forall op, operations (registered (tool_name req) w) !! j = Some op ->
            progress op = 0 \/ operations w !! j = Some op).
  { intros op Hop. destruct (decide (j = uuids w (uuid_draws w))) as [->|Hj].
    - rewrite registered_own in Hop. injection Hop as <-. left; reflexivity.
    - rewrite registered_other in Hop by exact Hj. right; exact Hop. }
  destruct (CallTool_entries req w j) as [E|[(op & s & _ & E1 & E2)|(op & _ & E1 & E2)]];
    cbv zeta in *.
  - rewrite E in H. destruct (Hreg _ H); eauto.
  - rewrite E2 in H. injection H as <-. destruct (Hreg _ E1); [left; assumption | eauto].
  - rewrite E2 in H. injection H as <-. destruct (Hreg _ E1); [left; assumption | eauto].
Qed.

(** X6: Every call registers exactly one operation, under the identifier it
    draws and with the name of its tool, and leaves every other entry of
    the table as it was, except that [mcp_cancel] flags the entry it
    names.  The progress of the call's own operation still reads 0 when
    the call returns. *)
Theorem call_registers_one_operation (req : request) (w : World) :
  let i := uuids w (uuid_draws w) in
  let w' := snd (Call req w) in
  (exists op, operations w' !! i = Some op
              /\ id op = i /\ type op = tool_name req /\ progress op = 0)
  /\ (forall j, j <> i -> req <> mcp_cancel j ->
        operations w' !! j = operations w !! j).
Proof.
  cbv zeta. split.
  - destruct (CallTool_entries req w (uuids w (uuid_draws w)))
      as [E|[(op & s & _ & E1 & E2)|(op & _ & E1 & E2)]]; cbv zeta in *.
    + rewrite E, registered_own. eexists. split; [reflexivity|]. repeat split.
    + rewrite E2. rewrite registered_own in E1. injection E1 as <-.
      eexists. split; [reflexivity|]. repeat split.
    + rewrite E2. rewrite registered_own in E1. injection E1 as <-.
      eexists. split; [reflexivity|]. repeat split.
  - intros j Hj Hreq.
    destruct (CallTool_entries req w j) as [E|[(op & s & Hi & _)|(op & Hc & _)]];
      cbv zeta in *; [|contradiction..].
    rewrite E. apply registered_other, Hj.
Qed.

(** X7: Started with a table in which nothing has progressed, no sequence of
    calls makes [mcp_backup_status] report progress or completion: the
    progress it reads is 0 and the status is never "completed". *)
Theorem status_is_never_completed (reqs : list request) (w : World) (j : string) :
  (forall k op, operations w !! k = Some op -> progress op = 0) ->
  let st := mcp_backup_status j (operations (CallTools Call reqs w)) in
  fst st = 0 /\ snd st <> "completed"%string.
Proof.
  intros H0. cbv zeta.
  assert (Hinv : forall k op, operations (CallTools Call reqs w) !! k = Some op ->
                   progress op = 0).
  { revert w H0. induction reqs as [|req rest IH]; intros w H0; [exact H0|].
    simpl. apply IH. intros k op Hop.
    destruct (CallTool_progress req w k op Hop) as [E|(op0 & E0 & E)]; [exact E|].
    rewrite E. exact (H0 _ _ E0). }
  unfold mcp_backup_status. destruct (JS.truthy j); [|split; [reflexivity | discriminate]].
  cbn [negb]. destruct (operations (CallTools Call reqs w) !! j) as [op|] eqn:E;
    [|split; [reflexivity | discriminate]].
  rewrite (Hinv _ _ E). cbn [fst snd]. split; [reflexivity|].
  destruct (cancelled op); discriminate.
Qed.

(** X8: A cancel that names an operation of the table flags it and answers
    with success, and the status query then reports it as cancelled; one
    that names no operation answers with failure and flags nothing.  The
    disk is left as it is. *)
Theorem cancel_flags_the_named_operation (w : World) (k : string) :
  JS.truthy k = true ->
  k <> uuids w (uuid_draws w) ->
  let r := fst (Call (mcp_cancel k) w) in
  let w' := snd (Call (mcp_cancel k) w) in
  fs w' = fs w
  /\ match operations w !! k with
     | Some op =>
         r = JsonResponse (CancelDone k)
         /\ operations w' !! k = Some (marked_cancelled op)
         /\ mcp_backup_status k (operations w') = (progress op, "cancelled"%string)
     | None =>
         r = JsonResponse (CancelFailed k)
         /\ operations w' = operations (registered "mcp_cancel" w)
     end.
Proof.
  intros Hk Hne. cbv zeta. unfold CallTool. rewrite createOperation_eq.
  cbn [tool_name]. unfold handle_mcp_cancel, bind, validateRequiredParam.
  rewrite Hk. cbn [ret]. unfold cancelOperation.
  rewrite (registered_other "mcp_cancel" w k Hne).
  destruct (operations w !! k) as [op|] eqn:E; cbn [negb ret fst snd].
  - split; [reflexivity|]. split; [reflexivity|].
    cbn [operations with_operations]. rewrite lookup_insert_eq. split; [reflexivity|].
    unfold mcp_backup_status. rewrite Hk, lookup_insert_eq. reflexivity.
  - split; [reflexivity|]. split; reflexivity.
Qed.

End Table.

(** ** Calls that only read *)

Section ReadOnly.

Variable BACKUP_DIR_NORMALIZED : Path.t.
Variable EMERGENCY_BACKUP_DIR_NORMALIZED : Path.t.
Variable MAX_VERSIONS : Z.
Variable cwd : Path.t.
Variable minimatch : string -> string -> bool.
Variable host_Date_parse : string -> JS.number.

Abbreviation Call :=
  (CallTool BACKUP_DIR_NORMALIZED EMERGENCY_BACKUP_DIR_NORMALIZED MAX_VERSIONS
            cwd minimatch host_Date_parse).

Lemma same_files_refl f : same_files f f.
Proof. reflexivity. Qed.

Lemma same_files_trans f g h : same_files f g -> same_files g h -> same_files f h.
Proof. unfold same_files. congruence. Qed.

Ltac still_pre :=
  first [ exact same_files_refl | exact same_files_trans
        | exact any_table_refl | exact any_table_trans ].

Abbreviation still := (preserves (both same_files any_table)).

Lemma still_cancelOperation k : still (cancelOperation k).
Proof.
  intros w o w' H. unfold cancelOperation in H.
  destruct (operations w !! k); inversion H; subst; (split; [reflexivity | exact I]).
Qed.

(** X5: The two listings and the cancel read the disk and leave it as it
    is, whatever they answer. *)
Theorem listings_and_cancel_leave_the_disk_alone (w : World) (P : option Path.t)
    (k : string) :
  fs (snd (Call (backup_list P) w)) = fs w
  /\ fs (snd (Call (backup_folder_list P) w)) = fs w
  /\ fs (snd (Call (mcp_cancel k) w)) = fs w.
Proof.
  assert (Hrun : forall ty (run : M response), still run ->
            fs (snd (match run (registered ty w) with
                     | (Return r, w2) => (r, w2)
                     | (Throw e, w2) =>
                         (formatErrorResponse e (Some (uuids w (uuid_draws w))), w2)
                     end)) = fs w).
  { intros ty run Hrun. destruct (run (registered ty w)) as [[r|e] w2] eqn:E;
      destruct (Hrun _ _ _ E) as [Hf _]; exact Hf. }
  unfold CallTool. rewrite !createOperation_eq. cbn [id new_operation tool_name].
  split; [|split]; apply Hrun.
  - unfold handle_backup_list. keeps_go still_pre fail.
  - unfold handle_backup_folder_list. keeps_go still_pre fail.
  - unfold handle_mcp_cancel. keeps_go still_pre ltac:(apply still_cancelOperation).
Qed.

End ReadOnly.

(** ** The walk of the backup store *)

Section Scanner.

Lemma lookup_later_entry k c (rest : FS.items_t) r n :
  FS.assoc k rest = None -> r <> [] ->
  FS.lookup (FS.Dir rest) r = Some n -> FS.lookup (FS.Dir ((k, c) :: rest)) r = Some n.
Proof.
  intros Hk Hr H. destruct r as [|s r']; [congruence|].
  simpl in H |- *. destruct (String.eqb_spec s k) as [->|Ne]; [|exact H].
  rewrite Hk in H. discriminate.
Qed.

(** In a tree that lists no name twice, every path the walk reports
    leads to a regular file. *)
Lemma walk_sound n : forall dir p,
  FS.distinct_names n = true -> In p (metadataFilesIn n dir) ->
  exists r d, p = dir ++ r /\ r <> [] /\ FS.lookup n r = Some (FS.File d)
              /\ JS.endsWith (List.last r EmptyString) ".meta.json" = true.
Proof.
  induction n as [d|items IH] using node_induction; intros dir p Hd H; [destruct H|].
  simpl in H, Hd. induction items as [|[k c] rest IHr]; [destruct H|].
  inversion IH as [|? ? Hc Hrest]; subst. simpl in H, Hd.
  apply andb_true_iff in Hd as [Hd Hd3]. apply andb_true_iff in Hd as [Hd1 Hd2].
  assert (Hk : FS.assoc k rest = None) by (destruct (FS.assoc k rest); [discriminate | reflexivity]).
  assert (Hlater : In p (metadataFilesAmong metadataFilesIn dir rest) ->
            exists r d, p = dir ++ r /\ r <> [] /\
              FS.lookup (FS.Dir ((k, c) :: rest)) r = Some (FS.File d)
              /\ JS.endsWith (List.last r EmptyString) ".meta.json" = true).
  { intros Hp. destruct (IHr Hrest Hd3 Hp) as (r & d & -> & Nr & L & E).
    exists r, d. repeat split; [exact Nr | | exact E].
    apply lookup_later_entry; assumption. }
  destruct c as [d|ci].
  - destruct (JS.endsWith k ".meta.json") eqn:E; [|exact (Hlater H)].
    destruct H as [<-|H]; [|exact (Hlater H)].
    exists [k], d. repeat split; [discriminate | | exact E].
    simpl. rewrite String.eqb_refl. reflexivity.
  - apply in_app_or in H as [H|H]; [|exact (Hlater H)].
    destruct (Hc _ _ Hd2 H) as (r & d & -> & Nr & L & E).
    exists (k :: r), d. unfold Path.join. rewrite <- app_assoc.
    repeat split; [discriminate | |].
    + simpl. rewrite String.eqb_refl. exact L.
    + destruct r; [congruence | exact E].
Qed.

(** X11: [findAllBackupMetadataFiles] answers the empty list for a path that
    does not exist and throws on a regular file.  On a directory it
    reports every regular file below it, at any depth, whose name ends
    in [.meta.json]; in a tree that lists no name twice it reports
    nothing else. *)
Theorem scanner_finds_the_descriptors (f : FS.node) (directory : Path.t) :
  match FS.lookup f directory with
  | None => findAllBackupMetadataFiles f directory = Return []
  | Some (FS.File _) =>
      findAllBackupMetadataFiles f directory = Throw (SystemError "scandir" directory)
  | Some (FS.Dir items) =>
      exists found,
        findAllBackupMetadataFiles f directory = Return found
        /\ (forall r d,
              r <> [] -> FS.lookup f (directory ++ r) = Some (FS.File d) ->
              JS.endsWith (Path.basename r) ".meta.json" = true ->
              In (directory ++ r) found)
        /\ (FS.distinct_names (FS.Dir items) = true ->
            forall p, In p found ->
              exists r d, p = directory ++ r /\ r <> []
                          /\ FS.lookup f p = Some (FS.File d)
                          /\ JS.endsWith (Path.basename p) ".meta.json" = true)
  end.
Proof.
  unfold findAllBackupMetadataFiles.
  destruct (FS.lookup f directory) as [[d|items]|] eqn:E; [reflexivity | | reflexivity].
  eexists. split; [reflexivity|]. split.
  - intros r d Nr L Hn. rewrite lookup_app, E in L.
    exact (walk_complete r _ directory d L Nr Hn).
  - intros Hd p Hp. destruct (walk_sound _ _ _ Hd Hp) as (r & d & -> & Nr & L & Hn).
    exists r, d. repeat split; [exact Nr | |].
    + rewrite lookup_app, E. exact L.
    + unfold Path.basename. rewrite last_app_ne by exact Nr. exact Hn.
Qed.

End Scanner.

(** ** Rejected calls *)

Section Rejections.

Variable BACKUP_DIR_NORMALIZED : Path.t.
Variable EMERGENCY_BACKUP_DIR_NORMALIZED : Path.t.
Variable MAX_VERSIONS : Z.
Variable cwd : Path.t.
Variable minimatch : string -> string -> bool.
Variable host_Date_parse : string -> JS.number.

Abbreviation Call :=
  (CallTool BACKUP_DIR_NORMALIZED EMERGENCY_BACKUP_DIR_NORMALIZED MAX_VERSIONS
            cwd minimatch host_Date_parse).

(** The answer of a call that fails with [e] before it does anything:
    the error names the call's operation, which stays registered. *)
Abbreviation rejected req e w :=
  (Call req w
   = (ErrorResponse e (Some (uuids w (uuid_draws w))), registered (tool_name req) w)).

(** X9: A call that lacks its path argument, or whose timestamp or
    operation identifier is the empty string, fails with "Invalid
    params" naming the first argument that is missing; it registers its
    operation and changes nothing else. *)
Theorem missing_argument_is_rejected (w : World) (P : Path.t) (T : string)
    (ctx inc exc : option string) (flag : bool) (oflag : option bool) :
  rejected (backup_create None ctx) (InvalidParams "file_path") w
  /\ rejected (backup_list None) (InvalidParams "file_path") w
  /\ rejected (backup_restore None T flag) (InvalidParams "file_path") w
  /\ rejected (backup_restore (Some P) "" flag) (InvalidParams "timestamp") w
  /\ rejected (backup_folder_create None inc exc ctx) (InvalidParams "folder_path") w
  /\ rejected (backup_folder_list None) (InvalidParams "folder_path") w
  /\ rejected (backup_folder_restore None T oflag) (InvalidParams "folder_path") w
  /\ rejected (backup_folder_restore (Some P) "" oflag)
       (InvalidParams "timestamp") w
  /\ rejected (mcp_cancel "") (InvalidParams "operationId") w.
Proof. repeat split. Qed.

(** X10: Creating a backup needs the original on disk: [backup_create] of a
    path that is no regular file fails with "File not found",
    [backup_folder_create] and [backup_folder_restore] of a path that is
    no directory fail with "Folder not found" (so a folder that was
    removed cannot be restored from its backups); nothing is written. *)
Theorem calls_on_a_missing_original_fail (w : World) (P : Path.t) (T : string)
    (ctx inc exc : option string) (oflag : option bool) :
  (FS.isFile (fs w) P = false ->
   rejected (backup_create (Some P) ctx) (FileNotFound P) w)
  /\ (FS.isDirectory (fs w) P = false ->
      rejected (backup_folder_create (Some P) inc exc ctx) (FolderNotFound P) w)
  /\ (FS.isDirectory (fs w) P = false -> JS.truthy T = true ->
      rejected (backup_folder_restore (Some P) T oflag) (FolderNotFound P) w).
Proof.
  split; [|split].
  - intros H. unfold CallTool. rewrite createOperation_eq. cbn [tool_name id new_operation].
    unfold handle_backup_create, bind, validateRequiredParam, validateFileExists.
    cbn [is_some or_else ret]. unfold Path.normalize.
    change (fs (registered "backup_create" w)) with (fs w). rewrite H. reflexivity.
  - intros H. unfold CallTool. rewrite createOperation_eq. cbn [tool_name id new_operation].
    unfold handle_backup_folder_create, bind, validateRequiredParam, validateFolderExists.
    cbn [is_some or_else ret]. unfold Path.normalize.
    change (fs (registered "backup_folder_create" w)) with (fs w). rewrite H. reflexivity.
  - intros H HT. unfold CallTool. rewrite createOperation_eq.
    cbn [tool_name id new_operation].
    unfold handle_backup_folder_restore, bind, validateRequiredParam, validateFolderExists.
    cbn [is_some ret]. rewrite HT. cbn [ret]. unfold Path.normalize.
    change (or_else (Some P) []) with P.
    change (fs (registered "backup_folder_restore" w)) with (fs w). rewrite H. reflexivity.
Qed.

End Rejections.

(** ** The order of the listings *)

Section Sorting.

Context {A : Type} (cmp : A -> A -> JS.number).

Abbreviation before := (fun a b => JS.sort_before cmp a b = true).

Hypothesis before_total : forall a b, before a b \/ before b a.
Hypothesis before_trans : forall a b c, before a b -> before b c -> before a c.

Lemma sort_insert_perm x l : Permutation (JS.sort_insert cmp x l) (x :: l).
Proof.
  induction l as [|y l IH]; [reflexivity|]. simpl.
  destruct (JS.sort_before cmp x y); [reflexivity|].
  rewrite IH. apply perm_swap.
Qed.

Lemma sort_perm l : Permutation (JS.sort cmp l) l.
Proof.
  induction l as [|x l IH]; [reflexivity|]. simpl.
  rewrite sort_insert_perm. constructor. exact IH.
Qed.

Lemma sort_insert_sorted x l :
  StronglySorted before l -> StronglySorted before (JS.sort_insert cmp x l).
Proof.
  induction 1 as [|y l Hs IH Hall]; [repeat constructor|].
  simpl. destruct (JS.sort_before cmp x y) eqn:E.
  - constructor; [constructor; assumption|].
    constructor; [exact E|].
    eapply List.Forall_impl; [|exact Hall]. intros z Hz. exact (before_trans _ _ _ E Hz).
  - constructor; [exact IH|].
    assert (Hyx : before y x) by (destruct (before_total x y); congruence).
    rewrite (sort_insert_perm x l). constructor; assumption.
Qed.

Lemma sort_sorted l : StronglySorted before (JS.sort cmp l).
Proof.
  induction l as [|x l IH]; [constructor|]. simpl. apply sort_insert_sorted, IH.
Qed.

End Sorting.

Section Listing.

Variable BACKUP_DIR_NORMALIZED : Path.t.
Variable EMERGENCY_BACKUP_DIR_NORMALIZED : Path.t.
Variable MAX_VERSIONS : Z.
Variable cwd : Path.t.
Variable minimatch : string -> string -> bool.
Variable host_Date_parse : string -> JS.number.

Abbreviation Call :=
  (CallTool BACKUP_DIR_NORMALIZED EMERGENCY_BACKUP_DIR_NORMALIZED MAX_VERSIONS
            cwd minimatch host_Date_parse).

Lemma ascii_compare_trans a b c :
  Ascii.compare a b <> Gt -> Ascii.compare b c <> Gt -> Ascii.compare a c <> Gt.
Proof.
  unfold Ascii.compare. rewrite !N.compare_le_iff || idtac.
  intros H1 H2. fold (N.le (N_of_ascii a) (N_of_ascii b)) in H1.
  fold (N.le (N_of_ascii b) (N_of_ascii c)) in H2.
  fold (N.le (N_of_ascii a) (N_of_ascii c)). lia.
Qed.

Lemma ascii_compare_refl a : Ascii.compare a a = Eq.
Proof. unfold Ascii.compare. apply N.compare_refl. Qed.

Lemma string_compare_trans a : forall b c,
  String.compare a b <> Gt -> String.compare b c <> Gt -> String.compare a c <> Gt.
Proof.
  induction a as [|x a IH]; intros [|y b] [|z c] H1 H2; simpl in *; try congruence.
  destruct (Ascii.compare x y) eqn:Exy; [|clear H1|congruence];
    destruct (Ascii.compare y z) eqn:Eyz; try congruence.
  - apply Ascii.compare_eq_iff in Exy, Eyz. subst.
    rewrite ascii_compare_refl. exact (IH _ _ H1 H2).
  - apply Ascii.compare_eq_iff in Exy. subst. rewrite Eyz. discriminate.
  - apply Ascii.compare_eq_iff in Eyz. subst. rewrite Exy. discriminate.
  - assert (Hxz : Ascii.compare x z <> Gt)
      by (apply (ascii_compare_trans x y z); congruence).
    destruct (Ascii.compare x z) eqn:Exz; [|discriminate|congruence].
    apply Ascii.compare_eq_iff in Exz. subst.
    rewrite Ascii.compare_antisym, Eyz in Exy. discriminate.
Qed.

Abbreviation by_timestamp :=
  (fun a b : BackupMetadata => Text.localeCompare (timestamp b) (timestamp a)).

Lemma by_timestamp_before a b :
  JS.sort_before by_timestamp a b = true <-> not_older a b.
Proof.
  unfold JS.sort_before, Text.localeCompare, not_older.
  rewrite (String.compare_antisym (timestamp a) (timestamp b)).
  destruct (String.compare (timestamp b) (timestamp a)); simpl; split;
    intros H; try reflexivity; try discriminate; congruence.
Qed.

Lemma sorted_by_timestamp l : StronglySorted not_older (JS.sort by_timestamp l).
Proof.
  assert (H : StronglySorted (fun a b => JS.sort_before by_timestamp a b = true)
                (JS.sort by_timestamp l)).
  { apply sort_sorted.
    - intros a b. rewrite !by_timestamp_before. unfold not_older.
      rewrite (String.compare_antisym (timestamp a) (timestamp b)).
      destruct (String.compare (timestamp b) (timestamp a)); simpl;
        [left | left | right]; discriminate.
    - intros a b c. rewrite !by_timestamp_before. unfold not_older. intros H1 H2.
      rewrite String.compare_antisym in H1, H2 |- *.
      assert (G : String.compare (timestamp c) (timestamp a) <> Gt).
      { apply (string_compare_trans _ (timestamp b)).
        - destruct (String.compare (timestamp c) (timestamp b)); simpl in H2; congruence.
        - destruct (String.compare (timestamp b) (timestamp a)); simpl in H1; congruence. }
      destruct (String.compare (timestamp c) (timestamp a)); simpl; congruence. }
  induction H as [|x l' Hs IH Hall]; constructor; [exact IH|].
  eapply List.Forall_impl; [|exact Hall]. intros y. apply by_timestamp_before.
Qed.


End Listing.

(** ** Generated timestamps and backup names *)

Section Stamps.

Lemma digit_char_facts x :
  0 <= x < 10 ->
  Text.is_digit (JS.digit_char x) = true
  /\ Z.of_nat (nat_of_ascii (JS.digit_char x) - 48) = x
  /\ Ascii.eqb (JS.digit_char x) "-" = false.
Proof.
  intros H.
  assert (E : below (fun x => Text.is_digit (JS.digit_char x)
                              && (Z.of_nat (nat_of_ascii (JS.digit_char x) - 48) =? x)
                              && negb (Ascii.eqb (JS.digit_char x) "-")) 10 = true)
    by (vm_compute; reflexivity).
  pose proof (below_spec _ _ E x H) as B.
  apply andb_true_iff in B as [B B3]. apply andb_true_iff in B as [B1 B2].
  split; [exact B1|]. split; [apply Z.eqb_eq, B2|].
  destruct (Ascii.eqb _ _); [discriminate | reflexivity].
Qed.

Lemma fixedw_split k n :
  0 <= n < 10 ^ Z.of_nat (S k) ->
  0 <= n / 10 ^ Z.of_nat k < 10 /\ 0 <= n mod 10 ^ Z.of_nat k < 10 ^ Z.of_nat k.
Proof.
  intros H. rewrite Nat2Z.inj_succ, Z.pow_succ_r in H by lia.
  assert (0 < 10 ^ Z.of_nat k) by (apply Z.pow_pos_nonneg; lia).
  split; [|apply Z.mod_pos_bound; assumption].
  split; [apply Z.div_pos; lia|]. apply Z.div_lt_upper_bound; lia.
Qed.

Lemma digits_then_fixedw k : forall n j rest s,
  0 <= n < 10 ^ Z.of_nat k ->
  digits_then (k + j) rest (fixedw k n +:+ s) = digits_then j rest s.
Proof.
  induction k as [|k IH]; intros n j rest s H; [reflexivity|].
  destruct (fixedw_split k n H) as [Hd Hm].
  rewrite fixedw_S, append_cons. cbn [Nat.add digits_then].
  destruct (digit_char_facts _ Hd) as (-> & _ & _). cbn [andb].
  apply IH, Hm.
Qed.

Lemma number_from_fixedw k : forall acc n s,
  0 <= n < 10 ^ Z.of_nat k ->
  Text.number_from acc (fixedw k n +:+ s)
  = Text.number_from (acc * 10 ^ Z.of_nat k + n) s.
Proof.
  induction k as [|k IH]; intros acc n s H.
  - simpl in H. assert (n = 0) by lia. subst. simpl. f_equal. lia.
  - destruct (fixedw_split k n H) as [Hd Hm].
    rewrite fixedw_S, append_cons. cbn [Text.number_from].
    destruct (digit_char_facts _ Hd) as (-> & -> & _).
    rewrite (IH _ _ _ Hm). f_equal.
    rewrite Nat2Z.inj_succ, Z.pow_succ_r by lia.
    pose proof (Z.div_mod n (10 ^ Z.of_nat k)) as E.
    assert (0 < 10 ^ Z.of_nat k) by (apply Z.pow_pos_nonneg; lia). nia.
Qed.

Lemma split_on_fixedw k : forall n s g gs,
  0 <= n < 10 ^ Z.of_nat k ->
  Text.split_on "-" s = g :: gs ->
  Text.split_on "-" (fixedw k n +:+ s) = (fixedw k n +:+ g) :: gs.
Proof.
  induction k as [|k IH]; intros n s g gs H E; [exact E|].
  destruct (fixedw_split k n H) as [Hd Hm].
  rewrite fixedw_S, !append_cons. cbn [Text.split_on].
  destruct (digit_char_facts _ Hd) as (_ & _ & ->).
  rewrite (IH _ _ _ _ Hm E). reflexivity.
Qed.

Lemma fixedw_nonempty k n s : fixedw (S k) n +:+ s <> EmptyString.
Proof. rewrite fixedw_S, append_cons. discriminate. Qed.

(** A timestamp of the engine for a four-digit year is three groups of
    digits, the first worth more than 1,000,000. *)
Lemma generateTimestamp_compact d :
  1000 <= Date.getFullYear d < 10000 ->
  Text.compact_stamp (generateTimestamp d) = true.
Proof.
  intros Hy. rewrite (generateTimestamp_fixed d Hy).
  pose proof (fields_range (Date.LocalTime d)) as (Hmo & Hda & Hh & Hmi & Hs & Hms).
  fold (Date.getMonth d) in Hmo. fold (Date.getDate d) in Hda.
  fold (Date.getHours d) in Hh. fold (Date.getMinutes d) in Hmi.
  fold (Date.getSeconds d) in Hs. fold (Date.getMilliseconds d) in Hms.
  set (Y := Date.getFullYear d) in *. set (Mo := Date.getMonth d + 1) in *.
  set (Da := Date.getDate d) in *. set (Hh' := Date.getHours d) in *.
  set (Mi := Date.getMinutes d) in *. set (Se := Date.getSeconds d) in *.
  set (Ms := Date.getMilliseconds d) in *.
  assert (E3 : Text.split_on "-" (fixedw 3 Ms +:+ EmptyString)
               = [fixedw 3 Ms +:+ EmptyString]).
  { apply (split_on_fixedw 3 Ms EmptyString EmptyString []); [simpl; lia | reflexivity]. }
  assert (E2 : Text.split_on "-"
                 (fixedw 2 Hh' +:+ fixedw 2 Mi +:+ fixedw 2 Se +:+
                  String "-" (fixedw 3 Ms +:+ EmptyString))
               = [fixedw 2 Hh' +:+ fixedw 2 Mi +:+ fixedw 2 Se +:+ EmptyString;
                  fixedw 3 Ms +:+ EmptyString]).
  { apply split_on_fixedw; [simpl; lia|]. apply split_on_fixedw; [simpl; lia|].
    apply split_on_fixedw; [simpl; lia|]. cbn [Text.split_on Ascii.eqb Bool.eqb].
    rewrite E3. reflexivity. }
  assert (E1 : Text.split_on "-"
                 (fixedw 4 Y +:+ fixedw 2 Mo +:+ fixedw 2 Da +:+
                  String "-" (fixedw 2 Hh' +:+ fixedw 2 Mi +:+ fixedw 2 Se +:+
                  String "-" (fixedw 3 Ms +:+ EmptyString)))
               = [fixedw 4 Y +:+ fixedw 2 Mo +:+ fixedw 2 Da +:+ EmptyString;
                  fixedw 2 Hh' +:+ fixedw 2 Mi +:+ fixedw 2 Se +:+ EmptyString;
                  fixedw 3 Ms +:+ EmptyString]).
  { apply split_on_fixedw; [simpl; lia|]. apply split_on_fixedw; [simpl; lia|].
    apply split_on_fixedw; [simpl; lia|]. cbn [Text.split_on Ascii.eqb Bool.eqb].
    rewrite E2. reflexivity. }
  unfold Text.compact_stamp. rewrite E1. cbn [List.map].
  assert (N1 : Text.number (fixedw 4 Y +:+ fixedw 2 Mo +:+ fixedw 2 Da +:+ EmptyString)
               = Some (((0 * 10 ^ 4 + Y) * 10 ^ 2 + Mo) * 10 ^ 2 + Da)).
  { unfold Text.number.
    destruct (fixedw 4 Y +:+ fixedw 2 Mo +:+ fixedw 2 Da +:+ EmptyString) eqn:E;
      [exfalso; exact (fixedw_nonempty _ _ _ E)|].
    rewrite <- E. rewrite (number_from_fixedw 4) by (simpl; lia).
    rewrite (number_from_fixedw 2) by (simpl; lia).
    rewrite (number_from_fixedw 2) by (simpl; lia). reflexivity. }
  assert (N2 : exists v, Text.number (fixedw 2 Hh' +:+ fixedw 2 Mi +:+ fixedw 2 Se +:+ EmptyString)
               = Some v).
  { unfold Text.number.
    destruct (fixedw 2 Hh' +:+ fixedw 2 Mi +:+ fixedw 2 Se +:+ EmptyString) eqn:E;
      [exfalso; exact (fixedw_nonempty _ _ _ E)|].
    rewrite <- E. rewrite (number_from_fixedw 2) by (simpl; lia).
    rewrite (number_from_fixedw 2) by (simpl; lia).
    rewrite (number_from_fixedw 2) by (simpl; lia). eexists; reflexivity. }
  assert (N3 : exists v, Text.number (fixedw 3 Ms +:+ EmptyString) = Some v).
  { unfold Text.number.
    destruct (fixedw 3 Ms +:+ EmptyString) eqn:E;
      [exfalso; exact (fixedw_nonempty _ _ _ E)|].
    rewrite <- E. rewrite (number_from_fixedw 3) by (simpl; lia). eexists; reflexivity. }
  destruct N2 as [v2 N2]. destruct N3 as [v3 N3].
  rewrite N1, N2, N3. apply Z.ltb_lt. lia.
Qed.

End Stamps.

(** A sort whose comparison is [NaN] on every pair leaves the array as
    it is. *)
Lemma sort_without_order {A} (cmp : A -> A -> JS.number) l :
  (forall a b, In a l -> In b l -> cmp a b = JS.NaN) -> JS.sort cmp l = l.
Proof.
  induction l as [|x l IH]; intros H; [reflexivity|].
  simpl. rewrite IH by (intros a b Ha Hb; apply H; right; assumption).
  destruct l as [|y l']; [reflexivity|].
  simpl. unfold JS.sort_before. rewrite (H x y); [reflexivity | left; reflexivity |].
  right; left; reflexivity.
Qed.

Section Order.

Variable BACKUP_DIR_NORMALIZED : Path.t.
Variable host_Date_parse : string -> JS.number.

(** X13: [findBackupsByFilePath] returns the versions of a file in the order
    in which the walk of the store meets their descriptors: on the
    timestamps the engine generates [new Date(timestamp).getTime()] is
    [NaN], whatever the host's parser, and the sort moves nothing. *)
Theorem version_list_keeps_scan_order (f : FS.node) (F : Path.t)
    (found : list Path.t) :
  findAllBackupMetadataFiles f BACKUP_DIR_NORMALIZED = Return found ->
  (forall p b, In p found -> readBackupMetadata f p = Some b -> original_path b = F ->
     exists d, 1000 <= Date.getFullYear d < 10000 /\ timestamp b = generateTimestamp d) ->
  findBackupsByFilePath BACKUP_DIR_NORMALIZED host_Date_parse f F
  = Return (List.filter
              (fun metadata =>
                 bool_decide (original_path metadata = F)
                 && negb (isFolderMetadata f metadata))
              (keep_some (List.map (readBackupMetadata f) found))).
Proof.
  intros Hscan Hgen. unfold findBackupsByFilePath. rewrite Hscan. f_equal.
  apply sort_without_order. intros a b Ha Hb.
  assert (Hnan : forall x,
            In x (List.filter
                    (fun metadata =>
                       bool_decide (original_path metadata = F)
                       && negb (isFolderMetadata f metadata))
                    (keep_some (List.map (readBackupMetadata f) found))) ->
            timeOf host_Date_parse x = JS.NaN).
  { intros x Hx. apply filter_In in Hx as [Hx Hf].
    apply In_keep_some in Hx. apply in_map_iff in Hx as (p & Hp & HpIn).
    apply andb_true_iff in Hf as [Ho _]. apply bool_decide_eq_true_1 in Ho.
    destruct (Hgen p x HpIn Hp Ho) as (d & Hy & Ht).
    unfold timeOf, Text.Date_getTime. rewrite Ht, (generateTimestamp_compact d Hy).
    reflexivity. }
  rewrite (Hnan b Hb). reflexivity.
Qed.

End Order.

Section Names.

Lemma append_assoc (a b c : string) : (a +:+ b) +:+ c = a +:+ (b +:+ c).
Proof.
  induction a as [|x a IH]; [reflexivity|]. rewrite !append_cons, IH. reflexivity.
Qed.

Lemma isBackupFile_unfold name :
  isBackupFile name
  = stamp_tail name ||
    match name with EmptyString => false | String _ name' => isBackupFile name' end.
Proof. destruct name; reflexivity. Qed.

Lemma isBackupFile_append a t : stamp_tail t = true -> isBackupFile (a +:+ t) = true.
Proof.
  intros H. induction a as [|c a IH].
  - change (EmptyString +:+ t) with t. rewrite isBackupFile_unfold, H. reflexivity.
  - rewrite append_cons, isBackupFile_unfold, IH. apply orb_true_r.
Qed.

Lemma digits_then_0 rest s : digits_then 0 rest s = rest s.
Proof. reflexivity. Qed.

Lemma char_then_cons c rest s : char_then c rest (String c s) = rest s.
Proof. unfold char_then. rewrite Ascii.eqb_refl. reflexivity. Qed.

Lemma stamp_tail_generated d :
  1000 <= Date.getFullYear d < 10000 ->
  stamp_tail ("." +:+ generateTimestamp d) = true.
Proof.
  intros Hy. rewrite (generateTimestamp_fixed d Hy).
  pose proof (fields_range (Date.LocalTime d)) as (Hmo & Hda & Hh & Hmi & Hs & Hms).
  fold (Date.getMonth d) in Hmo. fold (Date.getDate d) in Hda.
  fold (Date.getHours d) in Hh. fold (Date.getMinutes d) in Hmi.
  fold (Date.getSeconds d) in Hs. fold (Date.getMilliseconds d) in Hms.
  change ("." +:+ ?s)%string with (String "." s).
  unfold stamp_tail. rewrite char_then_cons.
  rewrite (digits_then_fixedw 4 _ 4) by (simpl; lia).
  rewrite (digits_then_fixedw 2 _ 2) by (simpl; lia).
  rewrite (digits_then_fixedw 2 _ 0) by (simpl; lia).
  rewrite digits_then_0, char_then_cons.
  rewrite (digits_then_fixedw 2 _ 4) by (simpl; lia).
  rewrite (digits_then_fixedw 2 _ 2) by (simpl; lia).
  rewrite (digits_then_fixedw 2 _ 0) by (simpl; lia).
  rewrite digits_then_0, char_then_cons.
  rewrite (digits_then_fixedw 3 _ 0) by (simpl; lia).
  reflexivity.
Qed.

Lemma stamp_tail_digit_end : forall s, stamp_tail s = true -> is_digit_end s = true.
Proof.
  assert (D : forall n rest,
            (forall s, rest s = true -> s = EmptyString \/ is_digit_end s = true) ->
            forall s, digits_then (S n) rest s = true -> is_digit_end s = true).
  { induction n as [|n IH]; intros rest Hrest [|c s] H; try discriminate.
    - cbn [digits_then] in H. apply andb_true_iff in H as [Hc Hr].
      destruct (Hrest s Hr) as [->|He].
      + unfold is_digit_end. simpl. exact Hc.
      + unfold is_digit_end in *. simpl. destruct s; [discriminate | exact He].
    - cbn [digits_then] in H. apply andb_true_iff in H as [Hc Hr].
      pose proof (IH rest Hrest s Hr) as He.
      unfold is_digit_end in *. simpl. destruct s; [discriminate | exact He]. }
  assert (C : forall c rest,
            (forall s, rest s = true -> is_digit_end s = true) ->
            forall s, char_then c rest s = true -> is_digit_end s = true).
  { intros c rest Hrest [|c' s] H; [discriminate|].
    cbn [char_then] in H. apply andb_true_iff in H as [_ Hr].
    pose proof (Hrest s Hr) as He.
    unfold is_digit_end in *. simpl. destruct s; [discriminate | exact He]. }
  intros s. unfold stamp_tail. apply C. apply D. intros s1 H1. right. revert s1 H1.
  apply C. apply D. intros s2 H2. right. revert s2 H2.
  apply C. apply D. intros s3 H3. left. destruct s3; [reflexivity | discriminate].
Qed.

Lemma isBackupFile_digit_end s : isBackupFile s = true -> is_digit_end s = true.
Proof.
  induction s as [|c s IH]; rewrite isBackupFile_unfold; intros H.
  - rewrite orb_false_r in H. exact (stamp_tail_digit_end _ H).
  - apply orb_true_iff in H as [H|H]; [exact (stamp_tail_digit_end _ H)|].
    pose proof (IH H) as He. unfold is_digit_end in *. simpl.
    destruct s; [discriminate | exact He].
Qed.

(** X15: The name test of [backup_list_all] accepts the payload names the
    engine writes, in the main store and in the emergency store, when
    the local year has four digits; a descriptor, whose name ends in
    [.meta.json], is never taken for a payload. *)
Theorem list_all_recognises_engine_names (filePath : Path.t) (d : Date.t) (name : string) :
  1000 <= Date.getFullYear d < 10000 ->
  isBackupFile (getBackupFilename filePath (generateTimestamp d)) = true
  /\ isBackupFile (Path.name filePath +:+ Path.ext filePath +:+ ".emergency."
                   +:+ generateTimestamp d) = true
  /\ isBackupFile (name +:+ ".meta.json") = false
  /\ isMetadataFile (name +:+ ".meta.json") = true.
Proof.
  intros Hy. pose proof (stamp_tail_generated d Hy) as Ht.
  split; [|split; [|split]].
  - unfold getBackupFilename.
    rewrite <- (append_assoc (Path.name filePath) (Path.ext filePath)
                  ("." +:+ generateTimestamp d)).
    apply isBackupFile_append, Ht.
  - change (".emergency." +:+ generateTimestamp d)%string
      with (".emergency" +:+ ("." +:+ generateTimestamp d))%string.
    rewrite <- (append_assoc (Path.ext filePath) ".emergency"
                  ("." +:+ generateTimestamp d)).
    rewrite <- (append_assoc (Path.name filePath) (Path.ext filePath +:+ ".emergency")
                  ("." +:+ generateTimestamp d)).
    apply isBackupFile_append, Ht.
  - destruct (isBackupFile (name +:+ ".meta.json")) eqn:E; [|reflexivity].
    apply isBackupFile_digit_end, digit_end_not_meta in E.
    rewrite endsWith_append in E. discriminate.
  - apply endsWith_append.
Qed.

End Names.

(** ** Retention and the footprint of a create call *)

Section Removal.

Import FS.

Lemma unlink_nil n : unlink n [] = None.
Proof. destruct n; reflexivity. Qed.

Lemma unlink_File d p : unlink (File d) p = None.
Proof. destruct p as [|? [|? ?]]; reflexivity. Qed.

Lemma unlink_cons items s p :
  unlink (Dir items) (s :: p)
  = match p with
    | [] =>
        match assoc s items with
        | Some (File _) => Some (Dir (remove s items))
        | _ => None
        end
    | _ :: _ =>
        match assoc s items with
        | Some c =>
            match unlink c p with
            | Some c' => Some (Dir (replace s c' items))
            | None => None
            end
        | None => None
        end
    end.
Proof. destruct p; reflexivity. Qed.

(** Removing a file changes what no path reads that does not start
    with the removed one. *)
Lemma readFile_unlink_apart p : forall n n' q,
  unlink n p = Some n' -> Path.is_prefix p q = false -> readFile n' q = readFile n q.
Proof.
  unfold readFile. induction p as [|s p IH]; intros n n' q H N.
  - rewrite unlink_nil in H. discriminate.
  - destruct n as [d0|items]; [rewrite unlink_File in H; discriminate|].
    rewrite unlink_cons in H.
    destruct q as [|t q].
    { destruct p; destruct (assoc s items) as [[?|?]|]; try discriminate;
        try (destruct (unlink _ _); try discriminate); inversion H; reflexivity. }
    simpl in N. destruct p as [|s' p'].
    + destruct (assoc s items) as [[?|?]|] eqn:E; inversion H; subst; simpl.
      destruct (String.eqb_spec s t) as [->|Ne]; [discriminate|].
      rewrite assoc_remove_other by assumption. reflexivity.
    + destruct (assoc s items) as [c|] eqn:E; [|discriminate].
      destruct (unlink c (s' :: p')) as [c'|] eqn:U; [|discriminate].
      inversion H; subst. simpl.
      destruct (String.eqb_spec s t) as [->|Ne].
      * rewrite assoc_replace_same, E. apply (IH c c' q U N).
      * rewrite assoc_replace_other by assumption. reflexivity.
Qed.

End Removal.

Section Retention.

Variable BACKUP_DIR_NORMALIZED : Path.t.
Variable MAX_VERSIONS : Z.
Variable host_Date_parse : string -> JS.number.

Abbreviation cleanupOldBackups' :=
  (cleanupOldBackups BACKUP_DIR_NORMALIZED MAX_VERSIONS host_Date_parse).

Lemma In_firstn_inv {A} n : forall (l : list A) x, In x (firstn n l) -> In x l.
Proof.
  induction n as [|n IH]; intros [|y l] x H; simpl in H; try contradiction.
  destruct H as [H|H]; [left; exact H | right; exact (IH _ _ H)].
Qed.

(** The file system after the retention loop over [l]: every path that
    does not start with the payload path of a version in [l] reads as
    before; the loop itself never throws. *)
Lemma forEach_removeOldBackup l : forall w,
  exists w',
    forEach l removeOldBackup w = (Return tt, w')
    /\ operations w' = operations w
    /\ (l = [] -> w' = w)
    /\ forall p, (forall b, In b l -> Path.is_prefix (backup_path b) p = false) ->
         FS.readFile (fs w') p = FS.readFile (fs w) p.
Proof.
  induction l as [|b l IH]; intros w.
  - exists w. repeat split; reflexivity.
  - assert (Hb : exists w1,
              removeOldBackup b w = (Return tt, w1) /\ operations w1 = operations w
              /\ forall p, Path.is_prefix (backup_path b) p = false ->
                   FS.readFile (fs w1) p = FS.readFile (fs w) p).
    { unfold removeOldBackup, try_catch, fs_update.
      destruct (FS.unlink (fs w) (backup_path b)) as [g|] eqn:U.
      - exists (with_fs w g). split; [reflexivity|]. split; [reflexivity|].
        intros p Hp. exact (readFile_unlink_apart _ _ _ _ U Hp).
      - exists w. repeat split; reflexivity. }
    destruct Hb as (w1 & E1 & O1 & F1). destruct (IH w1) as (w' & E' & O' & _ & F').
    exists w'. split; [|split; [|split]].
    + simpl. rewrite (bind_return _ _ w tt w1 E1). exact E'.
    + congruence.
    + discriminate.
    + intros p Hp. rewrite F' by (intros b' Hb'; apply Hp; right; exact Hb').
      apply F1, Hp. left; reflexivity.
Qed.

(** X14: The retention pass never throws once the store could be listed.  It
    answers the smaller of the number of versions found and the cap,
    removes nothing when that number is within the cap, and in any case
    changes no file other than payloads that listed versions name. *)
Theorem retention_is_best_effort (w : World) (F : Path.t)
    (found : list BackupMetadata) :
  findBackupsByFilePath BACKUP_DIR_NORMALIZED host_Date_parse (fs w) F = Return found ->
  exists w',
    cleanupOldBackups' F w
    = (Return (Z.min (Z.of_nat (List.length found)) MAX_VERSIONS), w')
    /\ operations w' = operations w
    /\ (Z.of_nat (List.length found) <= MAX_VERSIONS -> w' = w)
    /\ forall p, (forall b, In b found -> Path.is_prefix (backup_path b) p = false) ->
         FS.readFile (fs w') p = FS.readFile (fs w) p.
Proof.
  intros Hfound. unfold cleanupOldBackups.
  rewrite (bind_return _ _ w found w) by (unfold lift; rewrite Hfound; reflexivity).
  destruct (MAX_VERSIONS <? Z.of_nat (List.length found)) eqn:E.
  - apply Z.ltb_lt in E. rewrite Z.min_r by lia.
    set (doomed := firstn _ _).
    destruct (forEach_removeOldBackup doomed w) as (w' & E' & O' & _ & F').
    exists w'. split; [rewrite (bind_return _ _ w tt w' E'); reflexivity|].
    split; [exact O'|]. split; [lia|].
    intros p Hp. apply F'. intros b Hb. apply Hp.
    apply (In_sort (fun a b => JS.sub (timeOf host_Date_parse a) (timeOf host_Date_parse b))).
    exact (In_firstn_inv _ _ _ Hb).
  - apply Z.ltb_ge in E. rewrite Z.min_l by lia.
    exists w. repeat split; reflexivity.
Qed.

End Retention.

Lemma bind_cases {A B} (m : M A) (k : A -> M B) w o w' :
  bind m k w = (o, w') ->
  (exists e, m w = (Throw e, w') /\ o = Throw e)
  \/ (exists a w1, m w = (Return a, w1) /\ k a w1 = (o, w')).
Proof.
  unfold bind. destruct (m w) as [[a|e] w1]; intros H.
  - right. eauto.
  - left. exists e. inversion H; subst. split; reflexivity.
Qed.

Section CreateFootprint.

Variable BACKUP_DIR_NORMALIZED : Path.t.
Variable EMERGENCY_BACKUP_DIR_NORMALIZED : Path.t.
Variable MAX_VERSIONS : Z.
Variable cwd : Path.t.
Variable minimatch : string -> string -> bool.
Variable host_Date_parse : string -> JS.number.

Abbreviation Call :=
  (CallTool BACKUP_DIR_NORMALIZED EMERGENCY_BACKUP_DIR_NORMALIZED MAX_VERSIONS
            cwd minimatch host_Date_parse).

(** The descriptors the walk meets after the three writes of a create
    call: the new one, and those it met before, which read as before. *)
Lemma scan_after_create F T f f1 f2 f3 c text :
  is_digit_end T = true ->
  let backupPath :=
    Path.join (getBackupDir BACKUP_DIR_NORMALIZED F) [getBackupFilename F T] in
  let metadataPath := getBackupMetadataFilename backupPath in
  FS.mkdir_p f (getBackupDir BACKUP_DIR_NORMALIZED F) = Some f1 ->
  FS.writeFile f1 backupPath c = Some f2 ->
  FS.writeFile f2 metadataPath text = Some f3 ->
  forall found3 q,
    findAllBackupMetadataFiles f3 BACKUP_DIR_NORMALIZED = Return found3 ->
    In q found3 ->
    q = metadataPath
    \/ exists found,
         findAllBackupMetadataFiles f BACKUP_DIR_NORMALIZED = Return found
         /\ In q found
         /\ readBackupMetadata f3 q = readBackupMetadata f q.
Proof.
  intros HT backupPath metadataPath Hmk HwB HwD found3 q Hscan Hq.
  destruct (decide (q = metadataPath)) as [->|HqD]; [left; reflexivity|].
  right.
  assert (EB : backupPath
               = BACKUP_DIR_NORMALIZED ++ (Path.dirname F ++ [getBackupFilename F T])).
  { unfold backupPath, Path.join, getBackupDir, relativeDir, Path.join, Path.normalize.
    rewrite <- app_assoc. reflexivity. }
  assert (ED : metadataPath
               = BACKUP_DIR_NORMALIZED
                 ++ (Path.dirname F ++ [getBackupFilename F T +:+ ".meta.json"])).
  { unfold metadataPath, backupPath. rewrite metadataPath_eq.
    unfold getBackupDir, relativeDir, Path.join, Path.normalize.
    rewrite <- app_assoc. reflexivity. }
  assert (H1 : exists n1, FS.lookup f1 BACKUP_DIR_NORMALIZED = Some n1
                          /\ forall p, In p (metadataFilesIn n1 BACKUP_DIR_NORMALIZED) ->
                               exists l, findAllBackupMetadataFiles f BACKUP_DIR_NORMALIZED = Return l
                                         /\ In p l).
  { unfold getBackupDir, relativeDir, Path.join, Path.normalize in Hmk.
    destruct (FS.lookup f BACKUP_DIR_NORMALIZED) as [n0|] eqn:E0.
    - destruct (mkdir_p_under _ _ _ _ _ E0 Hmk) as (n1 & Hn1 & Hl1).
      exists n1. split; [exact Hl1|]. intros p Hp.
      rewrite (mkdir_p_same_walk _ _ _ BACKUP_DIR_NORMALIZED Hn1) in Hp.
      destruct (mkdir_p_Dir _ _ _ Hn1) as [items ->].
      exists (metadataFilesIn (FS.Dir items) BACKUP_DIR_NORMALIZED).
      unfold findAllBackupMetadataFiles. rewrite E0. split; [reflexivity | exact Hp].
    - exists (FS.fresh_dirs (Path.dirname F)).
      split; [exact (mkdir_p_created _ _ _ _ E0 Hmk)|].
      intros p Hp. rewrite metadataFilesIn_fresh in Hp. destruct Hp. }
  destruct H1 as (n1 & L1 & Hold).
  pose proof HwB as HwB'. rewrite EB in HwB'.
  destruct (writeFile_under _ _ _ _ _ _ L1 (snoc_not_nil _ _) HwB') as (n2 & W2 & L2).
  pose proof HwD as HwD'. rewrite ED in HwD'.
  destruct (writeFile_under _ _ _ _ _ _ L2 (snoc_not_nil _ _) HwD') as (n3 & W3 & L3).
  destruct (writeFile_is_Dir _ _ _ _ W3) as [items3 E3].
  unfold findAllBackupMetadataFiles in Hscan. rewrite L3, E3 in Hscan.
  rewrite <- E3 in Hscan. injection Hscan as <-.
  destruct (writeFile_walk _ _ _ _ BACKUP_DIR_NORMALIZED q W3 Hq) as [Hq2|Hq2];
    [|rewrite <- ED in Hq2; contradiction].
  assert (HqB : q <> backupPath).
  { intros ->. pose proof (walk_last _ _ _ Hq2) as Hl.
    unfold backupPath in Hl. rewrite backupPath_last, (payload_name_not_meta F T HT) in Hl.
    discriminate. }
  destruct (writeFile_walk _ _ _ _ BACKUP_DIR_NORMALIZED q W2 Hq2) as [Hq1|Hq1];
    [|rewrite <- EB in Hq1; contradiction].
  destruct (Hold q Hq1) as (l & Hl & HIn).
  exists l. split; [exact Hl|]. split; [exact HIn|].
  unfold readBackupMetadata.
  rewrite (readFile_writeFile_other _ _ _ _ q HwD HqD).
  rewrite (readFile_writeFile_other _ _ _ _ q HwB HqB).
  rewrite (readFile_mkdir_p _ _ _ q Hmk). reflexivity.
Qed.


Lemma cleanupOldBackups_footprint F w p :
  (forall found b,
     findBackupsByFilePath BACKUP_DIR_NORMALIZED host_Date_parse (fs w) F = Return found ->
     In b found -> Path.is_prefix (backup_path b) p = false) ->
  FS.readFile
    (fs (snd (cleanupOldBackups BACKUP_DIR_NORMALIZED MAX_VERSIONS host_Date_parse F w))) p
  = FS.readFile (fs w) p.
Proof.
  intros Hp. unfold cleanupOldBackups, bind at 1, lift.
  destruct (findBackupsByFilePath _ _ (fs w) F) as [found|e] eqn:Hfound; [|reflexivity].
  destruct (MAX_VERSIONS <? Z.of_nat (List.length found)); [|reflexivity].
  set (doomed := firstn _ _).
  destruct (forEach_removeOldBackup doomed w) as (w' & E' & _ & _ & F').
  rewrite (bind_return _ _ w tt w' E'). cbn [ret snd].
  apply F'. intros b Hb. apply (Hp found b eq_refl).
  apply (In_sort (fun a b => JS.sub (timeOf host_Date_parse a) (timeOf host_Date_parse b))).
  exact (In_firstn_inv _ _ _ Hb).
Qed.

(** X3: What [backup_create] writes and removes lies in the backup store,
    as long as the descriptors of the file already there name payloads
    in the store. *)
Theorem create_stays_in_the_store (w : World) (F : Path.t) (ctx : option string)
    (p : Path.t) :
  (forall found q b,
     findAllBackupMetadataFiles (fs w) BACKUP_DIR_NORMALIZED = Return found ->
     In q found -> readBackupMetadata (fs w) q = Some b -> original_path b = F ->
     Path.is_prefix BACKUP_DIR_NORMALIZED (backup_path b) = true) ->
  Path.is_prefix BACKUP_DIR_NORMALIZED p = false ->
  FS.readFile (fs (snd (Call (backup_create (Some F) ctx) w))) p = FS.readFile (fs w) p.
Proof.
  intros Hstore Hp.
  pose proof (live_registered "backup_create" w) as Hlive.
  unfold CallTool. rewrite createOperation_eq. cbn [tool_name id new_operation].
  set (w0 := registered "backup_create" w) in *.
  match goal with
  | |- FS.readFile (fs (snd (match ?run with _ => _ end))) _ = _ =>
      destruct run as [o w2] eqn:E;
      assert (G : FS.readFile (fs w2) p = FS.readFile (fs w) p);
      [|destruct o; exact G]
  end.
  unfold handle_backup_create in E. cbn [is_some or_else] in E.
  unfold Path.normalize in E.
  rewrite (bind_return _ _ w0 tt w0) in E by reflexivity.
  apply bind_cases in E as [(e & E & _)|([] & w0' & Hv & E)].
  { unfold validateFileExists in E.
    destruct (FS.isFile _ _); try discriminate; apply (f_equal snd) in E; cbn [snd] in E; subst w2;
      reflexivity. }
  assert (HF : exists c, FS.readFile (fs w) F = Some c /\ w0' = w0).
  { unfold validateFileExists, FS.isFile in Hv. unfold FS.readFile.
    change (fs w0) with (fs w) in Hv.
    destruct (FS.lookup (fs w) F) as [[c|?]|]; try discriminate.
    inversion Hv. eauto. }
  destruct HF as (c & HF & ->). clear Hv.
  apply bind_cases in E as [(e & E & _)|(T & wa & Hts & E)].
  { unfold generateTimestamp_now, bind, new_Date, ret in E. discriminate. }
  unfold generateTimestamp_now, bind, new_Date, ret in Hts.
  injection Hts as HT Hwa.
  assert (HTd : is_digit_end T = true) by (rewrite <- HT; apply generateTimestamp_digit_end).
  assert (Hpath : forall q, Path.is_prefix BACKUP_DIR_NORMALIZED q = true -> p <> q).
  { intros q Hq ->. congruence. }
  set (backupPath :=
         Path.join (getBackupDir BACKUP_DIR_NORMALIZED F) [getBackupFilename F T]) in *.
  assert (HB : Path.is_prefix BACKUP_DIR_NORMALIZED backupPath = true).
  { unfold backupPath, getBackupDir, relativeDir, Path.join, Path.normalize.
    rewrite <- app_assoc. apply is_prefix_app. }
  assert (HD : Path.is_prefix BACKUP_DIR_NORMALIZED
                 (getBackupMetadataFilename backupPath) = true).
  { unfold backupPath. rewrite metadataPath_eq.
    unfold getBackupDir, relativeDir, Path.join, Path.normalize.
    rewrite <- app_assoc. apply is_prefix_app. }
  apply bind_cases in E as [(e & E & _)|([] & wb & Hmk & E)].
  { unfold ensureBackupDirectoryExists, fs_update in E.
    destruct (FS.mkdir_p (fs wa) _); try discriminate; apply (f_equal snd) in E; cbn [snd] in E;
      subst w2 wa; reflexivity. }
  unfold ensureBackupDirectoryExists, fs_update in Hmk.
  destruct (FS.mkdir_p (fs wa) _) as [f1|] eqn:Emk; [|discriminate].
  injection Hmk as Hwb.
  assert (Emk' : FS.mkdir_p (fs w) (getBackupDir BACKUP_DIR_NORMALIZED F) = Some f1)
    by (subst wa; exact Emk).
  rewrite (bind_return _ _ wb tt wb) in E by reflexivity.
  rewrite checkpoint_pass in E by (subst wb wa; exact Hlive).
  assert (G1 : FS.readFile f1 p = FS.readFile (fs w) p)
    by exact (readFile_mkdir_p _ _ _ p Emk').
  apply bind_cases in E as [(e & E & _)|([] & wc & Hcp & E)].
  { unfold fs_update in E.
    destruct (FS.copyFile _ _ _); try discriminate; apply (f_equal snd) in E; cbn [snd] in E;
      subst w2 wb; exact G1. }
  unfold fs_update, FS.copyFile in Hcp.
  assert (HFb : FS.readFile (fs wb) F = Some c).
  { subst wb. cbn [fs with_fs]. rewrite (readFile_mkdir_p _ _ _ _ Emk'). exact HF. }
  rewrite HFb in Hcp.
  destruct (FS.writeFile (fs wb) _ c) as [f2|] eqn:EwB; [|discriminate].
  injection Hcp as Hwc.
  assert (EwB' : FS.writeFile f1 backupPath c = Some f2) by (subst wb; exact EwB).
  assert (G2 : FS.readFile f2 p = FS.readFile (fs w) p).
  { rewrite (readFile_writeFile_other _ _ _ _ p EwB' (Hpath _ HB)). exact G1. }
  rewrite (bind_return _ _ wc tt wc) in E by reflexivity.
  rewrite checkpoint_pass in E by (subst wc wb wa; exact Hlive).
  apply bind_cases in E as [(e & E & _)|(m0 & wd & Hmeta & E)].
  { unfold createBackupMetadata, bind, new_Date, ret in E. discriminate. }
  unfold createBackupMetadata, bind, new_Date, ret in Hmeta.
  injection Hmeta as Hm0 Hwd.
  apply bind_cases in E as [(e & E & _)|([] & we & Hsave & E)].
  { unfold saveBackupMetadata, fs_update in E.
    destruct (FS.writeFile (fs wd) _ _); try discriminate; apply (f_equal snd) in E; cbn [snd] in E;
      subst w2 wd wc; exact G2. }
  unfold saveBackupMetadata, fs_update in Hsave.
  destruct (FS.writeFile (fs wd) _ _) as [f3|] eqn:EwD; [|discriminate].
  injection Hsave as Hwe.
  assert (EwD' : FS.writeFile f2 (getBackupMetadataFilename backupPath)
                   (JSON.stringify m0) = Some f3) by (subst wd wc; exact EwD).
  assert (HrD : FS.readFile f3 (getBackupMetadataFilename backupPath)
                = Some (JSON.stringify m0))
    by exact (readFile_writeFile_same _ _ _ _ EwD').
  assert (G3 : FS.readFile f3 p = FS.readFile (fs w) p).
  { rewrite (readFile_writeFile_other _ _ _ _ p EwD' (Hpath _ HD)). exact G2. }
  rewrite (bind_return _ _ we tt we) in E by reflexivity.
  assert (G4 : FS.readFile
                 (fs (snd (cleanupOldBackups BACKUP_DIR_NORMALIZED MAX_VERSIONS
                             host_Date_parse F we))) p
               = FS.readFile (fs w) p).
  { rewrite cleanupOldBackups_footprint; [subst we; exact G3|].
    intros found b Hfound Hb.
    assert (Hin : Path.is_prefix BACKUP_DIR_NORMALIZED (backup_path b) = true).
    { unfold findBackupsByFilePath in Hfound.
      destruct (findAllBackupMetadataFiles (fs we) _) as [found3|] eqn:Hscan;
        [|discriminate].
      injection Hfound as <-. apply In_sort in Hb.
      apply filter_In in Hb as [Hb Hflt].
      apply andb_true_iff in Hflt as [Ho _]. apply bool_decide_eq_true in Ho.
      apply In_keep_some in Hb. apply in_map_iff in Hb as (q & Hq & Hqin).
      subst we. cbn [fs with_fs] in *.
      destruct (scan_after_create F T (fs w) f1 f2 f3 c (JSON.stringify m0)
                  HTd Emk' EwB' EwD' found3 q Hscan Hqin)
        as [->|(found0 & Hscan0 & Hin0 & Hread)].
      - unfold readBackupMetadata in Hq. fold backupPath in Hq.
        rewrite HrD, parse_stringify in Hq.
        injection Hq as <-. subst m0. exact HB.
      - rewrite Hread in Hq. exact (Hstore found0 q b Hscan0 Hin0 Hq Ho). }
    destruct (Path.is_prefix (backup_path b) p) eqn:Hbp; [|reflexivity].
    rewrite (is_prefix_trans _ _ _ Hin Hbp) in Hp. discriminate. }
  apply bind_cases in E as [(e & E & _)|(k & wf & Hcl & E)].
  { rewrite E in G4. exact G4. }
  rewrite Hcl in G4. cbn [snd] in G4.
  rewrite (bind_return _ _ wf tt wf) in E by reflexivity.
  unfold ret in E. apply (f_equal snd) in E; cbn [snd] in E. subst w2. exact G4.
Qed.

End CreateFootprint.

(** ** What a successful backup leaves behind *)

Section Listed.

Variable BACKUP_DIR_NORMALIZED : Path.t.
Variable EMERGENCY_BACKUP_DIR_NORMALIZED : Path.t.
Variable MAX_VERSIONS : Z.
Variable cwd : Path.t.
Variable minimatch : string -> string -> bool.
Variable host_Date_parse : string -> JS.number.

Abbreviation Call :=
  (CallTool BACKUP_DIR_NORMALIZED EMERGENCY_BACKUP_DIR_NORMALIZED MAX_VERSIONS
            cwd minimatch host_Date_parse).

(** The walk below [dir] meets a descriptor that lies below it. *)
Lemma scan_meets f dir r d :
  FS.lookup f (dir ++ r) = Some (FS.File d) -> r <> [] ->
  JS.endsWith (List.last r EmptyString) ".meta.json" = true ->
  exists found,
    findAllBackupMetadataFiles f dir = Return found /\ In (dir ++ r) found.
Proof.
  intros H Hr He. unfold findAllBackupMetadataFiles. rewrite lookup_app in H.
  destruct (FS.lookup f dir) as [[d0|items]|]; [| |discriminate].
  - destruct r; [congruence | discriminate].
  - eexists. split; [reflexivity|]. exact (walk_complete r _ dir d H Hr He).
Qed.


End Listed.

Section Snapshot.

Variable EMERGENCY_BACKUP_DIR_NORMALIZED : Path.t.
Variable cwd : Path.t.

(** X17: When [createEmergencyBackup] returns a path, the path is the
    file's place in the emergency store under a fresh timestamp, and it
    holds what the file held. *)
Theorem emergency_snapshot_holds_the_file (w w' : World) (F p : Path.t) :
  createEmergencyBackup EMERGENCY_BACKUP_DIR_NORMALIZED cwd F w = (Return (Some p), w') ->
  p = EMERGENCY_BACKUP_DIR_NORMALIZED ++ Path.dirname F
      ++ [Path.name F +:+ Path.ext F +:+ ".emergency."
          +:+ generateTimestamp (clock w (clock_reads w))]
  /\ exists c, FS.readFile (fs w) F = Some c /\ FS.readFile (fs w') p = Some c.
Proof.
  intros H. unfold createEmergencyBackup, try_catch in H.
  destruct (FS.existsSync (fs w) F); cbn [negb] in H; [|discriminate].
  match type of H with
  | match ?run with _ => _ end = _ => destruct run as [[a|e] w1] eqn:E; [|discriminate]
  end.
  injection H as -> ->.
  apply bind_inv in E as ([] & wa & Hen & E).
  assert (Ha : clock wa = clock w /\ clock_reads wa = clock_reads w
               /\ forall q, FS.readFile (fs wa) q = FS.readFile (fs w) q).
  { unfold ensureEmergencyBackupDir, ensureTarget, fs_update in Hen.
    destruct (FS.existsSync (fs w) _).
    - injection Hen as <-. repeat split.
    - destruct (FS.mkdir_p (fs w) _) as [f0|] eqn:E0; [|discriminate].
      injection Hen as <-. cbn [clock clock_reads fs with_fs].
      repeat split. intros q. exact (readFile_mkdir_p _ _ _ q E0). }
  destruct Ha as (Hck & Hcr & Hfa).
  apply bind_inv in E as (T & wb & Hts & E).
  unfold generateTimestamp_now, bind, new_Date, ret in Hts.
  injection Hts as HT Hwb. rewrite Hck, Hcr in HT.
  apply bind_inv in E as ([] & wc & Hmk & E).
  unfold fs_update in Hmk.
  destruct (FS.mkdir_p (fs wb) _) as [f1|] eqn:Emk; [|discriminate].
  injection Hmk as Hwc.
  apply bind_inv in E as ([] & wd & Hcp & E).
  unfold fs_update, FS.copyFile in Hcp.
  destruct (FS.readFile (fs wc) F) as [c|] eqn:HF; [|discriminate].
  destruct (FS.writeFile (fs wc) _ c) as [f2|] eqn:EwB; [|discriminate].
  injection Hcp as Hwd.
  apply bind_inv in E as (m0 & we & Hmeta & E).
  unfold createBackupMetadata, bind, new_Date, ret in Hmeta.
  injection Hmeta as Hm0 Hwe.
  apply bind_inv in E as ([] & wf & Hsave & E).
  unfold fs_update in Hsave.
  destruct (FS.writeFile (fs we) _ _) as [f3|] eqn:EwD; [|discriminate].
  injection Hsave as Hwf.
  unfold ret in E. injection E as Hp Hw.
  unfold Path.join, relativeDir, Path.normalize in *.
  split.
  - rewrite <- Hp, <- HT, <- app_assoc. reflexivity.
  - exists c. split.
    + rewrite <- Hfa. subst wc wb. cbn [fs with_fs] in HF.
      rewrite (readFile_mkdir_p _ _ _ F Emk) in HF. exact HF.
    + subst w' wf we wd. cbn [fs with_fs] in *.
      rewrite (readFile_writeFile_other _ _ _ _ p EwD).
      * rewrite <- Hp. exact (readFile_writeFile_same _ _ _ _ EwB).
      * rewrite <- Hp. intros Heq.
        apply (f_equal (fun l => List.last l EmptyString)) in Heq.
        rewrite !last_app_ne in Heq by discriminate. cbn [List.last] in Heq.
        assert (D1 : is_digit_end (Path.name F +:+ Path.ext F +:+ ".emergency." +:+ T)
                     = true).
        { do 3 apply is_digit_end_append. rewrite <- HT.
          apply generateTimestamp_digit_end. }
        apply digit_end_not_meta in D1. rewrite Heq in D1.
        rewrite <- (append_assoc (Path.name F) ".emergency." (T +:+ ".meta.json")) in D1.
        rewrite <- (append_assoc (Path.name F +:+ ".emergency.") T ".meta.json") in D1.
        rewrite endsWith_append in D1. discriminate D1.
Qed.

End Snapshot.

Section FolderBackup.

Variable BACKUP_DIR_NORMALIZED : Path.t.
Variable EMERGENCY_BACKUP_DIR_NORMALIZED : Path.t.
Variable MAX_VERSIONS : Z.
Variable cwd : Path.t.
Variable minimatch : string -> string -> bool.
Variable host_Date_parse : string -> JS.number.

Abbreviation Call :=
  (CallTool BACKUP_DIR_NORMALIZED EMERGENCY_BACKUP_DIR_NORMALIZED MAX_VERSIONS
            cwd minimatch host_Date_parse).

Lemma siblings_apart (l : Path.t) (x y : string) :
  x <> y -> Path.is_prefix (l ++ [x]) (l ++ [y]) = false.
Proof.
  intros H. induction l as [|a l IH]; simpl.
  - apply String.eqb_neq in H. rewrite H. reflexivity.
  - rewrite String.eqb_refl. exact IH.
Qed.

Lemma longer_is_no_prefix (l : Path.t) (x : string) : Path.is_prefix (l ++ [x]) l = false.
Proof.
  destruct (Path.is_prefix (l ++ [x]) l) eqn:E; [|reflexivity].
  apply is_prefix_length in E. rewrite length_app in E. simpl in E. lia.
Qed.

Lemma lookup_graft_apart p : forall fs sub fs' a,
  FS.graft fs p sub = Some fs' ->
  Path.is_prefix a p = false -> Path.is_prefix p a = false ->
  FS.lookup fs' a = FS.lookup fs a.
Proof.
  induction p as [|s p IH]; intros fs sub fs' a H Na Np; [discriminate Np|].
  destruct fs as [d0|items]; [discriminate|].
  destruct a as [|t a]; [discriminate|].
  simpl in H, Na, Np.
  destruct (String.eqb_spec t s) as [->|Ne].
  - rewrite String.eqb_refl in Np. simpl in Na, Np.
    destruct (FS.assoc s items) as [c|] eqn:E.
    + destruct (FS.graft c p sub) as [c'|] eqn:G; [|discriminate].
      inversion H; subst. simpl. rewrite assoc_replace_same, E.
      exact (IH c sub c' a G Na Np).
    + destruct p; [discriminate Np | discriminate H].
  - assert (Hs : s <> t) by congruence.
    destruct (FS.assoc s items) as [c|] eqn:E.
    + destruct (FS.graft c p sub) as [c'|] eqn:G; [|discriminate].
      inversion H; subst. simpl. rewrite assoc_replace_other by assumption. reflexivity.
    + destruct p; [|discriminate]. inversion H; subst. simpl.
      rewrite assoc_app. destruct (FS.assoc t items); [reflexivity|].
      simpl. destruct (String.eqb_spec t s); [congruence | reflexivity].
Qed.

(** Two directories that lie apart: nothing below the one is above or
    below the other. *)
Lemma apart_below (a b x : Path.t) :
  Path.is_prefix a b = false -> Path.is_prefix b a = false ->
  Path.is_prefix a x = true ->
  Path.is_prefix b x = false /\ Path.is_prefix x b = false.
Proof.
  intros Hab Hba Hax. split.
  - destruct (Path.is_prefix b x) eqn:E; [|reflexivity].
    destruct (is_prefix_common _ _ _ Hax E); congruence.
  - destruct (Path.is_prefix x b) eqn:E; [|reflexivity].
    rewrite (is_prefix_trans _ _ _ Hax E) in Hab. discriminate.
Qed.

(** The steps of a [backup_folder_create] call that succeeds without
    trimming: what it leaves at the backup folder, at the descriptor and
    at the source. *)
Lemma folder_create_steps (w w1 : World) (P : Path.t)
    (include_pattern exclude_pattern ctx : option string) (m : BackupMetadata) (k : Z)
    (src : FS.node) :
  let T := generateTimestamp (clock w (clock_reads w)) in
  let backupFolderPath :=
    Path.join (getBackupDir BACKUP_DIR_NORMALIZED P) [getBackupFolderName P T] in
  Path.is_prefix BACKUP_DIR_NORMALIZED P = false ->
  Path.is_prefix P BACKUP_DIR_NORMALIZED = false ->
  FS.lookup (fs w) P = Some src ->
  FS.distinct_names src = true ->
  FS.lookup (fs w) backupFolderPath = None ->
  Call (backup_folder_create (Some P) include_pattern exclude_pattern ctx) w
  = (JsonResponse (Created m k), w1) ->
  k < MAX_VERSIONS ->
  original_path m = P /\ timestamp m = T /\ backup_path m = backupFolderPath
  /\ FS.lookup (fs w1) backupFolderPath
     = Some (prune minimatch include_pattern exclude_pattern src)
  /\ FS.lookup (fs w1) P = Some src
  /\ (exists items, src = FS.Dir items)
  /\ FS.readFile (fs w1) (Path.add_suffix backupFolderPath ".meta.json")
     = Some (JSON.stringify m).
Proof.
  intros T B Hap1 Hap2 Hsrc Hd Hnew H Hk.
  assert (EB0 : B = BACKUP_DIR_NORMALIZED ++ (Path.dirname P ++ [getBackupFolderName P T])).
  { unfold B, getBackupDir, relativeDir, Path.join, Path.normalize.
    rewrite <- app_assoc. reflexivity. }
  assert (ED0 : Path.add_suffix B ".meta.json"
                = BACKUP_DIR_NORMALIZED
                  ++ (Path.dirname P ++ [getBackupFolderName P T +:+ ".meta.json"])).
  { unfold B, getBackupDir, relativeDir, Path.join, Path.normalize.
    rewrite add_suffix_snoc, <- app_assoc. reflexivity. }
  destruct (apart_below BACKUP_DIR_NORMALIZED P B Hap1 Hap2) as [Hout HBP];
    [rewrite EB0; apply is_prefix_app|].
  destruct (apart_below BACKUP_DIR_NORMALIZED P (Path.add_suffix B ".meta.json") Hap1 Hap2)
    as [HPD HDP]; [rewrite ED0; apply is_prefix_app|].
  pose proof (live_registered "backup_folder_create" w) as Hlive.
  unfold CallTool in H. rewrite createOperation_eq in H.
  cbn [tool_name id new_operation] in H.
  set (w0 := registered "backup_folder_create" w) in *.
  match type of H with
  | match ?run with _ => _ end = _ =>
      assert (E : run = (Return (JsonResponse (Created m k)), w1))
        by (destruct run as [[r|e] w2]; [congruence | discriminate])
  end.
  clear H. unfold handle_backup_folder_create in E. cbn [is_some or_else] in E.
  unfold Path.normalize in E.
  rewrite (bind_return _ _ w0 tt w0) in E by reflexivity.
  apply bind_inv in E as ([] & w0' & Hv & E).
  assert (Hdir : (exists items, src = FS.Dir items) /\ w0' = w0).
  { unfold validateFolderExists, FS.isDirectory in Hv. change (fs w0) with (fs w) in Hv.
    rewrite Hsrc in Hv. destruct src as [?|items]; [discriminate|].
    injection Hv as <-. eauto. }
  destruct Hdir as [[items Hitems] ->]. clear Hv.
  apply bind_inv in E as (T' & wa & Hts & E).
  unfold generateTimestamp_now, bind, new_Date, ret in Hts.
  injection Hts as HT' Hwa.
  change (generateTimestamp (clock w (clock_reads w))) with T in HT'. subst T'.
  fold B in E.
  assert (HTd : is_digit_end T = true) by apply generateTimestamp_digit_end.
  assert (EB : B = getBackupDir BACKUP_DIR_NORMALIZED P ++ [getBackupFolderName P T])
    by reflexivity.
  apply bind_inv in E as ([] & wb & Hmk & E).
  unfold ensureBackupDirectoryExists, fs_update in Hmk.
  destruct (FS.mkdir_p (fs wa) _) as [f1|] eqn:Emk; [|discriminate].
  injection Hmk as Hwb.
  assert (Emk' : FS.mkdir_p (fs w) (getBackupDir BACKUP_DIR_NORMALIZED P) = Some f1)
    by (subst wa; exact Emk).
  assert (HPd : Path.is_prefix P (getBackupDir BACKUP_DIR_NORMALIZED P) = false).
  { destruct (Path.is_prefix P (getBackupDir BACKUP_DIR_NORMALIZED P)) eqn:Ep;
      [|reflexivity].
    rewrite <- Hout. symmetry. rewrite EB.
    exact (is_prefix_trans _ _ _ Ep (is_prefix_app _ _)). }
  assert (L1P : FS.lookup f1 P = Some src)
    by (rewrite (lookup_mkdir_p_off _ _ _ P Emk' HPd); exact Hsrc).
  assert (L1B : FS.lookup f1 B = None).
  { rewrite (lookup_mkdir_p_off _ _ _ B Emk'); [exact Hnew|].
    rewrite EB. apply longer_is_no_prefix. }
  rewrite (bind_return _ _ wb tt wb) in E by reflexivity.
  rewrite checkpoint_pass in E by (subst wb wa; exact Hlive).
  apply bind_inv in E as ([] & wc & Hcp & E).
  unfold copyFolderContents in Hcp.
  apply bind_inv in Hcp as ([] & wb' & Hmk2 & Hcp).
  unfold fs_update in Hmk2.
  destruct (FS.mkdir_p (fs wb) B) as [f1'|] eqn:Emk2; [|discriminate].
  injection Hmk2 as Hwb'.
  assert (Emk2' : FS.mkdir_p f1 B = Some f1') by (subst wb; exact Emk2).
  pose proof (mkdir_p_fresh _ _ _ L1B Emk2') as Hfresh.
  unfold copyFolderRecursive in Hcp.
  assert (L1P' : FS.lookup (fs wb') P = Some src).
  { subst wb'. cbn [fs with_fs].
    rewrite (lookup_mkdir_p_off _ _ _ P Emk2' Hout). exact L1P. }
  rewrite L1P' in Hcp.
  destruct (copyTree_graft minimatch include_pattern exclude_pattern src Hd items Hitems
              P B wb' f1')
    as (f2 & Hrun & Hgraft).
  { right. subst wb'. exact Hfresh. }
  { subst wb'. cbn [fs with_fs]. exact (graft_same _ _ _ Hfresh). }
  rewrite Hrun in Hcp. injection Hcp as Hwc.
  assert (L2B : FS.lookup f2 B = Some (prune minimatch include_pattern exclude_pattern src))
    by exact (lookup_graft _ _ _ _ Hgraft).
  assert (L2P : FS.lookup f2 P = Some src).
  { subst wb'. cbn [fs with_fs] in *.
    rewrite (lookup_graft_apart _ _ _ _ P Hgraft Hout HBP).
    rewrite (lookup_mkdir_p_off _ _ _ P Emk2' Hout). exact L1P. }
  rewrite (bind_return _ _ wc tt wc) in E by reflexivity.
  rewrite checkpoint_pass in E by (subst wc wb' wb wa; exact Hlive).
  apply bind_inv in E as (m0 & wd & Hmeta & E).
  unfold createBackupMetadata, bind, new_Date, ret in Hmeta.
  injection Hmeta as Hm0 Hwd.
  apply bind_inv in E as ([] & we & Hsave & E).
  unfold saveBackupMetadata, fs_update in Hsave.
  destruct (FS.writeFile (fs wd) _ _) as [f3|] eqn:EwD; [|discriminate].
  injection Hsave as Hwe.
  rewrite (bind_return _ _ we tt we) in E by reflexivity.
  apply bind_inv in E as (k' & wf & Hcl & E).
  rewrite (bind_return _ _ wf tt wf) in E by reflexivity.
  unfold ret, formatJsonResponse in E. injection E as Em Ek Ew.
  subst k'. pose proof (cleanupOldBackups_untrimmed _ _ _ _ _ _ _ Hcl Hk) as Hwf.
  subst m0. rewrite <- Em. cbn [original_path timestamp backup_path].
  split; [reflexivity|]. split; [reflexivity|]. split; [reflexivity|].
  rewrite Em. rewrite Em in EwD.
  subst w1 wf we wd wc. cbn [fs with_fs] in *.
  assert (ED : Path.add_suffix B ".meta.json"
               = getBackupDir BACKUP_DIR_NORMALIZED P
                 ++ [getBackupFolderName P T +:+ ".meta.json"])
    by (rewrite EB; apply add_suffix_snoc).
  assert (Hne : getBackupFolderName P T <> getBackupFolderName P T +:+ ".meta.json").
  { intros Heq.
    assert (D1 : is_digit_end (getBackupFolderName P T) = true)
      by (unfold getBackupFolderName; do 2 apply is_digit_end_append; exact HTd).
    apply digit_end_not_meta in D1. rewrite Heq, endsWith_append in D1. discriminate D1. }
  split; [|split; [|split]].
  - rewrite (lookup_writeFile_apart _ _ _ _ B EwD); [exact L2B | |].
    + rewrite ED, EB. apply siblings_apart. exact Hne.
    + rewrite ED, EB. apply siblings_apart. congruence.
  - rewrite (lookup_writeFile_apart _ _ _ _ P EwD HPD HDP). exact L2P.
  - eauto.
  - exact (readFile_writeFile_same _ _ _ _ EwD).
Qed.

(** X18: The folder a successful [backup_folder_create] reports holds
    the source folder without the entries the patterns skip, at every
    level, and the source folder is as it was, when the folder and the
    store lie apart, no name is listed twice in the source, the backup
    folder did not exist and fewer versions are kept than the cap. *)
Theorem folder_backup_holds_the_filtered_folder (w w1 : World) (P : Path.t)
    (include_pattern exclude_pattern ctx : option string) (m : BackupMetadata) (k : Z)
    (src : FS.node) :
  let T := generateTimestamp (clock w (clock_reads w)) in
  let backupFolderPath :=
    Path.join (getBackupDir BACKUP_DIR_NORMALIZED P) [getBackupFolderName P T] in
  Path.is_prefix BACKUP_DIR_NORMALIZED P = false ->
  Path.is_prefix P BACKUP_DIR_NORMALIZED = false ->
  FS.lookup (fs w) P = Some src ->
  FS.distinct_names src = true ->
  FS.lookup (fs w) backupFolderPath = None ->
  Call (backup_folder_create (Some P) include_pattern exclude_pattern ctx) w
  = (JsonResponse (Created m k), w1) ->
  k < MAX_VERSIONS ->
  original_path m = P /\ timestamp m = T /\ backup_path m = backupFolderPath
  /\ FS.lookup (fs w1) backupFolderPath
     = Some (prune minimatch include_pattern exclude_pattern src)
  /\ FS.lookup (fs w1) P = Some src.
Proof.
  intros T B Hap1 Hap2 Hsrc Hd Hnew H Hk.
  destruct (folder_create_steps w w1 P include_pattern exclude_pattern ctx m k src
              Hap1 Hap2 Hsrc Hd Hnew H Hk) as (Ho & Ht & Hb & HB & HP & _).
  repeat split; assumption.
Qed.



End FolderBackup.

(** ** Copying onto a folder that exists *)

Section Merge.

Variable minimatch : string -> string -> bool.
Variables includePattern excludePattern : option string.

Abbreviation skipped' name := (skipped minimatch name includePattern excludePattern).
Abbreviation copyTree' src sp tp :=
  (copyTree minimatch src sp tp includePattern excludePattern).

(** A copy of [src] that succeeds leaves every file of [src] that no
    pattern skips at its place below the target, and changes no file
    outside the target nor at a place below it that [src] does not
    have. *)
Abbreviation lands src :=
  (forall sp tp w w',
     copyTree' src sp tp w = (Return tt, w') ->
     operations w' = operations w
     /\ (forall r d, FS.lookup src r = Some (FS.File d) ->
                     forallb (fun name => negb (skipped' name)) r = true ->
                     FS.readFile (fs w') (tp ++ r) = Some d)
     /\ (forall q, Path.is_prefix tp q = false ->
                   FS.readFile (fs w') q = FS.readFile (fs w) q)
     /\ (forall r, FS.lookup src r = None ->
                   FS.readFile (fs w') (tp ++ r) = FS.readFile (fs w) (tp ++ r))).

Lemma ensureTarget_reads tp w o w' :
  ensureTarget tp w = (o, w') ->
  operations w' = operations w /\ forall q, FS.readFile (fs w') q = FS.readFile (fs w) q.
Proof.
  unfold ensureTarget, fs_update. destruct (FS.existsSync (fs w) tp).
  - intros H. injection H as _ <-. split; reflexivity.
  - destruct (FS.mkdir_p (fs w) tp) as [f1|] eqn:E; intros H; injection H as _ <-.
    + split; [reflexivity|]. intros q. exact (readFile_mkdir_p _ _ _ q E).
    + split; reflexivity.
Qed.

Lemma other_entry_apart (l : Path.t) (x y : string) (r : Path.t) :
  x <> y -> Path.is_prefix (l ++ [x]) (l ++ y :: r) = false.
Proof.
  intros H. induction l as [|a l IH]; simpl.
  - apply String.eqb_neq in H. rewrite H. reflexivity.
  - rewrite String.eqb_refl. exact IH.
Qed.

Lemma is_prefix_refl (p : Path.t) : Path.is_prefix p p = true.
Proof. induction p as [|a p IH]; simpl; [reflexivity|]. rewrite String.eqb_refl. exact IH. Qed.

Lemma copyEntries_lands sp tp : forall todo w w',
  Forall (fun kc => FS.distinct_names (snd kc) = true -> lands (snd kc)) todo ->
  FS.distinct_among FS.distinct_names todo = true ->
  copyEntries minimatch (fun entry srcPath destPath => copyTree' entry srcPath destPath)
    sp tp includePattern excludePattern todo w = (Return tt, w') ->
  operations w' = operations w
  /\ (forall name r d,
        FS.lookup (FS.Dir todo) (name :: r) = Some (FS.File d) ->
        forallb (fun name => negb (skipped' name)) (name :: r) = true ->
        FS.readFile (fs w') (tp ++ name :: r) = Some d)
  /\ (forall q, (forall k c, In (k, c) todo -> Path.is_prefix (tp ++ [k]) q = false) ->
                FS.readFile (fs w') q = FS.readFile (fs w) q)
  /\ (forall name r,
        FS.lookup (FS.Dir todo) (name :: r) = None ->
        FS.readFile (fs w') (tp ++ name :: r) = FS.readFile (fs w) (tp ++ name :: r)).
Proof.
  induction todo as [|[n c] rest IH]; intros w w' HF Hd H.
  - simpl in H. injection H as <-. split; [reflexivity|]. split; [|split; reflexivity].
    intros name r d Hl. discriminate Hl.
  - simpl in Hd. apply andb_true_iff in Hd as [Hd Hrest].
    apply andb_true_iff in Hd as [Hk Hc].
    destruct (FS.assoc n rest) eqn:Hn; [discriminate|]. clear Hk.
    inversion HF as [|? ? Hentry HFrest]; subst. cbn [snd] in Hentry.
    assert (Hother : forall r k c', In (k, c') rest ->
                       Path.is_prefix (tp ++ [k]) (tp ++ n :: r) = false).
    { intros r k c' HIn. apply other_entry_apart.
      intros ->. exact (assoc_In minimatch n c' rest Hn HIn). }
    simpl in H. destruct (skipped' n) eqn:Hs.
    + destruct (IH w w' HFrest Hrest H) as (Ro & Rl & Rf & Rn).
      split; [exact Ro|]. split; [|split].
      * intros name r d Hl Hok. simpl in Hl, Hok.
        destruct (String.eqb_spec name n) as [->|Ne].
        -- rewrite Hs in Hok. discriminate Hok.
        -- apply Rl; [simpl; exact Hl | exact Hok].
      * intros q Hq. apply Rf. intros k c' HIn. apply (Hq k c'). right; exact HIn.
      * intros name r Hl. simpl in Hl.
        destruct (String.eqb_spec name n) as [->|Ne].
        -- apply Rf. exact (Hother r).
        -- apply Rn. simpl. exact Hl.
    + apply bind_inv in H as ([] & w1 & Hstep & H).
      assert (S : operations w1 = operations w
                  /\ (forall r d, FS.lookup c r = Some (FS.File d) ->
                                  forallb (fun name => negb (skipped' name)) r = true ->
                                  FS.readFile (fs w1) (tp ++ n :: r) = Some d)
                  /\ (forall q, Path.is_prefix (tp ++ [n]) q = false ->
                                FS.readFile (fs w1) q = FS.readFile (fs w) q)
                  /\ (forall r, FS.lookup c r = None ->
                                FS.readFile (fs w1) (tp ++ n :: r)
                                = FS.readFile (fs w) (tp ++ n :: r))).
      { destruct c as [data|items].
        - unfold fs_update, Path.join in Hstep.
          destruct (FS.writeFile (fs w) (tp ++ [n]) data) as [f1|] eqn:W; [|discriminate].
          injection Hstep as <-. cbn [operations fs with_fs].
          split; [reflexivity|]. split; [|split].
          + intros r d Hl _. destruct r; [|discriminate Hl].
            injection Hl as <-. exact (readFile_writeFile_same _ _ _ _ W).
          + intros q Hq. apply (readFile_writeFile_other _ _ _ _ q W).
            intros ->. rewrite is_prefix_refl in Hq. discriminate Hq.
          + intros r Hl. destruct r as [|x r]; [discriminate Hl|].
            apply (readFile_writeFile_other _ _ _ _ _ W).
            intros Heq. apply app_inv_head in Heq. discriminate Heq.
        - destruct (Hentry Hc _ _ _ _ Hstep) as (So & Sl & Sf & Sn).
          unfold Path.join in *.
          split; [exact So|]. split; [|split; [exact Sf|]].
          + intros r d Hl Hok.
            specialize (Sl r d Hl Hok). rewrite <- app_assoc in Sl. exact Sl.
          + intros r Hl. specialize (Sn r Hl). rewrite <- !app_assoc in Sn. exact Sn. }
      destruct S as (So & Sl & Sf & Sn).
      destruct (IH w1 w' HFrest Hrest H) as (Ro & Rl & Rf & Rn).
      split; [congruence|]. split; [|split].
      * intros name r d Hl Hok. simpl in Hl, Hok.
        apply andb_true_iff in Hok as [Hok1 Hok2].
        destruct (String.eqb_spec name n) as [->|Ne].
        -- rewrite Rf; [exact (Sl r d Hl Hok2) | exact (Hother r)].
        -- apply Rl; [simpl; exact Hl|]. simpl. rewrite Hok1. exact Hok2.
      * intros q Hq. rewrite Rf by (intros k c' HIn; apply (Hq k c'); right; exact HIn).
        apply Sf. apply (Hq n c). left; reflexivity.
      * intros name r Hl. simpl in Hl.
        destruct (String.eqb_spec name n) as [->|Ne].
        -- rewrite Rf by exact (Hother r). exact (Sn r Hl).
        -- rewrite Rn by (simpl; exact Hl). apply Sf.
           apply other_entry_apart. congruence.
Qed.

Lemma copyTree_lands src : FS.distinct_names src = true -> lands src.
Proof.
  induction src as [data|entries IH] using node_induction; intros Hd sp tp w w' H.
  - exfalso. simpl in H. unfold bind in H.
    destruct (ensureTarget tp w) as [[[]|e] w1]; discriminate H.
  - change (copyTree' (FS.Dir entries) sp tp w)
      with (bind (ensureTarget tp)
              (fun _ => copyEntries minimatch
                          (fun entry srcPath destPath => copyTree' entry srcPath destPath)
                          sp tp includePattern excludePattern entries) w) in H.
    apply bind_inv in H as ([] & w1 & Hen & H).
    destruct (ensureTarget_reads _ _ _ _ Hen) as [Eo Er].
    cbn [FS.distinct_names] in Hd.
    destruct (copyEntries_lands sp tp entries w1 w' IH Hd H) as (Ro & Rl & Rf & Rn).
    split; [congruence|]. split; [|split].
    + intros r d Hl Hok. destruct r as [|name r]; [discriminate Hl|].
      exact (Rl name r d Hl Hok).
    + intros q Hq. rewrite Rf; [apply Er|].
      intros k c _. destruct (Path.is_prefix (tp ++ [k]) q) eqn:E; [|reflexivity].
      rewrite (is_prefix_trans _ _ _ (is_prefix_app tp [k]) E) in Hq. discriminate Hq.
    + intros r Hl. destruct r as [|name r]; [discriminate Hl|].
      rewrite (Rn name r Hl). apply Er.
Qed.

End Merge.

Section FolderRestore.

Variable BACKUP_DIR_NORMALIZED : Path.t.
Variable EMERGENCY_BACKUP_DIR_NORMALIZED : Path.t.
Variable MAX_VERSIONS : Z.
Variable cwd : Path.t.
Variable minimatch : string -> string -> bool.
Variable host_Date_parse : string -> JS.number.

Abbreviation Call :=
  (CallTool BACKUP_DIR_NORMALIZED EMERGENCY_BACKUP_DIR_NORMALIZED MAX_VERSIONS
            cwd minimatch host_Date_parse).

Lemma nothing_skipped (r : Path.t) :
  forallb (fun name => negb (skipped minimatch name None None)) r = true.
Proof. induction r as [|a r IH]; [reflexivity | exact IH]. Qed.

(** X20: A [backup_folder_restore] that answers with success has put
    every file of the backup it chose (the first listed one with the
    timestamp) at the same place below the folder, with the content the
    backup holds; a place below the folder that the backup does not have
    reads as it did before: the restore merges, it removes nothing. *)
Theorem folder_restore_brings_back_the_backup (w w2 : World) (P : Path.t) (T : string)
    (flag : option bool) (e : option Path.t) (backups : list BackupMetadata)
    (backup : BackupMetadata) (src : FS.node) :
  findBackupsByFolderPath BACKUP_DIR_NORMALIZED (fs w) P = Return backups ->
  List.find (hasTimestamp T) backups = Some backup ->
  FS.lookup (fs w) (backup_path backup) = Some src ->
  FS.distinct_names src = true ->
  Path.is_prefix (backup_path backup) P = false ->
  (or_else flag true = true ->
   Path.is_prefix EMERGENCY_BACKUP_DIR_NORMALIZED (backup_path backup) = false
   /\ Path.is_prefix (backup_path backup) EMERGENCY_BACKUP_DIR_NORMALIZED = false) ->
  Call (backup_folder_restore (Some P) T flag) w
  = (JsonResponse (FolderRestored P T e), w2) ->
  (forall r d, FS.lookup src r = Some (FS.File d) -> FS.readFile (fs w2) (P ++ r) = Some d)
  /\ (forall r, FS.lookup src r = None ->
                (or_else flag true = true ->
                 Path.is_prefix EMERGENCY_BACKUP_DIR_NORMALIZED (P ++ r) = false) ->
                FS.readFile (fs w2) (P ++ r) = FS.readFile (fs w) (P ++ r)).
Proof.
  intros Hfound Hfind Hsrc Hd HBP Hem H.
  pose proof (live_registered "backup_folder_restore" w) as Hlive.
  unfold CallTool in H. rewrite createOperation_eq in H.
  cbn [tool_name id new_operation] in H.
  set (w0 := registered "backup_folder_restore" w) in *.
  match type of H with
  | match ?run with _ => _ end = _ =>
      assert (E : run = (Return (JsonResponse (FolderRestored P T e)), w2))
        by (destruct run as [[x|x] w']; [congruence | discriminate])
  end.
  clear H. unfold handle_backup_folder_restore in E. cbn [is_some or_else] in E.
  unfold Path.normalize in E.
  rewrite (bind_return _ _ w0 tt w0) in E by reflexivity.
  apply bind_inv in E as ([] & w0a & Hv1 & E).
  assert (w0a = w0) as ->.
  { unfold validateRequiredParam in Hv1. destruct (JS.truthy T); [|discriminate].
    injection Hv1 as <-. reflexivity. }
  clear Hv1.
  apply bind_inv in E as ([] & w0b & Hv2 & E).
  assert (w0b = w0) as ->.
  { unfold validateFolderExists in Hv2. destruct (FS.isDirectory _ _); [|discriminate].
    injection Hv2 as <-. reflexivity. }
  clear Hv2.
  rewrite (bind_return _ _ w0 tt w0) in E by reflexivity.
  unfold try_catch in E.
  match type of E with
  | match ?run with _ => _ end = _ => destruct run as [[x|x] w'] eqn:E1
  end.
  2:{ unfold bind in E. destruct (setStatus _ _ w') as [[[]|?] ?]; discriminate E. }
  injection E as -> ->.
  unfold bind at 1, lift in E1. change (fs w0) with (fs w) in E1.
  rewrite Hfound, Hfind in E1.
  rewrite (bind_return _ _ w0 tt w0) in E1 by reflexivity.
  apply bind_inv in E1 as (em & wa & Hsnap & E1).
  assert (Ha : operations wa = operations w0
               /\ FS.lookup (fs wa) (backup_path backup) = Some src
               /\ forall q, (or_else flag true = true ->
                             Path.is_prefix EMERGENCY_BACKUP_DIR_NORMALIZED q = false) ->
                            FS.readFile (fs wa) q = FS.readFile (fs w) q).
  { destruct (or_else flag true) eqn:Hflag.
    - destruct (createEmergencyFolderBackup_confined EMERGENCY_BACKUP_DIR_NORMALIZED cwd
                  minimatch P w0 _ _ Hsnap) as [[Hrd Hlk] Hop].
      split; [exact Hop|]. destruct (Hem eq_refl) as [A B]. split.
      + rewrite (Hlk _ A B). exact Hsrc.
      + intros q Hq. exact (Hrd q (Hq eq_refl)).
    - unfold ret in Hsnap. injection Hsnap as _ <-.
      split; [reflexivity|]. split; [exact Hsrc | reflexivity]. }
  destruct Ha as (Hop & Hlk & Hrd).
  unfold bind at 1, get_fs in E1.
  unfold FS.existsSync in E1. rewrite Hlk in E1. cbn [negb] in E1.
  rewrite checkpoint_pass in E1.
  2:{ destruct Hlive as (op & Ho & Hc). exists op. rewrite Hop. split; assumption. }
  apply bind_inv in E1 as ([] & wb & Hcopy & E1).
  rewrite (bind_return _ _ wb tt wb) in E1 by reflexivity.
  unfold ret in E1. injection E1 as _ <-.
  unfold copyFolderContents in Hcopy.
  apply bind_inv in Hcopy as ([] & wa' & Hmk & Hcopy).
  unfold fs_update in Hmk.
  destruct (FS.mkdir_p (fs wa) P) as [f1|] eqn:Emk; [|discriminate].
  injection Hmk as <-.
  unfold copyFolderRecursive in Hcopy. cbn [fs with_fs] in Hcopy.
  rewrite (lookup_mkdir_p_off _ _ _ _ Emk HBP), Hlk in Hcopy.
  destruct (copyTree_lands minimatch None None src Hd _ _ _ _ Hcopy)
    as (_ & Hland & _ & Hkeep).
  split.
  - intros r d Hr. exact (Hland r d Hr (nothing_skipped r)).
  - intros r Hr Hq. rewrite (Hkeep r Hr). cbn [fs with_fs].
    rewrite (readFile_mkdir_p _ _ _ _ Emk). exact (Hrd _ Hq).
Qed.

End FolderRestore.

Section FolderSnapshot.

Variable EMERGENCY_BACKUP_DIR_NORMALIZED : Path.t.
Variable cwd : Path.t.
Variable minimatch : string -> string -> bool.

Lemma apart_from_below (a b x : Path.t) :
  Path.is_prefix a b = false -> Path.is_prefix b a = false ->
  Path.is_prefix b (a ++ x) = false.
Proof.
  intros Hab Hba. destruct (Path.is_prefix b (a ++ x)) eqn:E; [|reflexivity].
  destruct (is_prefix_common _ _ _ (is_prefix_app a x) E); congruence.
Qed.


End FolderSnapshot.

(** ** The handler theorems at work on the small installation *)

Lemma list_of_missing_path_fails_witness :
  let w := Scenario.deleted in
  let call := Scenario.call 10 Scenario.no_host in
  FS.isFile (fs w) Scenario.notes = false
  /\ FS.isDirectory (fs w) Scenario.proj = false
  /\ FS.existsSync (fs w) (Scenario.old_path Scenario.stamp1) = true
  /\ fst (call (backup_list (Some Scenario.notes)) w)
     = ErrorResponse (FileNotFound Scenario.notes) (Some "op-1"%string)
  /\ fst (call (backup_folder_list (Some Scenario.proj)) w)
     = ErrorResponse (FolderNotFound Scenario.proj) (Some "op-1"%string).
Proof.
  cbv zeta.
  assert (H1 : FS.isFile (fs Scenario.deleted) Scenario.notes = false)
    by (vm_compute; reflexivity).
  assert (H2 : FS.isDirectory (fs Scenario.deleted) Scenario.proj = false)
    by (vm_compute; reflexivity).
  destruct (list_of_missing_path_fails Scenario.BACKUP_DIR Scenario.EMERGENCY_BACKUP_DIR
              10 Scenario.cwd Glob.minimatch Scenario.no_host
              Scenario.deleted Scenario.notes) as [A _].
  destruct (list_of_missing_path_fails Scenario.BACKUP_DIR Scenario.EMERGENCY_BACKUP_DIR
              10 Scenario.cwd Glob.minimatch Scenario.no_host
              Scenario.deleted Scenario.proj) as [_ B].
  split; [exact H1 |]. split; [exact H2 |]. split; [vm_compute; reflexivity |].
  unfold Scenario.call. rewrite (A H1), (B H2). split; reflexivity.
Defined.


Lemma restore_of_missing_original_fails_witness :
  let w := Scenario.deleted in
  let r := Scenario.call 10 Scenario.no_host
             (backup_restore (Some Scenario.notes) Scenario.stamp1 true) w in
  FS.existsSync (fs w) Scenario.proj = false
  /\ FS.existsSync (fs w) (Scenario.old_path Scenario.stamp1) = true
  /\ fst r = ErrorResponse (OriginalFileNotFound Scenario.notes) (Some "op-1"%string)
  /\ FS.isDirectory (fs (snd r)) Scenario.proj = true
  /\ FS.existsSync (fs (snd r)) Scenario.notes = false.
Proof.
  cbv zeta.
  split; [vm_compute; reflexivity |]. split; [vm_compute; reflexivity |].
  edestruct (restore_of_missing_original_fails Scenario.BACKUP_DIR
               Scenario.EMERGENCY_BACKUP_DIR 10 Scenario.cwd Glob.minimatch
               Scenario.no_host Scenario.deleted Scenario.notes Scenario.stamp1 true)
    as [A B].
  - reflexivity.
  - vm_compute; reflexivity.
  - vm_compute; reflexivity.
  - vm_compute; reflexivity.
  - vm_compute; reflexivity.
  - vm_compute; reflexivity.
  - vm_compute; reflexivity.
  - unfold Scenario.call. rewrite A. split; [reflexivity |].
    split; [vm_compute; reflexivity | exact B].
Defined.

Lemma folder_copy_filters_every_name_witness :
  let w := Scenario.boot (FS.Dir [("src"%string, Scenario.tree_tmp)]) in
  exists fs',
    copyFolderContents Glob.minimatch ["src"%string] ["dst"%string] None (Some "*.tmp"%string) w
    = (Return tt, with_fs w fs')
    /\ FS.lookup fs' ["dst"%string] = Some (FS.Dir [("a.txt"%string, FS.File Scenario.v1)]).
Proof.
  cbv zeta.
  edestruct (folder_copy_filters_every_name Glob.minimatch None (Some "*.tmp"%string)
               (Scenario.boot (FS.Dir [("src"%string, Scenario.tree_tmp)]))
               ["src"%string] ["dst"%string]) as (fs' & A & B & _).
  - vm_compute; reflexivity.
  - vm_compute; reflexivity.
  - vm_compute; reflexivity.
  - vm_compute; reflexivity.
  - vm_compute; reflexivity.
  - vm_compute; reflexivity.
  - exists fs'. split; [exact A |]. rewrite B. vm_compute. reflexivity.
Defined.


(** C4 as first stated fails on a directory whose own name matches the
    exclude pattern: with [*.tmp] excluded, the directory [cache.tmp] is
    not entered and [cache.tmp/keep.txt], which matches nothing, is not
    copied. *)
Lemma excluded_directory_is_not_entered :
  let w := Scenario.boot (FS.Dir [("src"%string, Scenario.tree_tmp)]) in
  let r := copyFolderContents Glob.minimatch ["src"%string] ["dst"%string]
             None (Some "*.tmp"%string) w in
  fst r = Return tt
  /\ FS.isDirectory (fs w) ["src"; "cache.tmp"]%string = true
  /\ FS.isFile (fs w) ["src"; "cache.tmp"; "keep.txt"]%string = true
  /\ Glob.minimatch "keep.txt" "*.tmp" = false
  /\ FS.isFile (fs (snd r)) ["dst"; "a.txt"]%string = true
  /\ FS.existsSync (fs (snd r)) ["dst"; "cache.tmp"]%string = false
  /\ FS.existsSync (fs (snd r)) ["dst"; "cache.tmp"; "keep.txt"]%string = false.
Proof. vm_compute. repeat split; reflexivity. Qed.

(** ** The further properties at work on the small installation *)

Lemma restore_touches_only_its_target_witness :
  let w := Scenario.edited Scenario.no_host in
  let p := Scenario.old_path Scenario.stamp1 in
  FS.readFile (fs w) p = Some Scenario.v1
  /\ FS.readFile
       (fs (snd (Scenario.call 10 Scenario.no_host
                   (backup_restore (Some Scenario.notes) Scenario.stamp1 true) w))) p
     = Some Scenario.v1.
Proof.
  cbv zeta.
  assert (H : FS.readFile (fs (Scenario.edited Scenario.no_host))
                (Scenario.old_path Scenario.stamp1) = Some Scenario.v1)
    by (vm_compute; reflexivity).
  split; [exact H |]. unfold Scenario.call.
  rewrite (restore_touches_only_its_target Scenario.BACKUP_DIR Scenario.EMERGENCY_BACKUP_DIR
             10 Scenario.cwd Glob.minimatch Scenario.no_host
             (Scenario.edited Scenario.no_host) Scenario.notes Scenario.stamp1 true
             (Scenario.old_path Scenario.stamp1)).
  - exact H.
  - intros E. vm_compute in E. discriminate E.
  - intros _. vm_compute. reflexivity.
Defined.

Lemma folder_restore_stays_in_its_folder_witness :
  let w := Scenario.after_create Scenario.no_host in
  let p := Scenario.old_path Scenario.stamp1 in
  FS.readFile (fs w) p = Some Scenario.v1
  /\ FS.readFile
       (fs (snd (Scenario.call 10 Scenario.no_host
                   (backup_folder_restore (Some Scenario.proj) Scenario.stamp1 None) w))) p
     = Some Scenario.v1.
Proof.
  cbv zeta.
  assert (H : FS.readFile (fs (Scenario.after_create Scenario.no_host))
                (Scenario.old_path Scenario.stamp1) = Some Scenario.v1)
    by (vm_compute; reflexivity).
  split; [exact H |]. unfold Scenario.call.
  rewrite (folder_restore_stays_in_its_folder Scenario.BACKUP_DIR
             Scenario.EMERGENCY_BACKUP_DIR 10 Scenario.cwd Glob.minimatch Scenario.no_host
             (Scenario.after_create Scenario.no_host) Scenario.proj Scenario.stamp1 None
             (Scenario.old_path Scenario.stamp1)).
  - exact H.
  - vm_compute. reflexivity.
  - intros _. vm_compute. reflexivity.
Defined.

Lemma status_is_never_completed_witness :
  let calls := [backup_create (Some Scenario.notes) None;
                backup_list (Some Scenario.notes)] in
  let w := CallTools (Scenario.call 10 Scenario.no_host) calls
             (Scenario.boot Scenario.disk0) in
  fst (mcp_backup_status "op-0" (operations w)) = 0
  /\ snd (mcp_backup_status "op-0" (operations w)) <> "completed"%string.
Proof.
  cbv zeta.
  apply (status_is_never_completed Scenario.BACKUP_DIR Scenario.EMERGENCY_BACKUP_DIR
           10 Scenario.cwd Glob.minimatch Scenario.no_host
           [backup_create (Some Scenario.notes) None; backup_list (Some Scenario.notes)]
           (Scenario.boot Scenario.disk0) "op-0"%string).
  intros k op H. cbn [Scenario.boot operations] in H.
  rewrite lookup_empty in H. discriminate H.
Defined.

Lemma cancel_flags_the_named_operation_witness :
  let w := Scenario.after_create Scenario.no_host in
  let r := Scenario.call 10 Scenario.no_host (mcp_cancel "op-0") w in
  fst r = JsonResponse (CancelDone "op-0")
  /\ mcp_backup_status "op-0" (operations (snd r)) = (0, "cancelled"%string).
Proof.
  cbv zeta.
  pose proof (cancel_flags_the_named_operation Scenario.BACKUP_DIR
                Scenario.EMERGENCY_BACKUP_DIR 10 Scenario.cwd Glob.minimatch
                Scenario.no_host (Scenario.after_create Scenario.no_host) "op-0"%string
                eq_refl) as H.
  cbv zeta in H.
  destruct H as [_ H].
  { intros E. vm_compute in E. discriminate E. }
  assert (E : operations (Scenario.after_create Scenario.no_host) !! "op-0"%string
              = Some {| id := "op-0"; type := "backup_create"; progress := 0;
                        cancelled := false; status := "running" |})
    by (vm_compute; reflexivity).
  rewrite E in H. destruct H as (A & _ & B).
  unfold Scenario.call. split; [exact A | exact B].
Defined.

Lemma calls_on_a_missing_original_fail_witness :
  let w := Scenario.deleted in
  let call := Scenario.call 10 Scenario.no_host in
  FS.existsSync (fs w) Scenario.proj = false
  /\ fst (call (backup_create (Some Scenario.notes) None) w)
     = ErrorResponse (FileNotFound Scenario.notes) (Some "op-1"%string)
  /\ fst (call (backup_folder_create (Some Scenario.proj) None None None) w)
     = ErrorResponse (FolderNotFound Scenario.proj) (Some "op-1"%string)
  /\ fst (call (backup_folder_restore (Some Scenario.proj) Scenario.stamp1 None) w)
     = ErrorResponse (FolderNotFound Scenario.proj) (Some "op-1"%string).
Proof.
  cbv zeta.
  destruct (calls_on_a_missing_original_fail Scenario.BACKUP_DIR
              Scenario.EMERGENCY_BACKUP_DIR 10 Scenario.cwd Glob.minimatch
              Scenario.no_host Scenario.deleted Scenario.notes Scenario.stamp1
              None None None None) as (A & _ & _).
  destruct (calls_on_a_missing_original_fail Scenario.BACKUP_DIR
              Scenario.EMERGENCY_BACKUP_DIR 10 Scenario.cwd Glob.minimatch
              Scenario.no_host Scenario.deleted Scenario.proj Scenario.stamp1
              None None None None) as (_ & B & C).
  assert (H1 : FS.isFile (fs Scenario.deleted) Scenario.notes = false)
    by (vm_compute; reflexivity).
  assert (H2 : FS.isDirectory (fs Scenario.deleted) Scenario.proj = false)
    by (vm_compute; reflexivity).
  split; [vm_compute; reflexivity |].
  unfold Scenario.call. rewrite (A H1), (B H2), (C H2 eq_refl).
  repeat split.
Defined.


Lemma version_list_keeps_scan_order_witness :
  findBackupsByFilePath Scenario.BACKUP_DIR Scenario.no_host
    Scenario.disk_two_versions Scenario.notes
  = Return [Scenario.old_meta Scenario.stampB; Scenario.old_meta Scenario.stampA].
Proof.
  rewrite (version_list_keeps_scan_order Scenario.BACKUP_DIR Scenario.no_host
             Scenario.disk_two_versions Scenario.notes
             [getBackupMetadataFilename (Scenario.old_path Scenario.stampB);
              getBackupMetadataFilename (Scenario.old_path Scenario.stampA)]).
  - vm_compute. reflexivity.
  - vm_compute. reflexivity.
  - intros p b Hin Hread _.
    destruct Hin as [<-|[<-|[]]]; vm_compute in Hread; injection Hread as <-.
    + exists (Date.mk 1685610000000 0). split; [|vm_compute; reflexivity].
      assert (Y : Date.getFullYear (Date.mk 1685610000000 0) = 2023)
        by (vm_compute; reflexivity).
      rewrite Y. lia.
    + exists (Date.mk 1672563600000 0). split; [|vm_compute; reflexivity].
      assert (Y : Date.getFullYear (Date.mk 1672563600000 0) = 2023)
        by (vm_compute; reflexivity).
      rewrite Y. lia.
Defined.

Lemma list_all_recognises_engine_names_witness :
  isBackupFile "notes.txt.20240101-120000-000" = true
  /\ isBackupFile "notes.txt.emergency.20240101-120000-000" = true
  /\ isBackupFile "notes.txt.20240101-120000-000.meta.json" = false
  /\ isMetadataFile "notes.txt.20240101-120000-000.meta.json" = true.
Proof.
  assert (Y : 1000 <= Date.getFullYear (Scenario.ticks 0) < 10000).
  { assert (E : Date.getFullYear (Scenario.ticks 0) = 2024) by (vm_compute; reflexivity).
    rewrite E. lia. }
  exact (list_all_recognises_engine_names Scenario.notes (Scenario.ticks 0)
           "notes.txt.20240101-120000-000" Y).
Defined.

Lemma retention_is_best_effort_witness :
  let w := Scenario.boot Scenario.disk_two_versions in
  exists w',
    cleanupOldBackups Scenario.BACKUP_DIR 1 Scenario.no_host Scenario.notes w
    = (Return 1, w')
    /\ operations w' = operations w
    /\ FS.readFile (fs w') Scenario.notes = Some Scenario.v3.
Proof.
  cbv zeta.
  destruct (retention_is_best_effort Scenario.BACKUP_DIR 1 Scenario.no_host
              (Scenario.boot Scenario.disk_two_versions) Scenario.notes
              [Scenario.old_meta Scenario.stampB; Scenario.old_meta Scenario.stampA])
    as (w' & E & O & _ & K).
  - vm_compute. reflexivity.
  - exists w'. split; [exact E |]. split; [exact O |].
    rewrite K; [vm_compute; reflexivity |].
    intros b [<-|[<-|[]]]; vm_compute; reflexivity.
Defined.

Lemma create_stays_in_the_store_witness :
  let w := Scenario.boot Scenario.disk_two_versions in
  FS.readFile
    (fs (snd (CallTool Scenario.BACKUP_DIR Scenario.EMERGENCY_BACKUP_DIR 1 Scenario.cwd
                Glob.minimatch Scenario.no_host
                (backup_create (Some Scenario.notes) None) w)))
    Scenario.notes
  = Some Scenario.v3.
Proof.
  cbv zeta.
  rewrite (create_stays_in_the_store Scenario.BACKUP_DIR Scenario.EMERGENCY_BACKUP_DIR 1
             Scenario.cwd Glob.minimatch Scenario.no_host
             (Scenario.boot Scenario.disk_two_versions) Scenario.notes None Scenario.notes).
  - vm_compute. reflexivity.
  - intros found q b Hscan Hin Hread _.
    vm_compute in Hscan. injection Hscan as <-.
    destruct Hin as [<-|[<-|[]]]; vm_compute in Hread; injection Hread as <-;
      vm_compute; reflexivity.
  - vm_compute. reflexivity.
Defined.

Lemma scanner_finds_the_descriptors_witness :
  exists found,
    findAllBackupMetadataFiles Scenario.disk_two_versions Scenario.BACKUP_DIR
    = Return found
    /\ In (getBackupMetadataFilename (Scenario.old_path Scenario.stampA)) found.
Proof.
  pose proof (scanner_finds_the_descriptors Scenario.disk_two_versions
                Scenario.BACKUP_DIR) as H.
  destruct (FS.lookup Scenario.disk_two_versions Scenario.BACKUP_DIR) as [[d|items]|] eqn:E;
    try (vm_compute in E; discriminate E).
  destruct H as (found & Hf & Hc & _).
  exists found. split; [exact Hf |].
  apply (Hc ["home"; "u"; "proj"; "notes.txt.20230101-090000-000.meta.json"]%string
            (JSON.stringify (Scenario.old_meta Scenario.stampA))).
  - discriminate.
  - vm_compute. reflexivity.
  - vm_compute. reflexivity.
Defined.

Lemma emergency_snapshots_are_confined_witness :
  let w := Scenario.boot Scenario.disk0 in
  createEmergencyBackup Scenario.EMERGENCY_BACKUP_DIR Scenario.cwd
    ["home"; "u"; "gone.txt"]%string w = (Return None, w)
  /\ createEmergencyFolderBackup Scenario.EMERGENCY_BACKUP_DIR Scenario.cwd Glob.minimatch
       ["home"; "u"; "gone"]%string w = (Return None, w).
Proof.
  cbv zeta.
  destruct (emergency_snapshots_are_confined Scenario.EMERGENCY_BACKUP_DIR Scenario.cwd
              Glob.minimatch (Scenario.boot Scenario.disk0) ["home"; "u"; "gone.txt"]%string)
    as [(o & w' & E & _ & K) _].
  destruct (emergency_snapshots_are_confined Scenario.EMERGENCY_BACKUP_DIR Scenario.cwd
              Glob.minimatch (Scenario.boot Scenario.disk0) ["home"; "u"; "gone"]%string)
    as [_ (o2 & w2 & E2 & _ & K2)].
  destruct K as [-> ->]; [vm_compute; reflexivity |].
  destruct K2 as [-> ->]; [vm_compute; reflexivity |].
  split; [exact E | exact E2].
Defined.


Lemma emergency_snapshot_holds_the_file_witness :
  let w := Scenario.boot Scenario.disk0 in
  let r := createEmergencyBackup Scenario.EMERGENCY_BACKUP_DIR Scenario.cwd
             Scenario.notes w in
  exists p,
    fst r = Return (Some p)
    /\ Path.is_prefix Scenario.EMERGENCY_BACKUP_DIR p = true
    /\ FS.readFile (fs (snd r)) p = Some Scenario.v1.
Proof.
  cbv zeta.
  set (p := Scenario.EMERGENCY_BACKUP_DIR
            ++ ["home"; "u"; "proj"; "notes.txt.emergency.20240101-120000-000"]%string).
  assert (E : fst (createEmergencyBackup Scenario.EMERGENCY_BACKUP_DIR Scenario.cwd
                     Scenario.notes (Scenario.boot Scenario.disk0)) = Return (Some p))
    by (vm_compute; reflexivity).
  destruct (emergency_snapshot_holds_the_file Scenario.EMERGENCY_BACKUP_DIR Scenario.cwd
              (Scenario.boot Scenario.disk0)
              (snd (createEmergencyBackup Scenario.EMERGENCY_BACKUP_DIR Scenario.cwd
                      Scenario.notes (Scenario.boot Scenario.disk0)))
              Scenario.notes p) as (_ & c & Hc & Hp).
  - apply injective_projections; [exact E | reflexivity].
  - exists p. split; [exact E |]. split; [vm_compute; reflexivity |].
    rewrite Hp, <- Hc. vm_compute. reflexivity.
Defined.

Lemma folder_backup_holds_the_filtered_folder_witness :
  let w := Scenario.boot Scenario.disk0 in
  let w1 := snd (Scenario.call 10 Scenario.no_host
                   (backup_folder_create (Some Scenario.proj) None (Some "*.tmp"%string) None)
                   w) in
  FS.lookup (fs w1)
    (Scenario.BACKUP_DIR ++ ["home"; "u"; "proj.20240101-120000-000"]%string)
  = Some (FS.Dir [("notes.txt"%string, FS.File Scenario.v1)])
  /\ FS.lookup (fs w1) Scenario.proj
     = Some (FS.Dir [("notes.txt"%string, FS.File Scenario.v1)]).
Proof.
  cbv zeta.
  set (B := Scenario.BACKUP_DIR ++ ["home"; "u"; "proj.20240101-120000-000"]%string).
  set (m := {| original_path := Scenario.proj; original_filename := "proj";
               timestamp := Scenario.stamp1; created_at := 1704110400005;
               backup_path := B; relative_path := Path.relative Scenario.cwd B;
               agent_context := None |}).
  destruct (folder_backup_holds_the_filtered_folder Scenario.BACKUP_DIR
              Scenario.EMERGENCY_BACKUP_DIR 10 Scenario.cwd Glob.minimatch Scenario.no_host
              (Scenario.boot Scenario.disk0)
              (snd (Scenario.call 10 Scenario.no_host
                      (backup_folder_create (Some Scenario.proj) None (Some "*.tmp"%string)
                         None)
                      (Scenario.boot Scenario.disk0)))
              Scenario.proj None (Some "*.tmp"%string) None m 0
              (FS.Dir [("notes.txt"%string, FS.File Scenario.v1)]))
    as (_ & _ & _ & HB & HP).
  - vm_compute. reflexivity.
  - vm_compute. reflexivity.
  - vm_compute. reflexivity.
  - vm_compute. reflexivity.
  - vm_compute. reflexivity.
  - unfold Scenario.call.
    apply injective_projections; [vm_compute; reflexivity | reflexivity].
  - lia.
  - split; [|exact HP].
    etransitivity; [|etransitivity; [exact HB|]]; vm_compute; reflexivity.
Defined.


Lemma folder_restore_brings_back_the_backup_witness :
  let w1 := snd (Scenario.call 10 Scenario.no_host
                   (backup_folder_create (Some Scenario.proj) None None None)
                   (Scenario.boot Scenario.disk0)) in
  let w := with_fs w1 (or_else (FS.writeFile (fs w1) Scenario.notes Scenario.v2) (fs w1)) in
  let w2 := snd (Scenario.call 10 Scenario.no_host
                   (backup_folder_restore (Some Scenario.proj) Scenario.stamp1 (Some false))
                   w) in
  FS.readFile (fs w) Scenario.notes = Some Scenario.v2
  /\ FS.readFile (fs w2) Scenario.notes = Some Scenario.v1.
Proof.
  cbv zeta.
  set (w1 := snd (Scenario.call 10 Scenario.no_host
                    (backup_folder_create (Some Scenario.proj) None None None)
                    (Scenario.boot Scenario.disk0))).
  set (w := with_fs w1 (or_else (FS.writeFile (fs w1) Scenario.notes Scenario.v2) (fs w1))).
  set (B := Scenario.BACKUP_DIR ++ ["home"; "u"; "proj.20240101-120000-000"]%string).
  set (m := {| original_path := Scenario.proj; original_filename := "proj";
               timestamp := Scenario.stamp1; created_at := 1704110400005;
               backup_path := B; relative_path := Path.relative Scenario.cwd B;
               agent_context := None |}).
  split; [vm_compute; reflexivity |].
  refine (proj1 (folder_restore_brings_back_the_backup Scenario.BACKUP_DIR
           Scenario.EMERGENCY_BACKUP_DIR 10 Scenario.cwd Glob.minimatch Scenario.no_host
           w
           (snd (Scenario.call 10 Scenario.no_host
                   (backup_folder_restore (Some Scenario.proj) Scenario.stamp1 (Some false))
                   w))
           Scenario.proj Scenario.stamp1 (Some false) None [m] m
           (FS.Dir [("notes.txt"%string, FS.File Scenario.v1)])
           ltac:(vm_compute; reflexivity) ltac:(vm_compute; reflexivity)
           ltac:(vm_compute; reflexivity) ltac:(vm_compute; reflexivity)
           ltac:(vm_compute; reflexivity) ltac:(intros X; discriminate X)
           ltac:(unfold Scenario.call;
                 apply injective_projections; [vm_compute; reflexivity | reflexivity]))
           ["notes.txt"%string] Scenario.v1 eq_refl).
Defined.

